(** * helpdesk-rag-demo: ingestion scripts and answer endpoint

    A shallow embedding of

    - [scripts/import_and_wait_rag_files.py] (module [ImportAndWait]),
    - [scripts/import_with_sink.py]          (module [ImportWithSink]),
    - [scripts/import_with_sink_chunked.py]  (module [ImportWithSinkChunked]),
    - [demo_app/main.py], the [/api/ask] handler (module [DemoApp]),

    together with the properties of the ingestion workflow and of the
    answer endpoint that the design document states about them.

    Parsed JSON payloads are values of [json]; Python's dynamic behaviour
    on them (truthiness, [dict.get], [x or y], [int(x)]) is written out in
    module [Py].  The scripts talk to the outside world (HTTP, the clock,
    [time.sleep], subprocesses, the standard streams): a run is a function
    from a [World] to a [Res]ult, the outside world is an [Env]ironment of
    oracles, and everything the process does is appended to a trace. *)

From Stdlib Require Import ZArith List String Ascii Bool Lia Permutation.
From Stdlib Require Import DecimalString Sorted.
Import ListNotations.
Local Open Scope string_scope.
Local Open Scope Z_scope.
Set Warnings "-register-all".

(* ===================================================================== *)
(** ** Python values and the builtins the scripts use *)
(* ===================================================================== *)

Module Py.

(** A parsed JSON document, as [json.loads] / [Response.json()] builds it.
    A dict is an association list in insertion order; its keys are
    distinct and [lookup] returns the first binding.  A float is kept as
    a fraction; one [ascii] stands for one character of a Python [str]. *)
Inductive json : Type :=
| JNull
| JBool (b : bool)
| JInt (n : Z)
| JFloat (num : Z) (den : positive)
| JStr (s : string)
| JArr (l : list json)
| JObj (m : list (string * json)).

(** The exceptions that the modelled code can raise. *)
Inductive PyExn : Type :=
| AttributeError
| TypeError
| ValueError
| KeyError
| IndexError
| OSError
| RequestException (msg : string)
| RuntimeError (msg : string).

Fixpoint lookup (k : string) (m : list (string * json)) : option json :=
  match m with
  | [] => None
  | (k', v) :: m' => if String.eqb k k' then Some v else lookup k m'
  end.

(** [bool(x)]. *)
Definition truthy (x : json) : bool :=
  match x with
  | JNull => false
  | JBool b => b
  | JInt n => negb (n =? 0)
  | JFloat n _ => negb (n =? 0)
  | JStr s => negb (String.eqb s EmptyString)
  | JArr l => match l with [] => false | _ => true end
  | JObj m => match m with [] => false | _ => true end
  end.

(** [x or y]. *)
Definition por (x y : json) : json := if truthy x then x else y.

(** [d.get(k, default)]; only a dict has a [get] method. *)
Definition get_default (d : json) (k : string) (default : json)
  : PyExn + json :=
  match d with
  | JObj m => inr (match lookup k m with Some v => v | None => default end)
  | _ => inl AttributeError
  end.

(** [d.get(k)]. *)
Definition get (d : json) (k : string) : PyExn + json :=
  get_default d k JNull.

(** Sequencing of expressions that may raise. *)
Definition and_then {A B} (x : PyExn + A) (k : A -> PyExn + B) : PyExn + B :=
  match x with
  | inr a => k a
  | inl e => inl e
  end.

Notation "'let?' x ':=' c 'in' k" := (and_then c (fun x => k))
  (at level 10, x name, c at level 100, k at level 200).

(** [x == s] for a string literal [s]. *)
Definition is_str (x : json) (s : string) : bool :=
  match x with
  | JStr s' => String.eqb s' s
  | _ => false
  end.

Fixpoint chars (s : string) : list json :=
  match s with
  | EmptyString => []
  | String c s' => JStr (String c EmptyString) :: chars s'
  end.

(** The items that iterating over [x] yields ([for v in x],
    [list.extend(x)]): the elements of a list, the keys of a dict, the
    characters of a string; nothing else is iterable. *)
Definition py_iter (x : json) : PyExn + list json :=
  match x with
  | JArr l => inr l
  | JObj m => inr (map (fun kv => JStr (fst kv)) m)
  | JStr s => inr (chars s)
  | JNull | JBool _ | JInt _ | JFloat _ _ => inl TypeError
  end.

(** The line feed and the double quote of the string literals. *)
Definition nl : string := String (ascii_of_nat 10) EmptyString.
Definition dq : string := String (ascii_of_nat 34) EmptyString.

(** *** [int(x)] *)

Definition is_space (c : ascii) : bool :=
  let n := Z.of_nat (nat_of_ascii c) in
  ((9 <=? n) && (n <=? 13)) || ((28 <=? n) && (n <=? 32)).

Fixpoint lstrip (s : string) : string :=
  match s with
  | String c s' => if is_space c then lstrip s' else s
  | EmptyString => EmptyString
  end.

Fixpoint rstrip (s : string) : string :=
  match s with
  | EmptyString => EmptyString
  | String c s' =>
      match rstrip s' with
      | EmptyString => if is_space c then EmptyString else String c EmptyString
      | r => String c r
      end
  end.

(** [s.strip()]. *)
Definition strip (s : string) : string := rstrip (lstrip s).

Definition digit_of (c : ascii) : option Z :=
  let n := Z.of_nat (nat_of_ascii c) in
  if (48 <=? n) && (n <=? 57) then Some (n - 48) else None.

(** Decimal digits, with single underscores allowed between digits. *)
Fixpoint parse_digits (acc : Z) (after_digit : bool) (s : string)
  : option Z :=
  match s with
  | EmptyString => if after_digit then Some acc else None
  | String c s' =>
      match digit_of c with
      | Some d => parse_digits (10 * acc + d) true s'
      | None =>
          if Ascii.eqb c "_" && after_digit
          then parse_digits acc false s'
          else None
      end
  end.

(** [int(s)] for a [str]: surrounding blanks, an optional sign, digits. *)
Definition int_of_str (s : string) : PyExn + Z :=
  let body := strip s in
  let parsed :=
    match body with
    | String "-" r => option_map Z.opp (parse_digits 0 false r)
    | String "+" r => parse_digits 0 false r
    | _ => parse_digits 0 false body
    end in
  match parsed with
  | Some n => inr n
  | None => inl ValueError
  end.

(** [int(x)]. *)
Definition py_int (x : json) : PyExn + Z :=
  match x with
  | JStr s => int_of_str s
  | JInt n => inr n
  | JBool b => inr (if b then 1 else 0)
  | JFloat n d => inr (Z.quot n (Zpos d))
  | JNull | JArr _ | JObj _ => inl TypeError
  end.

(** [str(n)] for an [int]. *)
Definition str_of_Z (n : Z) : string := NilZero.string_of_int (Z.to_int n).

(** [s.startswith(p)]. *)
Definition startswith (s p : string) : bool := String.prefix p s.

(** [s.endswith(p)]. *)
Definition endswith (s p : string) : bool :=
  let n := String.length s in
  let k := String.length p in
  (k <=? n)%nat && String.eqb (String.substring (n - k) k s) p.

(** [s[n:]]. *)
Fixpoint slice_from (n : nat) (s : string) : string :=
  match n, s with
  | O, _ => s
  | S n', String _ s' => slice_from n' s'
  | S _, EmptyString => EmptyString
  end.

(** [s.split("/", 1)[0]]: what comes before the first slash. *)
Fixpoint before_slash (s : string) : string :=
  match s with
  | EmptyString => EmptyString
  | String c s' => if Ascii.eqb c "/" then EmptyString
                   else String c (before_slash s')
  end.

(** [x.strip()]; only a [str] has the method. *)
Definition py_strip (x : json) : PyExn + string :=
  match x with
  | JStr s => inr (strip s)
  | _ => inl AttributeError
  end.

(** [x[:n]]: a [str] and a [list] can be sliced. *)
Definition py_slice_to (n : nat) (x : json) : PyExn + json :=
  match x with
  | JStr s => inr (JStr (String.substring 0 n s))
  | JArr l => inr (JArr (firstn n l))
  | _ => inl TypeError
  end.

(** [x[0]], any failure being an exception. *)
Definition py_first (x : json) : PyExn + json :=
  match x with
  | JArr (v :: _) => inr v
  | JStr (String c _) => inr (JStr (String c EmptyString))
  | JObj _ => inl KeyError
  | JArr [] | JStr EmptyString => inl IndexError
  | _ => inl TypeError
  end.

(** [s[:n]]. *)
Definition slice_to (n : nat) (s : string) : string := String.substring 0 n s.

End Py.
Export Py.

(* ===================================================================== *)
(** ** The process and its environment *)
(* ===================================================================== *)

Module Sys.

(** A call on the authorised session. *)
Inductive Request : Type :=
| GET (url : string) (params : json)
| POST (url : string) (payload : json).

(** What the call gives back: the transport raises, or a response
    arrives.  [body] is what [Response.json()] returns, [None] when the
    payload is not JSON and [Response.json()] raises. *)
Inductive Reply : Type :=
| ConnectionError (msg : string)
| HttpResponse (status_code : Z) (text : string) (body : option json).

(** [subprocess.CompletedProcess] with captured text output. *)
Record Completed : Type := mkCompleted {
  returncode : Z;
  stdout : string;
  stderr : string
}.

(** Everything observable that the process does, in order. *)
Inductive Event : Type :=
| EvHttp (r : Request)
| EvSleep (seconds : Z)
| EvRun (cmd : list string)
| EvOut (line : string)          (* print(line) *)
| EvOutJson (x : json)           (* print(jdump(x)) *)
| EvOutValue (x : json)          (* print(x) *)
| EvErr (line : string)          (* print(line, file=sys.stderr) *)
| EvErrJson (x : json).          (* print(jdump(x), file=sys.stderr) *)

Record World : Type := mkWorld {
  clock : Z;                     (* time.time(), in seconds *)
  trace : list Event
}.

(** The outside world: the remote service, the time a call takes, and the
    subprocesses ([None] when the program cannot be started).  Each
    oracle sees the world at the moment of the call, so a reply may depend
    on the time and on everything done before. *)
Record Env : Type := mkEnv {
  serve : World -> Request -> Reply;
  took : World -> Request -> N;
  spawn : World -> list string -> option Completed
}.

(** How a computation ends: it returns, [sys.exit] is called, an
    exception propagates, the run leaves the modelled fragment of Python
    (a non-string where the service sends a string), or the fuel of a
    [while] loop is used up. *)
Inductive Res (A : Type) : Type :=
| Ok (a : A) (w : World)
| SysExit (code : Z) (w : World)
| Raised (e : PyExn) (w : World)
| Unmodelled
| OutOfFuel.
Arguments Ok {A} a w.
Arguments SysExit {A} code w.
Arguments Raised {A} e w.
Arguments Unmodelled {A}.
Arguments OutOfFuel {A}.

Definition M (A : Type) : Type := World -> Res A.

Definition ret {A} (a : A) : M A := fun w => Ok a w.

Definition bind {A B} (m : M A) (k : A -> M B) : M B :=
  fun w =>
    match m w with
    | Ok a w' => k a w'
    | SysExit c w' => SysExit c w'
    | Raised e w' => Raised e w'
    | Unmodelled => Unmodelled
    | OutOfFuel => OutOfFuel
    end.

Declare Scope py_scope.
Delimit Scope py_scope with py.
Notation "x <- c ;; k" := (bind c (fun x => k))
  (at level 61, c at next level, right associativity) : py_scope.
Notation "c ;; k" := (bind c (fun _ => k))
  (at level 61, right associativity) : py_scope.

Definition emit (e : Event) (w : World) : World :=
  mkWorld (clock w) (trace w ++ [e]).

Definition log (e : Event) : M unit := fun w => Ok tt (emit e w).

Definition print (line : string) : M unit := log (EvOut line).
Definition print_json (x : json) : M unit := log (EvOutJson x).
Definition print_value (x : json) : M unit := log (EvOutValue x).
Definition eprint (line : string) : M unit := log (EvErr line).
Definition eprint_json (x : json) : M unit := log (EvErrJson x).

(** [sys.exit(code)]. *)
Definition sys_exit {A} (code : Z) : M A := fun w => SysExit code w.

Definition raise {A} (e : PyExn) : M A := fun w => Raised e w.

Definition unmodelled {A} : M A := fun _ => Unmodelled.

Definition out_of_fuel {A} : M A := fun _ => OutOfFuel.

(** The value of an expression that may raise. *)
Definition eval {A} (x : PyExn + A) : M A :=
  match x with
  | inr a => ret a
  | inl e => raise e
  end.

(** [time.time()]. *)
Definition time_time : M Z := fun w => Ok (clock w) w.

(** [time.sleep(seconds)]; a negative length raises [ValueError]. *)
Definition time_sleep (seconds : Z) : M unit :=
  fun w =>
    if seconds <? 0 then Raised ValueError w
    else Ok tt (mkWorld (clock w + seconds) (trace w ++ [EvSleep seconds])).

(** [session.get] / [session.post]: the reply of the service, after the
    time the call took. *)
Definition session_request (env : Env) (r : Request) : M Reply :=
  fun w =>
    Ok (serve env w r)
       (mkWorld (clock w + Z.of_N (took env w r)) (trace w ++ [EvHttp r])).

(** [subprocess.run(cmd, text=True, capture_output=True)], the [run] of
    the two sink scripts; [OSError] when the program cannot be started. *)
Definition run (env : Env) (cmd : list string) : M Completed :=
  fun w =>
    match spawn env w cmd with
    | Some c => Ok c (emit (EvRun cmd) w)
    | None => Raised OSError (emit (EvRun cmd) w)
    end.

(** The exit status of the process when the result is that of the whole
    script; [on_return] gives the status of a normal return.  An uncaught
    exception ends the interpreter with status 1. *)
Definition exit_status {A} (on_return : A -> Z) (r : Res A) : option Z :=
  match r with
  | Ok a _ => Some (on_return a)
  | SysExit c _ => Some c
  | Raised _ _ => Some 1
  | Unmodelled | OutOfFuel => None
  end.

(** The trace at the end of a run. *)
Definition final_trace {A} (r : Res A) : option (list Event) :=
  match r with
  | Ok _ w | SysExit _ w | Raised _ w => Some (trace w)
  | Unmodelled | OutOfFuel => None
  end.

(** The requests sent, in order. *)
Fixpoint requests (t : list Event) : list Request :=
  match t with
  | [] => []
  | EvHttp r :: t' => r :: requests t'
  | _ :: t' => requests t'
  end.

End Sys.
Export Sys.
Local Open Scope py_scope.

(* ===================================================================== *)
(** ** scripts/import_and_wait_rag_files.py *)
(* ===================================================================== *)

Module ImportAndWait.

(** The parsed command line. *)
Record Args : Type := mkArgs {
  project : string;
  location : string;
  corpus : string;
  gcs_uri : list string;
  poll_seconds : Z;
  timeout_minutes : Z
}.

(** The iteration order of a Python [set] of strings.  It is fixed by the
    hashes of the elements, which the interpreter salts per process: the
    program only knows that [list(set(l))] holds each element of [l]
    once.  Removing an element leaves the order of the others as it was. *)
Class SetOrder : Type := mkSetOrder {
  set_iter : list string -> list string;
  set_iter_NoDup : forall l, NoDup (set_iter l);
  set_iter_In : forall l x, In x (set_iter l) <-> In x l
}.

(** [pending.remove(name)]: [KeyError] when [name] is not a member. *)
Definition set_remove (name : string) (pending : list string)
  : PyExn + list string :=
  if existsb (String.eqb name) pending
  then inr (filter (fun n => negb (String.eqb name n)) pending)
  else inl KeyError.

Fixpoint insert_sorted (x : string) (l : list string) : list string :=
  match l with
  | [] => [x]
  | y :: l' => if String.leb x y then x :: l else y :: insert_sorted x l'
  end.

(** [sorted(l)] for strings. *)
Definition sorted (l : list string) : list string :=
  fold_right insert_sorted [] l.

Definition exit_with_error {A} (msg : string) (details : json) (code : Z)
  : M A :=
  eprint msg ;;
  (match details with
   | JNull => ret tt
   | _ => eprint_json details
   end) ;;
  sys_exit code.

Definition base_url (location : string) : string :=
  "https://" ++ location ++ "-aiplatform.googleapis.com/v1beta1".

Definition rag_file_state (rf : json) : PyExn + (json * json) :=
  let? fs0 := get rf "fileStatus" in
  let fs := por fs0 (JObj []) in
  let? st := get fs "state" in
  let state := por st (JStr "STATE_UNSPECIFIED") in
  let? es := get fs "errorStatus" in
  let err := por es (JStr EmptyString) in
  inr (state, err).

Definition extract_partial_failures (op : json) : PyExn + json :=
  let? md0 := get op "metadata" in
  let md := por md0 (JObj []) in
  let? gm0 := get md "genericMetadata" in
  let gm := por gm0 (JObj []) in
  let? pf := get gm "partialFailures" in
  inr (por pf (JArr [])).

(** [[rf.get("name") for rf in rag_files if rf.get("name")]]. *)
Fixpoint names_of (rag_files : list json) : PyExn + list json :=
  match rag_files with
  | [] => inr []
  | rf :: rest =>
      let? n := get rf "name" in
      if truthy n
      then let? n' := get rf "name" in
           let? tl := names_of rest in inr (n' :: tl)
      else names_of rest
  end.

(** The names as strings, if all of them are strings. *)
Fixpoint as_strings (names : list json) : option (list string) :=
  match names with
  | [] => Some []
  | JStr s :: rest => option_map (cons s) (as_strings rest)
  | _ :: _ => None
  end.

Section WithEnv.

Context (env : Env) {order : SetOrder}.

(** [method] is "GET" or "POST"; [JNull] stands for an omitted [payload]
    or [params].  A failure of the transport, and the [ValueError] of an
    unsupported method, are caught and end the process. *)
Definition http_json (method url : string) (payload params : json)
  : M json :=
  r <- (if String.eqb method "GET"
        then session_request env (GET url params)
        else if String.eqb method "POST"
        then session_request env (POST url payload)
        else ret (ConnectionError ("Unsupported method: " ++ method))) ;;
  match r with
  | ConnectionError e =>
      exit_with_error
        ("HTTP request failed (" ++ method ++ " " ++ url ++ "): " ++ e)
        JNull 1
  | HttpResponse status_code text body =>
      if negb ((200 <=? status_code) && (status_code <? 300))
      then
        let err :=
          match body with
          | Some j => j
          | None => JObj [("status_code", JInt status_code);
                          ("body", JStr text)]
          end in
        exit_with_error
          ("Request failed: " ++ method ++ " " ++ url ++ " (HTTP "
             ++ str_of_Z status_code ++ ")") err 1
      else
        match body with
        | Some j => ret j
        | None =>
            exit_with_error
              ("Expected JSON response but got non-JSON from "
                 ++ method ++ " " ++ url)
              (JObj [("body", JStr text)]) 1
        end
  end.

Definition import_rag_files (location corpus_name : string)
  (gcs_uris : list string) : M string :=
  let url := base_url location ++ "/" ++ corpus_name ++ "/ragFiles:import" in
  let body :=
    JObj [("importRagFilesConfig",
           JObj [("gcsSource", JObj [("uris", JArr (map JStr gcs_uris))])])] in
  op <- http_json "POST" url body JNull ;;
  op_name <- eval (get op "name") ;;
  if negb (truthy op_name)
  then exit_with_error
         "Import returned success but missing Operation 'name'." op 1
  else match op_name with
       | JStr s => ret s
       | _ => unmodelled
       end.

Definition get_operation (location op_name : string) : M json :=
  http_json "GET" (base_url location ++ "/" ++ op_name) JNull JNull.

(** The [while True] loop of [list_rag_files]. *)
Fixpoint list_rag_files_loop (fuel : nat) (url : string)
  (all_files : list json) (page_token : json) : M (list json) :=
  match fuel with
  | O => out_of_fuel
  | S fuel' =>
      let params :=
        if truthy page_token then JObj [("pageToken", page_token)]
        else JNull in
      resp <- http_json "GET" url JNull params ;;
      files <- eval (get_default resp "ragFiles" (JArr [])) ;;
      items <- eval (py_iter files) ;;
      let all_files := (all_files ++ items)%list in
      page_token <- eval (get resp "nextPageToken") ;;
      if negb (truthy page_token) then ret all_files
      else list_rag_files_loop fuel' url all_files page_token
  end.

Definition list_rag_files (fuel : nat) (location corpus_name : string)
  : M (list json) :=
  list_rag_files_loop fuel
    (base_url location ++ "/" ++ corpus_name ++ "/ragFiles") [] JNull.

Definition get_rag_file (location rag_file_name : string) : M json :=
  http_json "GET" (base_url location ++ "/" ++ rag_file_name) JNull JNull.

(** *** [main] *)

(** The loop [while time.time() < deadline] that polls the operation.
    It returns when the loop is left by [break]. *)
Fixpoint main_poll_loop (fuel : nat) (args : Args) (op_name : string)
  (deadline : Z) : M unit :=
  match fuel with
  | O => out_of_fuel
  | S fuel' =>
      t <- time_time ;;
      if t <? deadline then
        op <- get_operation (location args) op_name ;;
        d <- eval (get_default op "done" (JBool false)) ;;
        if negb (truthy d) then
          print "Not Complete" ;;
          time_sleep (poll_seconds args) ;;
          main_poll_loop fuel' args op_name deadline
        else
          print "Complete" ;;
          e <- eval (get op "error") ;;
          if truthy e then
            print "Result: FAILED (operation error)" ;;
            print_json e ;;
            sys_exit 1
          else
            r <- eval (get op "response") ;;
            let resp := por r (JObj []) in
            c <- eval (get_default resp "failedRagFilesCount" (JStr "0")) ;;
            failed_count <- eval (py_int c) ;;
            partial_failures <- eval (extract_partial_failures op) ;;
            if (failed_count >? 0) || truthy partial_failures then
              print "Result: FAILED (import reported failures)" ;;
              print "Operation response:" ;;
              print_json resp ;;
              (if truthy partial_failures then
                 print "Partial failures:" ;;
                 print_json partial_failures
               else ret tt) ;;
              sys_exit 1
            else
              print "Result: SUCCESS (import operation completed with no reported failures)."
      else
        print "Complete" ;;
        print ("Result: FAILED (timed out after "
                 ++ str_of_Z (timeout_minutes args)
                 ++ " minutes waiting for import operation).") ;;
        sys_exit 1
  end.

(** The loop [while time.time() < rf_deadline] that waits for the
    listing to be non-empty; its result is the value of [names] after
    the loop. *)
Fixpoint main_discovery_loop (fuel : nat) (args : Args) (rf_deadline : Z)
  : M (list json) :=
  match fuel with
  | O => out_of_fuel
  | S fuel' =>
      t <- time_time ;;
      if t <? rf_deadline then
        rag_files <- list_rag_files fuel (location args) (corpus args) ;;
        names <- eval (names_of rag_files) ;;
        match names with
        | _ :: _ => ret names
        | [] =>
            print "Not Complete" ;;
            time_sleep (poll_seconds args) ;;
            main_discovery_loop fuel' args rf_deadline
        end
      else ret []
  end.

(** One sweep, [for name in list(pending)]: [todo] is what is left of
    the copy, [pending] the set that the loop body updates. *)
Fixpoint main_sweep (args : Args) (todo pending : list string)
  : M (list string) :=
  match todo with
  | [] => ret pending
  | name :: todo' =>
      rf <- get_rag_file (location args) name ;;
      se <- eval (rag_file_state rf) ;;
      let '(state, err) := se in
      if is_str state "ACTIVE" then
        pending' <- eval (set_remove name pending) ;;
        main_sweep args todo' pending'
      else if is_str state "ERROR" then
        print "Complete" ;;
        print "Result: FAILED (a RagFile entered ERROR state)." ;;
        print ("RagFile: " ++ name) ;;
        print "errorStatus:" ;;
        print_value (por err (JStr "(no errorStatus provided)")) ;;
        print "Full RagFile:" ;;
        print_json rf ;;
        sys_exit 1
      else main_sweep args todo' pending
  end.

(** The loop [while pending and time.time() < rf_deadline]; its result
    is the value of [pending] after the loop. *)
Fixpoint main_activation_loop (fuel : nat) (args : Args) (rf_deadline : Z)
  (pending : list string) : M (list string) :=
  match fuel with
  | O => out_of_fuel
  | S fuel' =>
      match pending with
      | [] => ret pending
      | _ :: _ =>
          t <- time_time ;;
          if t <? rf_deadline then
            pending' <- main_sweep args pending pending ;;
            (match pending' with
             | _ :: _ =>
                 print "Not Complete" ;;
                 time_sleep (poll_seconds args)
             | [] => ret tt
             end) ;;
            main_activation_loop fuel' args rf_deadline pending'
          else ret pending
      end
  end.

Fixpoint print_names (names : list string) : M unit :=
  match names with
  | [] => ret tt
  | n :: rest => print ("- " ++ n) ;; print_names rest
  end.

(** What follows the polling of the operation: discovery, then
    activation. *)
Definition main_wait_rag_files (fuel : nat) (args : Args) : M unit :=
  print "Waiting for RagFiles to appear..." ;;
  t <- time_time ;;
  let rf_deadline := t + timeout_minutes args * 60 in
  names <- main_discovery_loop fuel args rf_deadline ;;
  match names with
  | [] =>
      exit_with_error
        ("Complete" ++ nl
           ++ "Result: FAILED (no RagFiles found in corpus after import).")
        (JObj [("corpus", JStr (corpus args))]) 1
  | _ :: _ =>
      print ("Found " ++ str_of_Z (Z.of_nat (List.length names))
               ++ " RagFile(s). Waiting for ACTIVE.") ;;
      match as_strings names with
      | None => unmodelled
      | Some names =>
          pending <- main_activation_loop fuel args rf_deadline
                       (set_iter names) ;;
          match pending with
          | _ :: _ =>
              print "Complete" ;;
              print ("Result: FAILED (timed out waiting for RagFiles to become ACTIVE). Pending: "
                       ++ str_of_Z (Z.of_nat (List.length pending))) ;;
              print_names (sorted pending) ;;
              sys_exit 1
          | [] =>
              print "Complete" ;;
              print "Final Result: SUCCESS (all RagFiles are ACTIVE and indexed)."
          end
      end
  end.

(** [main()], the session taken as made.  Each [while] loop may run
    [fuel] times. *)
Definition main (fuel : nat) (args : Args) : M unit :=
  op_name <- import_rag_files (location args) (corpus args) (gcs_uri args) ;;
  print ("Import started. Operation: " ++ op_name) ;;
  t <- time_time ;;
  let deadline := t + timeout_minutes args * 60 in
  main_poll_loop fuel args op_name deadline ;;
  main_wait_rag_files fuel args.

End WithEnv.

End ImportAndWait.

(* ===================================================================== *)
(** ** scripts/import_with_sink.py *)
(* ===================================================================== *)

Module ImportWithSink.

Record Args : Type := mkArgs {
  project : string;
  location : string;
  corpus : string;
  gcs_uri : string;
  sink_prefix : option string;
  poll_seconds : Z;
  timeout_minutes : Z
}.

Section WithEnv.

Context (env : Env).

(** The best-effort printing of the sink after the operation is done,
    up to the final [return]: [Some 1] is the early [return 1]. *)
Definition main_sink_report (sink : string) : M (option Z) :=
  print (nl ++ "--- Import result sink listing ---") ;;
  ls <- run env ["gsutil"; "ls"; sink ++ "**"] ;;
  if negb (returncode ls =? 0) then
    print (if negb (String.eqb (strip (stderr ls)) EmptyString)
           then strip (stderr ls) else strip (stdout ls)) ;;
    ret (Some 1)
  else
    print (strip (stdout ls)) ;;
    print (nl ++ "--- First 200 lines of sink output ---") ;;
    cat <- run env ["bash"; "-lc";
                    "gsutil cat '" ++ sink ++ "'* 2>/dev/null | head -200"] ;;
    let out := strip (stdout cat) in
    (if negb (String.eqb out EmptyString) then print out
     else print "(No readable sink output yet)") ;;
    ret None.

(** The [if obj.get("error"): ... else: ...] block that prints the
    result of the operation once it is done. *)
Definition main_result (obj : json) : M unit :=
  e <- eval (get obj "error") ;;
  if truthy e then
    print "Result: FAILED (operation error)" ;;
    print_json e
  else
    r <- eval (get obj "response") ;;
    let response := por r (JObj []) in
    m <- eval (get obj "metadata") ;;
    let md := por m (JObj []) in
    g <- eval (get md "genericMetadata") ;;
    p <- eval (get (por g (JObj [])) "partialFailures") ;;
    let pf := por p (JArr []) in
    c <- eval (get response "failedRagFilesCount") ;;
    failed_count <- eval (py_int (por c (JStr "0"))) ;;
    if (failed_count >? 0) || truthy pf then
      print "Result: FAILED (import reported failures)" ;;
      print "Operation response:" ;;
      print_json response ;;
      (if truthy pf then
         print "Partial failures:" ;;
         print_json pf
       else ret tt)
    else
      print "Result: SUCCESS (import operation completed with no reported failures)" ;;
      print_json response.

(** The value of the final [return] statement. *)
Definition main_final_code (obj : json) : PyExn + Z :=
  let? e := get obj "error" in
  match e with
  | JNull =>
      let? r := get obj "response" in
      let? c := get_default (por r (JObj [])) "failedRagFilesCount" (JStr "0") in
      let? n := py_int c in
      inr (if n =? 0 then 0 else 1)
  | _ => inr 1
  end.

(** The loop [while time.time() < deadline]; its result is the value
    that [main] returns. *)
Fixpoint main_poll_loop (fuel : nat) (args : Args) (sink op_url : string)
  (deadline : Z) : M Z :=
  match fuel with
  | O => out_of_fuel
  | S fuel' =>
      t <- time_time ;;
      if t <? deadline then
        r <- session_request env (GET op_url JNull) ;;
        match r with
        | ConnectionError e => raise (RequestException e)
        | HttpResponse status_code text body =>
            if status_code >=? 400 then
              print "Complete" ;;
              print "Result: FAILED (operation GET HTTP error)" ;;
              print text ;;
              ret 1
            else
              obj <- (match body with
                      | Some j => ret j
                      | None => raise ValueError
                      end) ;;
              d <- eval (get_default obj "done" (JBool false)) ;;
              if negb (truthy d) then
                print "Not Complete" ;;
                time_sleep (poll_seconds args) ;;
                main_poll_loop fuel' args sink op_url deadline
              else
                print "Complete" ;;
                main_result obj ;;
                early <- main_sink_report sink ;;
                match early with
                | Some code => ret code
                | None => eval (main_final_code obj)
                end
        end
      else
        print "Complete" ;;
        print ("Result: FAILED (timed out after "
                 ++ str_of_Z (timeout_minutes args) ++ " minutes)") ;;
        ret 1
  end.

(** [main()], the session taken as made; the process ends with
    [SystemExit(main())]. *)
Definition main (fuel : nat) (args : Args) : M Z :=
  if negb (startswith (gcs_uri args) "gs://") then
    eprint "gcs-uri must start with gs://" ;; ret 2
  else
    let bucket := before_slash (slice_from 5 (gcs_uri args)) in
    choice <-
      (match sink_prefix args with
       | Some (String c p' as sink) =>
           if negb (startswith sink "gs://") then
             eprint "sink-prefix must start with gs://" ;; ret (inl 2)
           else if negb (endswith sink "/") then ret (inr (sink ++ "/"))
           else ret (inr sink)
       | Some EmptyString | None =>
           ts <- time_time ;;
           ret (inr ("gs://" ++ bucket ++ "/import_results/vertex_"
                       ++ str_of_Z ts ++ "/"))
       end) ;;
    match choice with
    | inl code => ret code
    | inr sink =>
        let base := "https://" ++ location args
                      ++ "-aiplatform.googleapis.com/v1beta1" in
        let import_url := base ++ "/" ++ corpus args ++ "/ragFiles:import" in
        let payload :=
          JObj [("importRagFilesConfig",
                 JObj [("gcsSource", JObj [("uris", JArr [JStr (gcs_uri args)])]);
                       ("importResultGcsSink",
                        JObj [("outputUriPrefix", JStr sink)])])] in
        r <- session_request env (POST import_url payload) ;;
        match r with
        | ConnectionError e => raise (RequestException e)
        | HttpResponse status_code text body =>
            if status_code >=? 400 then
              print "Complete" ;;
              print "Result: FAILED (import start HTTP error)" ;;
              print text ;;
              ret 1
            else
              op <- (match body with
                     | Some j => ret j
                     | None => raise ValueError
                     end) ;;
              op_name <- eval (get op "name") ;;
              if negb (truthy op_name) then
                print "Complete" ;;
                print "Result: FAILED (no operation name returned)" ;;
                print_json op ;;
                ret 1
              else
                match op_name with
                | JStr op_name =>
                    print ("SINK=" ++ sink) ;;
                    print ("OP=" ++ op_name) ;;
                    t <- time_time ;;
                    let deadline := t + timeout_minutes args * 60 in
                    let op_url := base ++ "/" ++ op_name in
                    main_poll_loop fuel args sink op_url deadline
                | _ => unmodelled
                end
        end
    end.

End WithEnv.

End ImportWithSink.

(* ===================================================================== *)
(** ** scripts/import_with_sink_chunked.py *)
(* ===================================================================== *)

Module ImportWithSinkChunked.

Record Args : Type := mkArgs {
  project : string;
  location : string;
  corpus : string;
  gcs_uri : string;
  chunk_size : Z;
  chunk_overlap : Z;
  poll_seconds : Z;
  timeout_minutes : Z
}.

Section WithEnv.

Context (env : Env).

(** The printing of the sink after the operation is done. *)
Definition main_sink_report (sink : string) : M unit :=
  print (nl ++ "--- Import result sink listing ---") ;;
  ls <- run env ["gsutil"; "ls"; sink ++ "**"] ;;
  print (strip (if negb (String.eqb (stdout ls) EmptyString)
                then stdout ls else stderr ls)) ;;
  print (nl ++ "--- First 200 lines of sink output ---") ;;
  cat <- run env ["bash"; "-lc";
                  "gsutil cat '" ++ sink ++ "'* 2>/dev/null | head -200"] ;;
  let out := strip (stdout cat) in
  print (if negb (String.eqb out EmptyString) then out else "(No sink output)").

(** The [if op.get("error"): ... else: ...] block that prints the
    result of the operation once it is done. *)
Definition main_result (op : json) : M unit :=
  e <- eval (get op "error") ;;
  if truthy e then
    print "Result: FAILED (operation error)" ;;
    print_json e
  else
    r <- eval (get op "response") ;;
    let resp := por r (JObj []) in
    m <- eval (get op "metadata") ;;
    let md := por m (JObj []) in
    g <- eval (get md "genericMetadata") ;;
    p <- eval (get (por g (JObj [])) "partialFailures") ;;
    let pf := por p (JArr []) in
    c <- eval (get_default resp "failedRagFilesCount" (JStr "0")) ;;
    failed <- eval (py_int c) ;;
    if (failed >? 0) || truthy pf then
      print "Result: FAILED (import reported failures)" ;;
      print "Operation response:" ;;
      print_json resp ;;
      (if truthy pf then
         print "Partial failures:" ;;
         print_json pf
       else ret tt)
    else
      print "Result: SUCCESS (import completed)" ;;
      print_json resp.

(** The value of the final [return] statement. *)
Definition main_final_code (op : json) : PyExn + Z :=
  let? e := get op "error" in
  match e with
  | JNull =>
      let? r := get op "response" in
      let? c := get_default (por r (JObj [])) "failedRagFilesCount" (JStr "0") in
      let? n := py_int c in
      inr (if n =? 0 then 0 else 1)
  | _ => inr 1
  end.

(** The loop [while time.time() < deadline]; its result is the value
    that [main] returns. *)
Fixpoint main_poll_loop (fuel : nat) (args : Args) (sink op_url : string)
  (deadline : Z) : M Z :=
  match fuel with
  | O => out_of_fuel
  | S fuel' =>
      t <- time_time ;;
      if t <? deadline then
        r <- session_request env (GET op_url JNull) ;;
        op <- (match r with
               | ConnectionError e => raise (RequestException e)
               | HttpResponse _ _ (Some j) => ret j
               | HttpResponse _ _ None => raise ValueError
               end) ;;
        d <- eval (get_default op "done" (JBool false)) ;;
        if negb (truthy d) then
          print "Not Complete" ;;
          time_sleep (poll_seconds args) ;;
          main_poll_loop fuel' args sink op_url deadline
        else
          print "Complete" ;;
          main_result op ;;
          main_sink_report sink ;;
          eval (main_final_code op)
      else
        print "Complete" ;;
        print "Result: FAILED (timed out)" ;;
        ret 1
  end.

(** [main()], the session taken as made; the process ends with
    [SystemExit(main())]. *)
Definition main (fuel : nat) (args : Args) : M Z :=
  if negb (startswith (gcs_uri args) "gs://") then
    eprint "gcs-uri must start with gs://" ;; ret 2
  else
    let bucket := before_slash (slice_from 5 (gcs_uri args)) in
    ts <- time_time ;;
    let sink := "gs://" ++ bucket ++ "/import_results/chunked_"
                  ++ str_of_Z ts ++ "/" in
    let base := "https://" ++ location args
                  ++ "-aiplatform.googleapis.com/v1beta1" in
    let import_url := base ++ "/" ++ corpus args ++ "/ragFiles:import" in
    let payload :=
      JObj [("importRagFilesConfig",
             JObj [("gcsSource", JObj [("uris", JArr [JStr (gcs_uri args)])]);
                   ("ragFileTransformationConfig",
                    JObj [("ragFileChunkingConfig",
                           JObj [("fixedLengthChunking",
                                  JObj [("chunkSize", JInt (chunk_size args));
                                        ("chunkOverlap",
                                         JInt (chunk_overlap args))])])]);
                   ("importResultGcsSink",
                    JObj [("outputUriPrefix", JStr sink)])])] in
    r <- session_request env (POST import_url payload) ;;
    match r with
    | ConnectionError e => raise (RequestException e)
    | HttpResponse status_code text body =>
        if status_code >=? 400 then
          print "Complete" ;;
          print "Result: FAILED (import start HTTP error)" ;;
          print text ;;
          ret 1
        else
          op <- (match body with
                 | Some j => ret j
                 | None => raise ValueError
                 end) ;;
          op_name <- eval (get op "name") ;;
          if negb (truthy op_name) then
            print "Complete" ;;
            print "Result: FAILED (no operation name)" ;;
            print_json op ;;
            ret 1
          else
            match op_name with
            | JStr op_name =>
                print ("SINK=" ++ sink) ;;
                print ("OP=" ++ op_name) ;;
                let op_url := base ++ "/" ++ op_name in
                t <- time_time ;;
                let deadline := t + timeout_minutes args * 60 in
                main_poll_loop fuel args sink op_url deadline
            | _ => unmodelled
            end
    end.

End WithEnv.

End ImportWithSinkChunked.

(* ===================================================================== *)
(** ** demo_app/main.py *)
(* ===================================================================== *)

Module DemoApp.

(** The module-level configuration, read from the process environment. *)
Record Config : Type := mkConfig {
  PROJECT_ID : string;
  RAG_LOCATION : string;
  RAG_CORPUS : string;
  GEMINI_MODEL : string;
  TOP_K : Z
}.

(** [JSONResponse(content, status_code)]. *)
Record JSONResponse : Type := mkJSONResponse {
  content : json;
  status_code : Z
}.

Definition system : string :=
  let ind := "        " in
  nl
  ++ ind ++ "You are a helpdesk intelligence assistant. Write a clear, human-readable report." ++ nl
  ++ nl
  ++ ind ++ "Rules:" ++ nl
  ++ ind ++ "- Use the provided CONTEXT as evidence and cite with [1], [2], etc." ++ nl
  ++ ind ++ "- If something is not supported by context, label it as "
         ++ dq ++ "Hypothesis" ++ dq ++ " or " ++ dq ++ "General guidance" ++ dq ++ "." ++ nl
  ++ ind ++ "- Prefer specific phrases/errors/URLs found in the context." ++ nl
  ++ nl
  ++ ind ++ "Output format (use these headings):" ++ nl
  ++ ind ++ "1) Executive summary (2-3 bullets)" ++ nl
  ++ ind ++ "2) What environments are mentioned (UAT / Prod / other)" ++ nl
  ++ ind ++ "3) Common error patterns (grouped by environment)" ++ nl
  ++ ind ++ "4) Suggested triage questions (max 6)" ++ nl
  ++ ind ++ "5) Suggested next actions (max 6)" ++ nl
  ++ ind ++ "6) Evidence (list the citations with 1-line description)" ++ nl
  ++ ind.

Section WithEnv.

(** [py_str] is [str(x)] for a value that is not a string, [exn_text]
    is [str(e)] for an exception raised by the interpreter itself. *)
Context (env : Env) (cfg : Config)
        (py_str : json -> string) (exn_text : PyExn -> string).

(** A value inside an f-string. *)
Definition fmt (x : json) : string :=
  match x with
  | JStr s => s
  | _ => py_str x
  end.

(** [str(e)]. *)
Definition str_of_exn (e : PyExn) : string :=
  match e with
  | RuntimeError msg => msg
  | RequestException msg => msg
  | _ => exn_text e
  end.

Definition retrieve_contexts (question : string) (top_k : Z) : M json :=
  let parent := "projects/" ++ PROJECT_ID cfg ++ "/locations/"
                  ++ RAG_LOCATION cfg in
  let url := "https://" ++ RAG_LOCATION cfg
               ++ "-aiplatform.googleapis.com/v1beta1/" ++ parent
               ++ ":retrieveContexts" in
  let payload :=
    JObj [("query", JObj [("text", JStr question);
                          ("similarityTopK", JInt top_k)]);
          ("vertexRagStore",
           JObj [("ragResources",
                  JArr [JObj [("ragCorpus", JStr (RAG_CORPUS cfg))]])])] in
  r <- session_request env (POST url payload) ;;
  match r with
  | ConnectionError e => raise (RequestException e)
  | HttpResponse status text body =>
      if status >=? 400 then
        raise (RuntimeError ("retrieveContexts failed " ++ str_of_Z status
                               ++ ": " ++ text))
      else
        data <- (match body with
                 | Some j => ret j
                 | None => raise ValueError
                 end) ;;
        c <- eval (get data "contexts") ;;
        cs <- eval (get (por c (JObj [])) "contexts") ;;
        ret (por cs (JArr []))
  end.

(** The loop [for i, c in enumerate(contexts, 1)] that builds
    [ctx_lines] (the list [sources] that it also fills is never read). *)
Fixpoint ctx_lines_of (i : Z) (contexts : list json) : PyExn + list string :=
  match contexts with
  | [] => inr []
  | c :: rest =>
      let? a := get c "sourceUri" in
      let? src := (if truthy a then inr a
                   else let? b := get c "sourceDisplayName" in
                        inr (por b (JStr "unknown"))) in
      let? t := get c "text" in
      let? txt := py_strip (por t (JStr EmptyString)) in
      if String.eqb txt EmptyString then ctx_lines_of (i + 1) rest
      else
        let? lines := ctx_lines_of (i + 1) rest in
        inr (("[" ++ str_of_Z i ++ "] Source: " ++ fmt src ++ nl ++ txt)
               :: lines)
  end.

(** The texts of [parts] (the empty string for a part without text),
    joined. *)
Fixpoint join_parts (parts : list json) : PyExn + string :=
  match parts with
  | [] => inr EmptyString
  | p :: rest =>
      let? t := get_default p "text" (JStr EmptyString) in
      match t with
      | JStr s => let? tl := join_parts rest in inr (s ++ tl)
      | _ => inl TypeError
      end
  end.

(** The body of the [try] block of [generate_answer], up to [.strip()]. *)
Definition candidate_text (data : json) : PyExn + string :=
  let? cs := get data "candidates" in
  let? cand := py_first (por cs (JArr [JObj []])) in
  let? ct := get cand "content" in
  let? ps := get (por ct (JObj [])) "parts" in
  let? parts := py_iter (por ps (JArr [])) in
  let? joined := join_parts parts in
  inr (strip joined).

Definition generate_answer (question : string) (contexts : json)
  : M string :=
  cl <- eval (let? cs := py_iter contexts in ctx_lines_of 1 cs) ;;
  let context_block :=
    match cl with
    | [] => "(No relevant context found.)"
    | _ => String.concat (nl ++ nl) cl
    end in
  let prompt := "QUESTION:" ++ nl ++ question ++ nl ++ nl
                  ++ "CONTEXT:" ++ nl ++ context_block in
  let url := "https://aiplatform.googleapis.com/v1/" ++ GEMINI_MODEL cfg
               ++ ":generateContent" in
  let payload :=
    JObj [("systemInstruction",
           JObj [("role", JStr "system");
                 ("parts", JArr [JObj [("text", JStr system)]])]);
          ("contents",
           JArr [JObj [("role", JStr "user");
                       ("parts", JArr [JObj [("text", JStr prompt)]])]]);
          ("generationConfig",
           JObj [("temperature", JFloat 3 10);
                 ("maxOutputTokens", JInt 4000)])] in
  r <- session_request env (POST url payload) ;;
  match r with
  | ConnectionError e => raise (RequestException e)
  | HttpResponse status text body =>
      if status >=? 400 then
        raise (RuntimeError ("generateContent failed " ++ str_of_Z status
                               ++ ": " ++ text))
      else
        data <- (match body with
                 | Some j => ret j
                 | None => raise ValueError
                 end) ;;
        match candidate_text data with
        | inr (String _ _ as answer) => ret answer
        | inr EmptyString | inl _ => ret (py_str data)
        end
  end.

(** The list comprehension of [ask] over the retrieved contexts. *)
Fixpoint shown_contexts (contexts : list json) : PyExn + list json :=
  match contexts with
  | [] => inr []
  | c :: rest =>
      let? u := get c "sourceUri" in
      let? sc := get c "score" in
      let? t := get c "text" in
      let? text := py_slice_to 800 (por t (JStr EmptyString)) in
      let? tl := shown_contexts rest in
      inr (JObj [("sourceUri", u); ("score", sc); ("text", text)] :: tl)
  end.

(** The [try] block of [ask]. *)
Definition ask_try (question : string) : M JSONResponse :=
  contexts <- retrieve_contexts question (TOP_K cfg) ;;
  answer <- generate_answer question contexts ;;
  shown <- eval (let? cs := py_iter contexts in shown_contexts cs) ;;
  ret (mkJSONResponse
         (JObj [("answer", JStr answer); ("contexts", JArr shown)]) 200).

(** [ask(req)]: every exception becomes a response with status 500. *)
Definition ask (question : string) : M JSONResponse :=
  fun w =>
    match ask_try question w with
    | Raised e w' =>
        Ok (mkJSONResponse (JObj [("error", JStr (str_of_exn e))]) 500) w'
    | r => r
    end.

End WithEnv.

End DemoApp.

(* ===================================================================== *)
(** ** Scripted environments *)
(* ===================================================================== *)

Module Script.

Fixpoint runs (t : list Event) : list (list string) :=
  match t with
  | [] => []
  | EvRun c :: t' => c :: runs t'
  | _ :: t' => runs t'
  end.

(** The service that answers the [k]-th call of the process with the
    [k]-th reply of [replies], whatever is asked, every call taking
    [rtt] seconds, next to subprocesses that end as [procs] says. *)
Definition env (replies : list Reply) (rtt : N)
  (procs : list (option Completed)) : Env :=
  mkEnv
    (fun w _ => nth (List.length (requests (trace w))) replies
                    (ConnectionError "connection refused"))
    (fun _ _ => rtt)
    (fun w _ => nth (List.length (runs (trace w))) procs None).

(** Two orders in which a set of names may iterate: the order in which
    the names came (duplicates dropped), and that order reversed. *)
Definition listing_order : ImportAndWait.SetOrder :=
  ImportAndWait.mkSetOrder
    (fun l => nodup string_dec l)
    (fun l => NoDup_nodup string_dec l)
    (fun l x => nodup_In string_dec l x).

Definition reversed_order : ImportAndWait.SetOrder :=
  ImportAndWait.mkSetOrder
    (fun l => rev (nodup string_dec l))
    (fun l => NoDup_rev (NoDup_nodup string_dec l))
    (fun l x => iff_trans (iff_sym (in_rev (nodup string_dec l) x))
                          (nodup_In string_dec l x)).

(** A response with status 200 and a JSON payload. *)
Definition ok (body : json) : Reply := HttpResponse 200 EmptyString (Some body).

(** The process starts at time 0 with nothing done. *)
Definition boot : World := mkWorld 0 [].

End Script.

(* ===================================================================== *)
(** * The vocabulary of the properties *)
(* ===================================================================== *)

Section Vocabulary.

Import ImportAndWait.
Context (env : Env).

(** What [ask] shows of one retrieved context [c]: its [sourceUri], its
    [score], and the first 800 characters of its text (of the empty
    string when the text is missing or empty). *)
Definition shown_of (c s : json) : Prop :=
  exists u sc t0 t,
    get c "sourceUri" = inr u /\
    get c "score" = inr sc /\
    get c "text" = inr t0 /\
    por t0 (JStr EmptyString) = JStr t /\
    s = JObj [("sourceUri", u); ("score", sc);
              ("text", JStr (slice_to 800 t))].

(** The three fields of a shown context, the text within 800 characters. *)
Definition small_context (s : json) : Prop :=
  exists u sc t,
    s = JObj [("sourceUri", u); ("score", sc); ("text", JStr t)] /\
    (String.length t <= 800)%nat.

(** The string of [n] characters [c]. *)
Fixpoint replicate (n : nat) (c : ascii) : string :=
  match n with
  | O => EmptyString
  | S n' => String c (replicate n' c)
  end.

(** The world after the call [r] made in [w]. *)
Definition sent (w : World) (r : Request) : World :=
  mkWorld (clock w + Z.of_N (took env w r)) (trace w ++ [EvHttp r]).

(** The world [w] with the events [evs] appended. *)
Definition printed (w : World) (evs : list Event) : World :=
  mkWorld (clock w) (trace w ++ evs).

(** The world after [time.sleep(s)]. *)
Definition slept (w : World) (s : Z) : World :=
  mkWorld (clock w + s) (trace w ++ [EvSleep s]).

(** The service answers the next calls made from [w0] onwards with
    [replies], one after the other. *)
Definition answers_in_order (w0 : World) (replies : list Reply) : Prop :=
  forall k reply w r,
    nth_error replies k = Some reply ->
    List.length (requests (trace w))
      = (List.length (requests (trace w0)) + k)%nat ->
    serve env w r = reply.

(** A response with a success status and the JSON payload [j]. *)
Definition success (r : Reply) (j : json) : Prop :=
  exists st text, r = HttpResponse st text (Some j) /\ 200 <= st < 300.

(** What [http_json] makes of a reply, [w1] being the world after the
    call. *)
Definition http_outcome (method url : string) (w1 : World) (r : Reply)
  : Res json :=
  match r with
  | ConnectionError e =>
      SysExit 1
        (printed w1
           [EvErr ("HTTP request failed (" ++ method ++ " " ++ url ++ "): "
                     ++ e)])
  | HttpResponse st text body =>
      if (200 <=? st) && (st <? 300) then
        match body with
        | Some j => Ok j w1
        | None =>
            SysExit 1
              (printed w1
                 [EvErr ("Expected JSON response but got non-JSON from "
                           ++ method ++ " " ++ url);
                  EvErrJson (JObj [("body", JStr text)])])
        end
      else
        SysExit 1
          (printed w1
             (EvErr ("Request failed: " ++ method ++ " " ++ url ++ " (HTTP "
                       ++ str_of_Z st ++ ")")
              :: match body with
                 | Some JNull => []
                 | Some j => [EvErrJson j]
                 | None => [EvErrJson (JObj [("status_code", JInt st);
                                             ("body", JStr text)])]
                 end))
  end.

(** The continuation token and the records that a page carries. *)
Definition page_token (m : list (string * json)) : json :=
  match lookup "nextPageToken" m with Some v => v | None => JNull end.

Definition page_files (m : list (string * json)) : json :=
  match lookup "ragFiles" m with Some v => v | None => JArr [] end.

(** A sequence of pages as the service sends it: every page but the last
    carries a token, the last one carries none. *)
Fixpoint chained (pages : list (list (string * json))) : Prop :=
  match pages with
  | [] => False
  | m :: rest =>
      match rest with
      | [] => truthy (page_token m) = false
      | _ :: _ => truthy (page_token m) = true /\ chained rest
      end
  end.

(** One request per page: the one for the first page carries [tok] (no
    token at the start), the one for each later page the token of the
    page before it. *)
Fixpoint page_requests (url : string) (tok : json)
  (pages : list (list (string * json))) : list Request :=
  match pages with
  | [] => []
  | m :: rest =>
      GET url (if truthy tok then JObj [("pageToken", tok)] else JNull)
        :: page_requests url (page_token m) rest
  end.

Definition list_url (location corpus_name : string) : string :=
  base_url location ++ "/" ++ corpus_name ++ "/ragFiles".

(** The request that fetches the resource [name]. *)
Definition fetch (location name : string) : Request :=
  GET (base_url location ++ "/" ++ name) JNull.

Definition fetches (location : string) (names : list string) : list Event :=
  map (fun n => EvHttp (fetch location n)) names.

(** What the sweep writes when the record [rf] of [name] has come back
    in state ERROR with the detail [err]. *)
Definition error_report (name : string) (rf err : json) : list Event :=
  [EvOut "Complete";
   EvOut "Result: FAILED (a RagFile entered ERROR state).";
   EvOut ("RagFile: " ++ name);
   EvOut "errorStatus:";
   EvOutValue (por err (JStr "(no errorStatus provided)"));
   EvOut "Full RagFile:";
   EvOutJson rf].

(** Events that are neither calls nor sleeps nor subprocesses: what is
    written to the standard streams. *)
Definition silent (evs : list Event) : Prop :=
  Forall (fun e => match e with
                   | EvHttp _ | EvSleep _ | EvRun _ => False
                   | _ => True
                   end) evs.

(** The record [rf] comes back with a success status and is not in state
    ERROR. *)
Definition not_in_error (r : Reply) : Prop :=
  exists rf state err,
    success r rf /\ rag_file_state rf = inr (state, err) /\
    is_str state "ERROR" = false.

(** The snapshot of the operation as the design document has it: the
    [done] flag, the optional [error], the [response] payload with its
    failed-item count, and the list of partial failures. *)
Record OperationStatus : Type := mkOperationStatus {
  done : bool;
  error : option json;
  response : json;
  failed_count : Z;
  partial_failures : list json
}.

Definition field (k : string) (m : list (string * json)) : json :=
  match lookup k m with Some v => v | None => JNull end.

(** An [error] is absent ([null] or no key) or a non-empty payload. *)
Definition decode_error (e : json) : option (option json) :=
  match e with
  | JNull => Some None
  | _ => if truthy e then Some (Some e) else None
  end.

(** A [response] is absent or an object; its [failedRagFilesCount], when
    there is one, reads as a count, zero or more. *)
Definition decode_response (r : json) : option (json * Z) :=
  match r with
  | JNull => Some (JObj [], 0)
  | JObj rm =>
      match lookup "failedRagFilesCount" rm with
      | None => Some (JObj rm, 0)
      | Some c =>
          match py_int c with
          | inr n => if 0 <=? n then Some (JObj rm, n) else None
          | inl _ => None
          end
      end
  | _ => None
  end.

(** The partial failures sit in [metadata.genericMetadata.partialFailures];
    each level is absent or an object, the innermost absent or a list. *)
Definition decode_partial (md : json) : option (list json) :=
  match md with
  | JNull => Some []
  | JObj mm =>
      match field "genericMetadata" mm with
      | JNull => Some []
      | JObj g =>
          match field "partialFailures" g with
          | JNull => Some []
          | JArr l => Some l
          | _ => None
          end
      | _ => None
      end
  | _ => None
  end.

(** The snapshot that a payload of the operation endpoint stands for. *)
Definition decode (op : json) : option OperationStatus :=
  match op with
  | JObj m =>
      match decode_error (field "error" m),
            decode_response (field "response" m),
            decode_partial (field "metadata" m) with
      | Some e, Some (resp, n), Some pf =>
          Some (mkOperationStatus
                  (match lookup "done" m with
                   | Some d => truthy d
                   | None => false
                   end) e resp n pf)
      | _, _, _ => None
      end
  | _ => None
  end.

(** What the poller makes of a snapshot, in the words of the design
    document: it keeps polling while [done] is false; a [done] snapshot
    completes the poller when there is no error, no failed item and no
    partial failure, and fails it otherwise. *)
Inductive Verdict : Type := POLLING | COMPLETED | FAILED.

Definition verdict (s : OperationStatus) : Verdict :=
  if negb (done s) then POLLING
  else
    match error s, partial_failures s with
    | None, [] => if failed_count s =? 0 then COMPLETED else FAILED
    | _, _ => FAILED
    end.

(** What a failed poller reports: the error payload, or else the
    response and the partial failures if there are any. *)
Definition failure_report (s : OperationStatus) : list Event :=
  match error s with
  | Some e => [EvOut "Result: FAILED (operation error)"; EvOutJson e]
  | None =>
      ([EvOut "Result: FAILED (import reported failures)";
        EvOut "Operation response:";
        EvOutJson (response s)]
         ++ match partial_failures s with
            | [] => []
            | pf => [EvOut "Partial failures:"; EvOutJson (JArr pf)]
            end)%list
  end.

Definition success_line : Event :=
  EvOut "Result: SUCCESS (import operation completed with no reported failures).".

Definition timeout_report (args : Args) : list Event :=
  [EvOut "Complete";
   EvOut ("Result: FAILED (timed out after "
            ++ str_of_Z (timeout_minutes args)
            ++ " minutes waiting for import operation).")].

(** The call that fetches the operation. *)
Definition operation_request (args : Args) (op_name : string) : Request :=
  GET (base_url (location args) ++ "/" ++ op_name) JNull.

(** One round of waiting: the call, the line, the sleep. *)
Definition waiting_round (args : Args) (op_name : string) : list Event :=
  [EvHttp (operation_request args op_name);
   EvOut "Not Complete";
   EvSleep (poll_seconds args)].

(** [n] times the events [round]. *)
Fixpoint rounds (n : nat) (round : list Event) : list Event :=
  match n with
  | O => []
  | S n' => (round ++ rounds n' round)%list
  end.

(** The service answers every fetch of the operation made before the
    deadline with a snapshot that is not done. *)
Definition never_done (args : Args) (op_name : string) (deadline : Z)
  : Prop :=
  forall w,
    clock w < deadline ->
    exists op s,
      success (serve env w (operation_request args op_name)) op /\
      decode op = Some s /\ done s = false.

(** A request for a page of the listing. *)
Definition is_listing (url : string) (rq : Request) : Prop :=
  exists params, rq = GET url params.

(** Every listing made before [rf_deadline] returns, given [pages] units
    of fuel, records of which none has a name. *)
Definition always_empty (args : Args) (rf_deadline : Z) (pages : nat)
  : Prop :=
  forall w fuel,
    clock w < rf_deadline ->
    (pages <= fuel)%nat ->
    exists l w',
      list_rag_files env fuel (location args) (corpus args) w = Ok l w' /\
      names_of l = inr [].

(** The events of the rounds of a discovery in which each listing of
    [listings] is followed by the line and the sleep. *)
Definition listing_rounds (args : Args) (listings : list (list Request))
  : list Event :=
  flat_map (fun reqs => (map EvHttp reqs
                           ++ [EvOut "Not Complete";
                               EvSleep (poll_seconds args)])%list)
           listings.

Definition discovery_failure (args : Args) : list Event :=
  [EvErr ("Complete" ++ nl
            ++ "Result: FAILED (no RagFiles found in corpus after import).");
   EvErrJson (JObj [("corpus", JStr (corpus args))])].

(** The lines written to the standard output. *)
Fixpoint stdout_lines (t : list Event) : list string :=
  match t with
  | [] => []
  | EvOut line :: t' => line :: stdout_lines t'
  | _ :: t' => stdout_lines t'
  end.

(** The run has written [line] to the standard output. *)
Definition prints {A} (line : string) (r : Res A) : bool :=
  match final_trace r with
  | Some t => existsb (String.eqb line) (stdout_lines t)
  | None => false
  end.

(** The requests of a run. *)
Definition requests_of {A} (r : Res A) : list Request :=
  match final_trace r with
  | Some t => requests t
  | None => []
  end.

(** Two environments with the same remote service. *)
Definition same_service (env1 env2 : Env) : Prop :=
  (forall w r, serve env1 w r = serve env2 w r) /\
  (forall w r, took env1 w r = took env2 w r).

(** Every subprocess can be started. *)
Definition launches (e : Env) : Prop :=
  forall w cmd, spawn e w cmd <> None.

(** The events done between [w] and [w'] are all allowed by [E]. *)
Definition within (E : Event -> Prop) (w w' : World) : Prop :=
  exists evs, trace w' = (trace w ++ evs)%list /\ Forall E evs.

(** Whatever the world, the computation [m] only does events that [E]
    allows, only exits with a status that [C] allows, and only returns a
    value that [R] allows. *)
Definition obeys {A} (E : Event -> Prop) (C : Z -> Prop) (R : A -> Prop)
  (m : M A) : Prop :=
  forall w,
    match m w with
    | Ok a w' => within E w w' /\ R a
    | SysExit c w' => within E w w' /\ C c
    | Raised _ w' => within E w w'
    | Unmodelled | OutOfFuel => True
    end.

Definition anything {A} (_ : A) : Prop := True.

(** What the plain script may do once the import is submitted: read
    calls, sleeps of one poll interval, and writes to the standard
    streams; no further submission and no subprocess. *)
Definition plain_effect (args : Args) (e : Event) : Prop :=
  match e with
  | EvSleep s => s = poll_seconds args
  | EvRun _ => False
  | EvHttp (POST _ _) => False
  | _ => True
  end.

(** The request that submits the import. *)
Definition import_request (location corpus_name : string)
  (gcs_uris : list string) : Request :=
  POST (base_url location ++ "/" ++ corpus_name ++ "/ragFiles:import")
       (JObj [("importRagFilesConfig",
               JObj [("gcsSource",
                      JObj [("uris", JArr (map JStr gcs_uris))])])]).

(** Between [w] and [w'] the call [rq] comes first, and what follows is
    allowed by [E]. *)
Definition starts_with (rq : Request) (E : Event -> Prop) (w w' : World)
  : Prop :=
  exists rest,
    trace w' = (trace w ++ EvHttp rq :: rest)%list /\ Forall E rest.

(** The record comes back with a success status and in state ACTIVE. *)
Definition comes_active (r : Reply) : Prop :=
  exists rf err,
    success r rf /\ rag_file_state rf = inr (JStr "ACTIVE", err).

(** Whenever one of [names] is fetched, its record comes back with a
    success status, neither ACTIVE nor in ERROR. *)
Definition never_settles (location : string) (names : list string) : Prop :=
  forall w n,
    In n names ->
    exists rf state err,
      success (serve env w (fetch location n)) rf /\
      rag_file_state rf = inr (state, err) /\
      is_str state "ACTIVE" = false /\ is_str state "ERROR" = false.

(** One sweep over [pending] that leaves all of it pending: the
    fetches, the line, the sleep. *)
Definition idle_sweep (args : Args) (pending : list string) : list Event :=
  (fetches (location args) pending
     ++ [EvOut "Not Complete"; EvSleep (poll_seconds args)])%list.

(** What the tracker writes when the deadline passes with [pending] not
    yet ACTIVE. *)
Definition activation_failure (pending : list string) : list Event :=
  ([EvOut "Complete";
    EvOut ("Result: FAILED (timed out waiting for RagFiles to become ACTIVE). Pending: "
             ++ str_of_Z (Z.of_nat (List.length pending)))]
     ++ map (fun n => EvOut ("- " ++ n)) (sorted pending))%list.

Definition activation_success : list Event :=
  [EvOut "Complete";
   EvOut "Final Result: SUCCESS (all RagFiles are ACTIVE and indexed)."].

Definition found_line (names : list json) : Event :=
  EvOut ("Found " ++ str_of_Z (Z.of_nat (List.length names))
           ++ " RagFile(s). Waiting for ACTIVE.").

(** [a] is not after [b] in the order of [sorted]. *)
Definition name_le (a b : string) : Prop := String.leb a b = true.

(** The reply to the submission does not start an operation: it is not a
    success response, or its payload is an object without a name. *)
Definition no_operation (r : Reply) : Prop :=
  forall op,
    success r op -> exists m, op = JObj m /\ truthy (field "name" m) = false.

(** The first [k] pages of a listing come back, each with a token, and
    the next call does not come back with a success response. *)
Definition breaks_after (w : World) (pages : list (list (string * json)))
  : Prop :=
  exists replies bad,
    answers_in_order w (replies ++ [bad])%list /\
    Forall2 (fun r m => success r (JObj m)) replies pages /\
    Forall (fun m => truthy (page_token m) = true
                     /\ exists l, page_files m = JArr l) pages /\
    forall j, ~ success bad j.

(** The address of the import call of a corpus. *)
Definition import_url (location corpus_name : string) : string :=
  base_url location ++ "/" ++ corpus_name ++ "/ragFiles:import".

(** The import request of [import_with_sink.py] for the sink [sink]. *)
Definition sink_payload (uri sink : string) : json :=
  JObj [("importRagFilesConfig",
         JObj [("gcsSource", JObj [("uris", JArr [JStr uri])]);
               ("importResultGcsSink",
                JObj [("outputUriPrefix", JStr sink)])])].

(** The import request of [import_with_sink_chunked.py]. *)
Definition chunked_payload (uri : string) (size overlap : Z) (sink : string)
  : json :=
  JObj [("importRagFilesConfig",
         JObj [("gcsSource", JObj [("uris", JArr [JStr uri])]);
               ("ragFileTransformationConfig",
                JObj [("ragFileChunkingConfig",
                       JObj [("fixedLengthChunking",
                              JObj [("chunkSize", JInt size);
                                    ("chunkOverlap", JInt overlap)])])]);
               ("importResultGcsSink",
                JObj [("outputUriPrefix", JStr sink)])])].

(** A sink prefix as the service wants it. *)
Definition valid_sink (sink : string) : Prop :=
  startswith sink "gs://" = true /\ endswith sink "/" = true.

(** The two commands that show the sink. *)
Definition sink_commands (sink : string) : list (list string) :=
  [["gsutil"; "ls"; sink ++ "**"];
   ["bash"; "-lc"; "gsutil cat '" ++ sink ++ "'* 2>/dev/null | head -200"]].

(** What a sink script may do once the import is submitted: fetch the
    operation, sleep one poll interval, show the sink, and write. *)
Definition sink_effect (poll : Z) (sink op_url : string) (e : Event) : Prop :=
  match e with
  | EvSleep s => s = poll
  | EvHttp r => r = GET op_url JNull
  | EvRun cmd => In cmd (sink_commands sink)
  | _ => True
  end.

(** The arguments that [import_with_sink.py] refuses. *)
Definition sink_bad_arguments (args : ImportWithSink.Args) : Prop :=
  startswith (ImportWithSink.gcs_uri args) "gs://" = false \/
  exists c p,
    ImportWithSink.sink_prefix args = Some (String c p) /\
    startswith (String c p) "gs://" = false.

(** Between [w] and [w'] the script has submitted the import with a
    valid sink and has then only done what a sink script may do. *)
Definition sink_submitted (args : ImportWithSink.Args) (w w' : World)
  : Prop :=
  exists sink op_url,
    valid_sink sink /\
    starts_with
      (POST (import_url (ImportWithSink.location args)
               (ImportWithSink.corpus args))
            (sink_payload (ImportWithSink.gcs_uri args) sink))
      (sink_effect (ImportWithSink.poll_seconds args) sink op_url) w w'.

(** The same for [import_with_sink_chunked.py]. *)
Definition chunked_submitted (args : ImportWithSinkChunked.Args)
  (w w' : World) : Prop :=
  exists sink op_url,
    valid_sink sink /\
    starts_with
      (POST (import_url (ImportWithSinkChunked.location args)
               (ImportWithSinkChunked.corpus args))
            (chunked_payload (ImportWithSinkChunked.gcs_uri args)
               (ImportWithSinkChunked.chunk_size args)
               (ImportWithSinkChunked.chunk_overlap args) sink))
      (sink_effect (ImportWithSinkChunked.poll_seconds args) sink op_url)
      w w'.

Definition status_0_or_1 (code : Z) : Prop := code = 0 \/ code = 1.

Definition never_exits (code : Z) : Prop := False.

(** Every fetch of the operation made before the deadline comes back
    with a status below 400 and a snapshot that is not done. *)
Definition sink_never_done (op_url : string) (deadline : Z) : Prop :=
  forall w,
    clock w < deadline ->
    exists st text m,
      serve env w (GET op_url JNull) = HttpResponse st text (Some (JObj m)) /\
      st < 400 /\ truthy (field "done" m) = false.

(** The same, whatever the status: [import_with_sink_chunked.py] does not
    look at it. *)
Definition chunked_never_done (op_url : string) (deadline : Z) : Prop :=
  forall w,
    clock w < deadline ->
    exists st text m,
      serve env w (GET op_url JNull) = HttpResponse st text (Some (JObj m)) /\
      truthy (field "done" m) = false.

(** One round of waiting of a sink script. *)
Definition sink_round (poll : Z) (op_url : string) : list Event :=
  [EvHttp (GET op_url JNull); EvOut "Not Complete"; EvSleep poll].

(** The call of [retrieve_contexts] for a question. *)
Definition retrieval_request (cfg : DemoApp.Config) (question : string)
  : Request :=
  let parent := "projects/" ++ DemoApp.PROJECT_ID cfg ++ "/locations/"
                  ++ DemoApp.RAG_LOCATION cfg in
  POST ("https://" ++ DemoApp.RAG_LOCATION cfg
          ++ "-aiplatform.googleapis.com/v1beta1/" ++ parent
          ++ ":retrieveContexts")
       (JObj [("query", JObj [("text", JStr question);
                              ("similarityTopK", JInt (DemoApp.TOP_K cfg))]);
              ("vertexRagStore",
               JObj [("ragResources",
                      JArr [JObj [("ragCorpus",
                                   JStr (DemoApp.RAG_CORPUS cfg))]])])]).

(** The call of [generate_answer] for a question and a context block. *)
Definition generation_request (cfg : DemoApp.Config)
  (question context_block : string) : Request :=
  POST ("https://aiplatform.googleapis.com/v1/" ++ DemoApp.GEMINI_MODEL cfg
          ++ ":generateContent")
       (JObj [("systemInstruction",
               JObj [("role", JStr "system");
                     ("parts", JArr [JObj [("text", JStr DemoApp.system)]])]);
              ("contents",
               JArr [JObj [("role", JStr "user");
                           ("parts",
                            JArr [JObj [("text",
                                         JStr ("QUESTION:" ++ nl ++ question
                                                 ++ nl ++ nl ++ "CONTEXT:"
                                                 ++ nl ++ context_block))]])]]);
              ("generationConfig",
               JObj [("temperature", JFloat 3 10);
                     ("maxOutputTokens", JInt 4000)])]).

(** The response of [ask] to an exception with the text [msg]. *)
Definition error_response (msg : string) : DemoApp.JSONResponse :=
  DemoApp.mkJSONResponse (JObj [("error", JStr msg)]) 500.

(** The response of [ask] with an answer and the shown contexts. *)
Definition answer_response (answer : string) (shown : list json)
  : DemoApp.JSONResponse :=
  DemoApp.mkJSONResponse
    (JObj [("answer", JStr answer); ("contexts", JArr shown)]) 200.

(** [line] is the part of the context block for the context at position
    [k] of [cs] (from 0), the numbers starting at [first]: the context
    has a text that is not blank, the line carries the number
    [first + k], and the entry at position [k] of [shown] holds the first
    800 characters of that text. *)
Definition cited_at (cs shown : list json) (first : Z) (k : nat)
  (line : string) : Prop :=
  exists c src t u sc,
    nth_error cs k = Some c /\
    get c "text" = inr (JStr t) /\
    strip t <> EmptyString /\
    line = "[" ++ str_of_Z (first + Z.of_nat k) ++ "] Source: " ++ src
             ++ nl ++ strip t /\
    nth_error shown k
    = Some (JObj [("sourceUri", u); ("score", sc);
                  ("text", JStr (slice_to 800 t))]).

End Vocabulary.

(* ===================================================================== *)
(** * Concrete services, arguments and payloads *)
(* ===================================================================== *)

Section Inputs.

Import ImportAndWait.

(** A rendering of values and exceptions that shows nothing. *)
Definition no_text {A} (_ : A) : string := EmptyString.

Definition demo_cfg : DemoApp.Config :=
  DemoApp.mkConfig "helpdesk-rag" "europe-west4"
    "projects/1/locations/europe-west4/ragCorpora/7"
    "projects/helpdesk-rag/locations/global/publishers/google/models/gemini-2.5-flash"
    12.

(** One retrieved snippet of 1000 characters, and a model answer. *)
Definition demo_env : Env :=
  Script.env
    [Script.ok
       (JObj [("contexts",
               JObj [("contexts",
                      JArr [JObj [("sourceUri", JStr "gs://b/tickets.ndjson");
                                  ("score", JFloat 1 2);
                                  ("text", JStr (replicate 1000 "x"))]])])]);
     Script.ok
       (JObj [("candidates",
               JArr [JObj [("content",
                            JObj [("parts",
                                   JArr [JObj [("text", JStr "See [1].")]])])]])])]
    0 [].

Definition plain_args : ImportAndWait.Args :=
  ImportAndWait.mkArgs "helpdesk-rag" "europe-west4" "corpora/1"
    ["gs://b/a.ndjson"] 60 120.

Definition sink_args : ImportWithSink.Args :=
  ImportWithSink.mkArgs "helpdesk-rag" "europe-west4" "corpora/1"
    "gs://b/a.ndjson" None 60 60.

Definition chunked_args : ImportWithSinkChunked.Args :=
  ImportWithSinkChunked.mkArgs "helpdesk-rag" "europe-west4" "corpora/1"
    "gs://b/a.ndjson" 512 100 60 90.

Definition started : Reply :=
  Script.ok (JObj [("name", JStr "operations/7")]).

(** Done, no error, no failed item. *)
Definition op_clean : json :=
  JObj [("done", JBool true);
        ("response", JObj [("failedRagFilesCount", JStr "0")])].

(** Done, no error, no failed item, one partial failure. *)
Definition op_partial : json :=
  JObj [("done", JBool true);
        ("response", JObj [("failedRagFilesCount", JStr "0")]);
        ("metadata",
         JObj [("genericMetadata",
                JObj [("partialFailures",
                       JArr [JObj [("code", JInt 3);
                                   ("message", JStr "bad row")]])])])].

(** [gsutil ls] and [gsutil cat] both end with status 0. *)
Definition sink_readable : list (option Completed) :=
  [Some (mkCompleted 0 "gs://b/import_results/out.ndjson" EmptyString);
   Some (mkCompleted 0 EmptyString EmptyString)].

(** [gsutil ls] ends with status 1. *)
Definition sink_unreadable : list (option Completed) :=
  [Some (mkCompleted 1 EmptyString
           "CommandException: One or more URLs matched no objects.");
   Some (mkCompleted 0 EmptyString EmptyString)].

(** The service answers the first fetch of the operation with status 503
    and a JSON error body, the second one with a clean, done snapshot. *)
Definition unavailable : Reply :=
  HttpResponse 503 "Service Unavailable"
    (Some (JObj [("error", JObj [("code", JInt 503);
                                 ("status", JStr "UNAVAILABLE")])])).

(** A resource record. *)
Definition record (name state : string) : json :=
  JObj [("name", JStr name); ("fileStatus", JObj [("state", JStr state)])].

Definition failed_record (name detail : string) : json :=
  JObj [("name", JStr name);
        ("fileStatus", JObj [("state", JStr "ERROR");
                             ("errorStatus", JStr detail)])].

(** The listing shows [f/a] and then [f/b]; the set of the pending names
    iterates the other way round, and the service answers the fetches in
    the order in which they come. *)
Definition two_resources : Env :=
  Script.env
    [Script.ok (JObj [("ragFiles", JArr [record "f/a" "PENDING";
                                         record "f/b" "PENDING"])]);
     Script.ok (record "f/b" "ACTIVE");
     Script.ok (record "f/a" "ACTIVE")] 1 [].

(** Both pending resources come back ACTIVE. *)
Definition both_active : Env :=
  Script.env [Script.ok (record "f/b" "ACTIVE");
              Script.ok (record "f/a" "ACTIVE")] 1 [].

(** Three pending resources, the second of which comes back in ERROR. *)
Definition second_fails : Env :=
  Script.env [Script.ok (record "f/a" "ACTIVE");
              Script.ok (failed_record "f/b" "invalid encoding")] 1 [].

(** The listing comes in two pages. *)
Definition two_pages : list (list (string * json)) :=
  [[("ragFiles", JArr [record "f/a" "ACTIVE"; record "f/b" "ACTIVE"]);
    ("nextPageToken", JStr "page-2")];
   [("ragFiles", JArr [record "f/c" "ACTIVE"])]].

(** The service that always shows an operation that is not done. *)
Definition never_done_service : Env :=
  mkEnv (fun _ _ => Script.ok (JObj [("done", JBool false)]))
        (fun _ _ => 0%N) (fun _ _ => None).

Definition short_args : Args :=
  mkArgs "helpdesk-rag" "europe-west4" "corpora/1" ["gs://b/a.ndjson"] 60 2.

(** The service whose listing is always empty. *)
Definition empty_corpus : Env :=
  mkEnv (fun _ _ => Script.ok (JObj [("ragFiles", JArr [])]))
        (fun _ _ => 0%N) (fun _ _ => None).

(** The service that lists the resource [f/a] and always shows it as
    PENDING. *)
Definition pending_forever : Env :=
  mkEnv
    (fun _ r =>
       match r with
       | GET url _ =>
           if String.eqb url (list_url "europe-west4" "corpora/1")
           then Script.ok (JObj [("ragFiles", JArr [record "f/a" "PENDING"])])
           else Script.ok (record "f/a" "PENDING")
       | POST _ _ => started
       end)
    (fun _ _ => 0%N) (fun _ _ => None).

(** The listing shows [f/a] and [f/b]; both are ACTIVE when fetched. *)
Definition listed_and_active : Env :=
  Script.env
    [Script.ok (JObj [("ragFiles", JArr [record "f/a" "PENDING";
                                         record "f/b" "PENDING"])]);
     Script.ok (record "f/a" "ACTIVE");
     Script.ok (record "f/b" "ACTIVE")] 1 [].

(** The service that starts an operation and then always shows it as
    not done. *)
Definition stalled_service : Env :=
  mkEnv (fun _ r =>
           match r with
           | POST _ _ => started
           | GET _ _ => Script.ok (JObj [("done", JBool false)])
           end)
        (fun _ _ => 0%N) (fun _ _ => None).

Definition short_sink_args : ImportWithSink.Args :=
  ImportWithSink.mkArgs "helpdesk-rag" "europe-west4" "corpora/1"
    "gs://b/a.ndjson" None 60 2.

Definition short_chunked_args : ImportWithSinkChunked.Args :=
  ImportWithSinkChunked.mkArgs "helpdesk-rag" "europe-west4" "corpora/1"
    "gs://b/a.ndjson" 512 100 60 2.

(** The first page of the listing comes back, with a token; the second
    call is answered with status 503. *)
Definition broken_listing : Env :=
  Script.env
    [Script.ok (JObj [("ragFiles", JArr [record "f/a" "ACTIVE"]);
                      ("nextPageToken", JStr "page-2")]);
     unavailable] 1 [].

(** The service [e] next to subprocesses that all end as [c]. *)
Definition with_commands (e : Env) (c : Completed) : Env :=
  mkEnv (serve e) (took e) (fun _ _ => Some c).

(** The operation is done and clean at the first fetch. *)
Definition done_at_once : Env :=
  Script.env [started; Script.ok op_clean] 1 [].

(** Two retrieved contexts, the first with a blank text. *)
Definition blank_then_text : list json :=
  [JObj [("sourceUri", JStr "gs://b/empty.txt"); ("text", JStr "  ")];
   JObj [("sourceUri", JStr "gs://b/tickets.ndjson");
         ("score", JFloat 1 2);
         ("text", JStr "disk full")]].

End Inputs.

(* ===================================================================== *)
(** * Properties *)
(* ===================================================================== *)

(** ** The builtins on sample values *)

Section Builtins.

Example int_of_count : py_int (JStr "0") = inr 0.
Proof. reflexivity. Qed.

Example int_of_padded : py_int (JStr " +1_000 ") = inr 1000.
Proof. reflexivity. Qed.

Example int_of_negative : py_int (JStr "-12") = inr (-12).
Proof. reflexivity. Qed.

Example int_of_doubled_underscore : py_int (JStr "1__0") = inl ValueError.
Proof. reflexivity. Qed.

Example int_of_none : py_int JNull = inl TypeError.
Proof. reflexivity. Qed.

Example str_of_count : str_of_Z 120 = "120".
Proof. reflexivity. Qed.

Example empty_dict_is_false : truthy (JObj []) = false.
Proof. reflexivity. Qed.

Example get_of_missing_key : get (JObj [("done", JBool true)]) "error" = inr JNull.
Proof. reflexivity. Qed.

Example get_on_a_list : get (JArr []) "error" = inl AttributeError.
Proof. reflexivity. Qed.

Example strip_blanks : strip "  a b  " = "a b".
Proof. reflexivity. Qed.

Example bucket_of_uri : before_slash (slice_from 5 "gs://b/a.ndjson") = "b".
Proof. reflexivity. Qed.

Example sorted_names :
  ImportAndWait.sorted ["f/b"; "f/c"; "f/a"] = ["f/a"; "f/b"; "f/c"].
Proof. reflexivity. Qed.

End Builtins.

(** ** The answer endpoint *)

Section AnswerEndpoint.

Import DemoApp.

Lemma slice_to_length : forall n s, (String.length (slice_to n s) <= n)%nat.
Proof.
  unfold slice_to.
  induction n as [|n IH]; intros [|c s]; simpl; try lia.
  specialize (IH s). lia.
Qed.

Lemma shown_of_small : forall c s, shown_of c s -> small_context s.
Proof.
  intros c s (u & sc & t0 & t & _ & _ & _ & _ & ->).
  exists u, sc, (slice_to 800 t). split; [reflexivity|apply slice_to_length].
Qed.

(** A context that [generate_answer] accepted has a text that is a string
    (or none), so its slice is a string. *)
Lemma shown_contexts_spec :
  forall py_str cs i lines shown,
    ctx_lines_of py_str i cs = inr lines ->
    shown_contexts cs = inr shown ->
    Forall2 shown_of cs shown.
Proof.
  intros py_str cs.
  induction cs as [|c cs IH]; intros i lines shown Hl Hs; simpl in *.
  - injection Hs as <-. constructor.
  - unfold and_then in Hl, Hs.
    destruct (get c "sourceUri") as [?|u] eqn:Eu; [discriminate|].
    destruct (get c "score") as [?|sc] eqn:Esc; [discriminate|].
    destruct (get c "text") as [?|t0] eqn:Et.
    { destruct (truthy u); [discriminate|].
      destruct (get c "sourceDisplayName"); discriminate. }
    assert (Hstr : exists t, por t0 (JStr EmptyString) = JStr t).
    { destruct (if truthy u then _ else _) as [?|src]; [discriminate|].
      destruct (por t0 (JStr EmptyString)) as [| | | |t| |] eqn:Ep;
        simpl in Hl; try discriminate.
      now exists t. }
    destruct Hstr as [t Hp]. rewrite Hp in *. simpl in Hs.
    destruct (shown_contexts cs) as [?|tl] eqn:Etl; [discriminate|].
    injection Hs as <-.
    assert (Hrest : exists i' lines', ctx_lines_of py_str i' cs = inr lines').
    { destruct (if truthy u then _ else _) as [?|src]; [discriminate|].
      simpl in Hl.
      destruct (String.eqb (strip t) EmptyString); [now exists (i + 1), lines|].
      destruct (ctx_lines_of py_str (i + 1) cs) as [?|l'] eqn:El;
        [discriminate|]. now exists (i + 1), l'. }
    destruct Hrest as (i' & lines' & Hrest).
    constructor; [|eapply IH; eauto].
    exists u, sc, t0, t. repeat split; assumption.
Qed.

(** C10.  When [/api/ask] answers with success (status 200), the body is
    an object with the answer and the list [contexts]; that list has one
    entry per retrieved context, in order, and each entry holds exactly
    the fields [sourceUri], [score] and [text], the text being the first
    800 characters of the retrieved text, hence never longer than 800
    characters, however long the retrieved snippet is. *)
Theorem ask_contexts_truncated :
  forall env cfg py_str exn_text question w r w',
    ask env cfg py_str exn_text question w = Ok r w' ->
    status_code r = 200 ->
    exists contexts w1 cs answer shown,
      retrieve_contexts env cfg question (TOP_K cfg) w = Ok contexts w1 /\
      py_iter contexts = inr cs /\
      content r = JObj [("answer", JStr answer); ("contexts", JArr shown)] /\
      Forall2 shown_of cs shown /\
      Forall small_context shown.
Proof.
  intros env cfg py_str exn_text question w r w' Hask H200.
  unfold ask in Hask.
  destruct (ask_try env cfg py_str question w) as [r0 w0|?|e w0| |] eqn:Etry;
    try discriminate.
  2:{ injection Hask as <- <-. simpl in H200. discriminate. }
  injection Hask as -> ->.
  unfold ask_try, bind in Etry.
  destruct (retrieve_contexts env cfg question (TOP_K cfg) w)
    as [contexts w1| | | |] eqn:Er; try discriminate.
  destruct (generate_answer env cfg py_str question contexts w1)
    as [answer w2| | | |] eqn:Eg; try discriminate.
  unfold generate_answer, bind, eval, and_then in Eg.
  unfold eval, and_then in Etry.
  destruct (py_iter contexts) as [?|cs] eqn:Ei; [discriminate|].
  destruct (ctx_lines_of py_str 1 cs) as [?|lines] eqn:El; [discriminate|].
  destruct (shown_contexts cs) as [?|shown] eqn:Es; [discriminate|].
  cbv [ret] in Etry. injection Etry as <- <-.
  assert (H2 : Forall2 shown_of cs shown)
    by (eapply shown_contexts_spec; eauto).
  exists contexts, w1, cs, answer, shown.
  repeat split; try reflexivity; try assumption.
  clear -H2. induction H2; constructor; eauto using shown_of_small.
Qed.

End AnswerEndpoint.


Section AnswerEndpointExample.

Import DemoApp.

Lemma ask_contexts_truncated_witness :
  exists r w',
    ask demo_env demo_cfg no_text no_text "why?" Script.boot
      = Ok r w' /\
    status_code r = 200 /\
    exists contexts w1 cs answer shown,
      retrieve_contexts demo_env demo_cfg "why?" (TOP_K demo_cfg) Script.boot
        = Ok contexts w1 /\
      py_iter contexts = inr cs /\
      content r = JObj [("answer", JStr answer); ("contexts", JArr shown)] /\
      Forall2 shown_of cs shown /\
      Forall small_context shown.
Proof.
  eexists. eexists.
  split; [vm_compute; reflexivity|].
  split; [reflexivity|].
  eapply (ask_contexts_truncated demo_env demo_cfg no_text no_text
            "why?" Script.boot);
    [vm_compute; reflexivity | reflexivity].
Defined.

End AnswerEndpointExample.

Lemma requests_app :
  forall a b, requests (a ++ b) = (requests a ++ requests b)%list.
Proof.
  induction a as [|e a IH]; intros b; simpl; [reflexivity|].
  destruct e; simpl; rewrite ?IH; reflexivity.
Qed.

Lemma requests_map_EvHttp : forall rs, requests (map EvHttp rs) = rs.
Proof. induction rs; simpl; congruence. Qed.

Lemma answers_head :
  forall env w reply replies r,
    answers_in_order env w (reply :: replies) -> serve env w r = reply.
Proof.
  intros env w reply replies r H. apply (H 0%nat); [reflexivity|lia].
Qed.

Lemma answers_tail :
  forall env w w' reply replies,
    answers_in_order env w (reply :: replies) ->
    List.length (requests (trace w'))
      = S (List.length (requests (trace w))) ->
    answers_in_order env w' replies.
Proof.
  intros env w w' reply replies H Hlen k rp w2 r Hk Hw2.
  apply (H (S k)); [exact Hk|lia].
Qed.

Lemma answers_after_sent :
  forall env w rq reply replies,
    answers_in_order env w (reply :: replies) ->
    answers_in_order env (sent env w rq) replies.
Proof.
  intros. eapply answers_tail; eauto.
  simpl. rewrite requests_app, length_app. simpl. lia.
Qed.

Lemma answers_same_requests :
  forall env w w' replies,
    answers_in_order env w replies ->
    requests (trace w') = requests (trace w) ->
    answers_in_order env w' replies.
Proof.
  intros env w w' replies H E k rp w2 r Hk Hw2.
  apply (H k); [exact Hk|]. rewrite <- E. exact Hw2.
Qed.

Lemma script_answers :
  forall replies rtt procs,
    answers_in_order (Script.env replies rtt procs) Script.boot replies.
Proof.
  intros replies rtt procs k reply w r Hk Hlen. simpl in *.
  rewrite Hlen. apply nth_error_nth. exact Hk.
Qed.

(** ** [http_json] *)

Section HttpJson.

Import ImportAndWait.
Context (env : Env).

Lemma printed_printed :
  forall w a b, printed (printed w a) b = printed w (a ++ b).
Proof. intros. unfold printed. simpl. now rewrite <- app_assoc. Qed.

Lemma emit_printed : forall e w, emit e w = printed w [e].
Proof. reflexivity. Qed.

Lemma http_json_GET :
  forall url params w,
    http_json env "GET" url JNull params w
    = http_outcome "GET" url (sent env w (GET url params))
        (serve env w (GET url params)).
Proof.
  intros url params w. unfold http_json, bind. simpl.
  unfold session_request. fold (sent env w (GET url params)).
  destruct (serve env w (GET url params)) as [e|st text body]; simpl.
  - reflexivity.
  - destruct ((200 <=? st) && (st <? 300)); simpl.
    + destruct body; [reflexivity|].
      unfold exit_with_error, bind, eprint, eprint_json, log, sys_exit,
        emit, printed.
      simpl. now rewrite <- app_assoc.
    + unfold exit_with_error, bind, eprint, eprint_json, log, sys_exit,
        emit, printed, ret.
      destruct body as [[]|]; simpl; rewrite <- ?app_assoc; reflexivity.
Qed.

Lemma http_json_GET_success :
  forall url params w j,
    success (serve env w (GET url params)) j ->
    http_json env "GET" url JNull params w = Ok j (sent env w (GET url params)).
Proof.
  intros url params w j (st & text & E & Hst).
  rewrite http_json_GET, E. simpl.
  replace ((200 <=? st) && (st <? 300)) with true; [reflexivity|].
  symmetry. apply andb_true_iff. split; [apply Z.leb_le|apply Z.ltb_lt]; lia.
Qed.

End HttpJson.

(** ** Listing the resources of the corpus *)

Section Listing.

Import ImportAndWait.
Context (env : Env).

Lemma list_rag_files_loop_pages :
  forall url pages replies recs fuel w acc tok,
    answers_in_order env w replies ->
    Forall2 (fun r m => success r (JObj m)) replies pages ->
    chained pages ->
    Forall2 (fun m l => page_files m = JArr l) pages recs ->
    (List.length pages <= fuel)%nat ->
    exists w',
      list_rag_files_loop env fuel url acc tok w
        = Ok (acc ++ List.concat recs)%list w' /\
      trace w' = (trace w ++ map EvHttp (page_requests url tok pages))%list.
Proof.
  intros url pages.
  induction pages as [|m rest IH];
    intros replies recs fuel w acc tok Hans Hrep Hch Hrec Hfuel.
  - contradiction.
  - destruct replies as [|reply replies']; [inversion Hrep|].
    destruct recs as [|l recs']; [inversion Hrec|].
    apply Forall2_cons_iff in Hrep as [Hs Hrep'].
    apply Forall2_cons_iff in Hrec as [Hl Hrec'].
    destruct fuel as [|fuel]; [simpl in Hfuel; lia|].
    set (rq := GET url (if truthy tok then JObj [("pageToken", tok)]
                        else JNull)).
    assert (Hcall : http_json env "GET" url JNull
                      (if truthy tok then JObj [("pageToken", tok)] else JNull)
                      w
                    = Ok (JObj m) (sent env w rq)).
    { apply http_json_GET_success.
      rewrite (answers_head env w reply replies' _ Hans). exact Hs. }
    simpl list_rag_files_loop. unfold bind at 1. rewrite Hcall.
    unfold get_default. fold (page_files m). rewrite Hl.
    unfold bind, eval, ret, get, get_default.
    fold (page_token m).
    destruct rest as [|m2 rest].
    + simpl in Hch. rewrite Hch. cbn [py_iter negb].
      inversion Hrec'; subst. simpl List.concat. rewrite app_nil_r.
      eexists. split; [reflexivity|]. reflexivity.
    + destruct Hch as [Htok Hch]. rewrite Htok. cbn [py_iter negb].
      destruct (IH replies' recs' fuel (sent env w rq) (acc ++ l)%list
                  (page_token m)) as (w' & Hrun & Htr).
      * eapply answers_after_sent; eauto.
      * assumption.
      * exact Hch.
      * assumption.
      * simpl in Hfuel |- *. lia.
      * exists w'. split.
        -- rewrite Hrun. simpl List.concat. now rewrite app_assoc.
        -- rewrite Htr. simpl trace. rewrite <- app_assoc. reflexivity.
Qed.

(** C6.  Whatever pages the service sends in answer to the successive
    calls (every page but the last with a continuation token, the last
    one without), [list_rag_files] asks for the first page without a
    token, for every further page with the token of the page before it,
    stops at the page that carries no token, and returns the records of
    all the pages, concatenated in the order of the pages: one request
    per page, nothing skipped, nothing fetched or contributed twice. *)
Theorem list_rag_files_all_pages :
  forall location corpus_name replies pages recs fuel w,
    answers_in_order env w replies ->
    Forall2 (fun r m => success r (JObj m)) replies pages ->
    chained pages ->
    Forall2 (fun m l => page_files m = JArr l) pages recs ->
    (List.length pages <= fuel)%nat ->
    exists w',
      list_rag_files env fuel location corpus_name w = Ok (List.concat recs) w' /\
      trace w'
      = (trace w
           ++ map EvHttp
                (page_requests (list_url location corpus_name) JNull pages))%list.
Proof.
  intros location corpus_name replies pages recs fuel w Hans Hrep Hch Hrec Hf.
  unfold list_rag_files.
  destruct (list_rag_files_loop_pages (list_url location corpus_name)
              pages replies recs fuel w [] JNull Hans Hrep Hch Hrec Hf)
    as (w' & Hrun & Htr).
  exists w'. split; assumption.
Qed.

End Listing.

(** ** Activation sweeps *)

Section Sweeps.

Import ImportAndWait.
Context (env : Env).



Lemma requests_fetches :
  forall location names,
    requests (fetches location names) = map (fetch location) names.
Proof. induction names; simpl; congruence. Qed.

Lemma existsb_eqb_In :
  forall n l, existsb (String.eqb n) l = true <-> In n l.
Proof.
  intros n l. rewrite existsb_exists. split.
  - intros (x & Hx & E). apply String.eqb_eq in E. now subst.
  - intros H. exists n. split; [exact H|apply String.eqb_refl].
Qed.

Lemma set_remove_member :
  forall n pending,
    In n pending ->
    set_remove n pending
    = inr (filter (fun x => negb (String.eqb n x)) pending).
Proof.
  intros n pending H. unfold set_remove.
  apply existsb_eqb_In in H. now rewrite H.
Qed.

Lemma set_remove_result :
  forall n pending pending',
    set_remove n pending = inr pending' ->
    pending' = filter (fun x => negb (String.eqb n x)) pending.
Proof.
  unfold set_remove. intros n pending pending' H.
  destruct (existsb (String.eqb n) pending); congruence.
Qed.

Lemma In_removed :
  forall n x pending,
    In x (filter (fun y => negb (String.eqb n y)) pending) <->
    In x pending /\ x <> n.
Proof.
  intros n x pending. rewrite filter_In. split; intros [H1 H2]; split; auto.
  - intros ->. now rewrite String.eqb_refl in H2.
  - destruct (String.eqb_spec n x); [congruence|reflexivity].
Qed.

Lemma main_sweep_cons :
  forall args name todo pending w,
    main_sweep env args (name :: todo) pending w
    = match http_outcome "GET" (base_url (location args) ++ "/" ++ name)
              (sent env w (fetch (location args) name))
              (serve env w (fetch (location args) name)) with
      | Ok rf w1 =>
          match rag_file_state rf with
          | inl e => Raised e w1
          | inr (state, err) =>
              if is_str state "ACTIVE" then
                match set_remove name pending with
                | inl e => Raised e w1
                | inr pending' => main_sweep env args todo pending' w1
                end
              else if is_str state "ERROR" then
                SysExit 1 (printed w1 (error_report name rf err))
              else main_sweep env args todo pending w1
          end
      | SysExit c w1 => SysExit c w1
      | Raised e w1 => Raised e w1
      | Unmodelled => Unmodelled
      | OutOfFuel => OutOfFuel
      end.
Proof.
  intros args name todo pending w.
  simpl main_sweep. unfold bind at 1. unfold get_rag_file.
  rewrite http_json_GET. fold (fetch (location args) name).
  destruct (http_outcome _ _ _ _) as [rf w1| | | |]; try reflexivity.
  unfold bind at 1. unfold eval.
  destruct (rag_file_state rf) as [e|[state err]]; [reflexivity|].
  cbv [ret].
  destruct (is_str state "ACTIVE").
  - unfold bind at 1.
    destruct (set_remove name pending); reflexivity.
  - destruct (is_str state "ERROR"); [|reflexivity].
    unfold bind, print, print_value, print_json, log, sys_exit, emit,
      printed, error_report.
    simpl. rewrite <- !app_assoc. reflexivity.
Qed.

Lemma requests_silent : forall evs, silent evs -> requests evs = [].
Proof.
  induction 1 as [|e evs He _ IH]; [reflexivity|].
  destruct e; simpl; try contradiction; exact IH.
Qed.

Lemma silent_app : forall a b, silent a -> silent b -> silent (a ++ b).
Proof. intros a b Ha Hb. apply Forall_app. split; assumption. Qed.

(** [http_json] either returns the payload of a success response, with
    nothing but the call done, or ends the process with status 1 after
    the call and some lines on the standard error stream. *)
Lemma http_outcome_cases :
  forall method url w1 r,
    (exists j, http_outcome method url w1 r = Ok j w1 /\ success r j) \/
    (exists errs, http_outcome method url w1 r = SysExit 1 (printed w1 errs)
                  /\ silent errs /\ forall j, ~ success r j).
Proof.
  intros method url w1 [e|st text body]; simpl.
  - right. eexists. split; [reflexivity|]. split.
    + repeat constructor.
    + intros j (st & text & E & _). discriminate.
  - destruct ((200 <=? st) && (st <? 300)) eqn:Est.
    + apply andb_true_iff in Est as [H1 H2].
      apply Z.leb_le in H1. apply Z.ltb_lt in H2.
      destruct body as [j|].
      * left. exists j. split; [reflexivity|]. exists st, text. now split.
      * right. eexists. split; [reflexivity|]. split.
        -- repeat constructor.
        -- intros j (st' & text' & E & _). discriminate.
    + right. eexists. split; [reflexivity|]. split.
      * destruct body as [[]|]; repeat constructor.
      * intros j (st' & text' & E & Hst). injection E as <- <- _.
        apply andb_false_iff in Est as [H|H];
          [apply Z.leb_gt in H|apply Z.ltb_ge in H]; lia.
Qed.

Lemma filter_filter :
  forall (f g : string -> bool) l,
    filter f (filter g l) = filter (fun x => g x && f x) l.
Proof.
  intros f g. induction l as [|x l IH]; simpl; [reflexivity|].
  destruct (g x); simpl; [destruct (f x)|]; rewrite ?IH; reflexivity.
Qed.

(** What a sweep over [todo] does, however the service answers: if it
    runs to its end it has fetched the names of [todo], each in turn, and
    nothing else, and has only taken names out of [pending], leaving the
    others in their order; if it stops early it has fetched a prefix of
    [todo] and then only written to the standard streams. *)
Lemma main_sweep_shape :
  forall args todo pending w,
    match main_sweep env args todo pending w with
    | Ok pending' w' =>
        trace w' = (trace w ++ fetches (location args) todo)%list /\
        clock w <= clock w' /\
        exists keep, pending' = filter keep pending
    | SysExit _ w' | Raised _ w' =>
        exists k extra,
          (0 < k <= List.length todo)%nat /\
          trace w'
          = (trace w ++ fetches (location args) (firstn k todo) ++ extra)%list /\
          silent extra
    | Unmodelled | OutOfFuel => False
    end.
Proof.
  intros args todo.
  induction todo as [|name todo IH]; intros pending w.
  - simpl. rewrite app_nil_r. split; [reflexivity|]. split; [lia|].
    exists (fun _ => true). clear. induction pending; simpl; congruence.
  - rewrite main_sweep_cons.
    set (w1 := sent env w (fetch (location args) name)).
    assert (Hw1 : trace w1 = (trace w ++ fetches (location args) [name])%list)
      by reflexivity.
    assert (Hc1 : clock w <= clock w1) by (simpl; lia).
    assert (Hstop : forall extra, silent extra ->
              exists k extra',
                (0 < k <= List.length (name :: todo))%nat /\
                trace (printed w1 extra)
                = (trace w ++ fetches (location args) (firstn k (name :: todo))
                     ++ extra')%list /\
                silent extra').
    { intros extra Hs. exists 1%nat, extra. split; [simpl; lia|].
      split; [|exact Hs]. simpl. rewrite <- app_assoc. reflexivity. }
    assert (Hstop0 : exists k extra',
                (0 < k <= List.length (name :: todo))%nat /\
                trace w1
                = (trace w ++ fetches (location args) (firstn k (name :: todo))
                     ++ extra')%list /\
                silent extra').
    { destruct (Hstop [] (Forall_nil _)) as (k & e' & H1 & H2 & H3).
      exists k, e'. split; [exact H1|]. split; [|exact H3].
      rewrite <- H2. simpl. now rewrite app_nil_r. }
    assert (Hgo : forall pending0,
              (exists keep, pending0 = filter keep pending) ->
              match main_sweep env args todo pending0 w1 with
              | Ok pending' w' =>
                  trace w'
                  = (trace w ++ fetches (location args) (name :: todo))%list /\
                  clock w <= clock w' /\
                  exists keep, pending' = filter keep pending
              | SysExit _ w' | Raised _ w' =>
                  exists k extra,
                    (0 < k <= List.length (name :: todo))%nat /\
                    trace w'
                    = (trace w
                         ++ fetches (location args) (firstn k (name :: todo))
                         ++ extra)%list /\
                    silent extra
              | Unmodelled | OutOfFuel => False
              end).
    { intros pending0 (keep0 & Hk0). specialize (IH pending0 w1).
      destruct (main_sweep env args todo pending0 w1)
        as [p' w'|c w'|e w'| |]; try exact IH.
      - destruct IH as (Ht & Hc & keep & Hk). split.
        + rewrite Ht, Hw1. rewrite <- app_assoc. reflexivity.
        + split; [lia|]. subst. rewrite filter_filter. eauto.
      - destruct IH as (k & extra & Hk & Ht & Hs).
        exists (S k), extra. split; [simpl; lia|]. split; [|exact Hs].
        rewrite Ht, Hw1. simpl. rewrite <- app_assoc. reflexivity.
      - destruct IH as (k & extra & Hk & Ht & Hs).
        exists (S k), extra. split; [simpl; lia|]. split; [|exact Hs].
        rewrite Ht, Hw1. simpl. rewrite <- app_assoc. reflexivity. }
    fold w1.
    destruct (http_outcome_cases "GET"
                (base_url (location args) ++ "/" ++ name) w1
                (serve env w (fetch (location args) name)))
      as [(rf & -> & _)|(errs & -> & Hs & _)].
    2:{ apply Hstop. exact Hs. }
    destruct (rag_file_state rf) as [e|[state err]]; [exact Hstop0|].
    destruct (is_str state "ACTIVE").
    + destruct (set_remove name pending) as [e|p0] eqn:Erm; [exact Hstop0|].
      apply Hgo. apply set_remove_result in Erm. eauto.
    + destruct (is_str state "ERROR").
      * apply Hstop. unfold error_report. repeat constructor.
      * apply Hgo. exists (fun _ => true).
        clear. induction pending; simpl; congruence.
Qed.

Lemma http_outcome_success :
  forall method url w1 r j,
    success r j -> http_outcome method url w1 r = Ok j w1.
Proof.
  intros method url w1 r j (st & text & -> & Hst). simpl.
  replace ((200 <=? st) && (st <? 300)) with true; [reflexivity|].
  symmetry. apply andb_true_iff. split; [apply Z.leb_le|apply Z.ltb_lt]; lia.
Qed.

(** One turn of the activation loop. *)
Lemma main_activation_loop_step :
  forall fuel args rf_deadline p ps w,
    main_activation_loop env (S fuel) args rf_deadline (p :: ps) w
    = if clock w <? rf_deadline then
        match main_sweep env args (p :: ps) (p :: ps) w with
        | Ok pending' w1 =>
            match pending' with
            | [] => main_activation_loop env fuel args rf_deadline [] w1
            | _ :: _ =>
                if poll_seconds args <? 0
                then Raised ValueError (printed w1 [EvOut "Not Complete"])
                else main_activation_loop env fuel args rf_deadline pending'
                       (slept (printed w1 [EvOut "Not Complete"])
                          (poll_seconds args))
            end
        | SysExit c w1 => SysExit c w1
        | Raised e w1 => Raised e w1
        | Unmodelled => Unmodelled
        | OutOfFuel => OutOfFuel
        end
      else Ok (p :: ps) w.
Proof.
  intros fuel args rf_deadline p ps w.
  cbn [main_activation_loop]. unfold bind at 1. unfold time_time.
  destruct (clock w <? rf_deadline); [|reflexivity].
  unfold bind at 1.
  destruct (main_sweep env args (p :: ps) (p :: ps) w)
    as [pending' w1| | | |]; try reflexivity.
  destruct pending' as [|q qs]; [reflexivity|].
  unfold bind, print, log, time_sleep, emit. simpl.
  destruct (poll_seconds args <? 0); reflexivity.
Qed.



(** C7, as the code has it.  The pending set starts as the Python set of
    the discovered names, which holds each discovered name once, in the
    order of the set and not of the listing.  Every sweep fetches the
    pending names in the order in which the set iterates: a sweep always
    ends, what it has fetched when it ends is a prefix of that order,
    all of it if the sweep returns, and the names left pending keep
    their order. *)
Theorem sweep_fetches_in_set_order :
  forall (order : SetOrder) args names pending w,
    (NoDup (set_iter names) /\ forall n, In n (set_iter names) <-> In n names) /\
    exists t k,
      final_trace (main_sweep env args pending pending w) = Some t /\
      (k <= List.length pending)%nat /\
      requests t
      = (requests (trace w) ++ map (fetch (location args)) (firstn k pending))%list /\
      forall pending' w',
        main_sweep env args pending pending w = Ok pending' w' ->
        k = List.length pending /\ exists keep, pending' = filter keep pending.
Proof.
  intros order args names pending w.
  split; [split; [apply set_iter_NoDup|apply set_iter_In]|].
  pose proof (main_sweep_shape args pending pending w) as Hsw.
  destruct (main_sweep env args pending pending w)
    as [p' w1|c w1|e w1| |]; try contradiction.
  - destruct Hsw as (Htr & _ & keep & Hkeep).
    exists (trace w1), (List.length pending).
    split; [reflexivity|]. split; [lia|]. split.
    + rewrite Htr, requests_app, requests_fetches, firstn_all. reflexivity.
    + intros pending' w' E. injection E as <- <-. split; [reflexivity|eauto].
  - destruct Hsw as (k & extra & Hk & Htr & Hs).
    exists (trace w1), k. split; [reflexivity|].
    split; [lia|]. split; [|discriminate].
    rewrite Htr, !requests_app, requests_fetches, (requests_silent _ Hs).
    now rewrite app_nil_r.
  - destruct Hsw as (k & extra & Hk & Htr & Hs).
    exists (trace w1), k. split; [reflexivity|].
    split; [lia|]. split; [|discriminate].
    rewrite Htr, !requests_app, requests_fetches, (requests_silent _ Hs).
    now rewrite app_nil_r.
Qed.

Lemma main_sweep_error :
  forall args pre name post replies reply rf state err pending w,
    answers_in_order env w (replies ++ [reply]) ->
    List.length replies = List.length pre ->
    Forall not_in_error replies ->
    success reply rf ->
    rag_file_state rf = inr (state, err) ->
    is_str state "ERROR" = true ->
    NoDup (pre ++ name :: post) ->
    incl (pre ++ name :: post) pending ->
    exists w',
      main_sweep env args (pre ++ name :: post) pending w = SysExit 1 w' /\
      trace w'
      = (trace w ++ fetches (location args) (pre ++ [name])
           ++ error_report name rf err)%list.
Proof.
  intros args pre.
  induction pre as [|n pre IH];
    intros name post replies reply rf state err pending w
           Hans Hlen Hpre Hrep Hst Herr Hnd Hincl.
  - destruct replies; [|discriminate]. cbn [app] in Hans |- *.
    rewrite main_sweep_cons.
    rewrite (answers_head env w reply [] _ Hans).
    rewrite (http_outcome_success _ _ _ _ _ Hrep), Hst.
    destruct state; try discriminate. simpl in Herr.
    apply String.eqb_eq in Herr. subst. simpl.
    eexists. split; [reflexivity|]. simpl. rewrite <- app_assoc. reflexivity.
  - destruct replies as [|r replies]; [discriminate|].
    apply Forall_cons_iff in Hpre as [(rf0 & st0 & er0 & Hs0 & Hst0 & Hne) Hpre].
    cbn [app] in *. rewrite main_sweep_cons.
    rewrite (answers_head env w r _ _ Hans).
    rewrite (http_outcome_success _ _ _ _ _ Hs0), Hst0, Hne.
    apply NoDup_cons_iff in Hnd as [Hn Hnd].
    assert (Hans' : answers_in_order env (sent env w (fetch (location args) n))
                      (replies ++ [reply]))
      by (eapply answers_after_sent; eauto).
    assert (Hlen' : List.length replies = List.length pre)
      by (simpl in Hlen; lia).
    assert (Hfin : forall pending0,
              incl (pre ++ name :: post) pending0 ->
              exists w',
                main_sweep env args (pre ++ name :: post) pending0
                  (sent env w (fetch (location args) n)) = SysExit 1 w' /\
                trace w'
                = (trace w ++ fetches (location args) (n :: pre ++ [name])
                     ++ error_report name rf err)%list).
    { intros pending0 Hinc0.
      destruct (IH name post replies reply rf state err pending0 _
                  Hans' Hlen' Hpre Hrep Hst Herr Hnd Hinc0) as (w' & Hrun & Htr).
      exists w'. split; [exact Hrun|]. rewrite Htr. simpl.
      rewrite <- app_assoc. reflexivity. }
    destruct (is_str st0 "ACTIVE").
    + rewrite set_remove_member by (apply Hincl; now left).
      apply Hfin. intros x Hx. apply In_removed. split.
      * apply Hincl. now right.
      * intros ->. contradiction.
    + apply Hfin. intros x Hx. apply Hincl. now right.
Qed.

(** C4.  In a sweep over the pending names [pre ++ name :: post], let the
    records of [pre] come back in any state but ERROR and the record of
    [name] come back in state ERROR with the detail [err].  Then the
    sweep ends the process at once with status 1: it reports [name],
    the detail and the record; the calls made are the fetches of [pre]
    and of [name] and no other, so no name of [post] is fetched or
    classified, whatever its state is; and the activation loop, entered
    before its deadline, ends in the same way. *)
Theorem sweep_aborts_on_error :
  forall args pre name post replies reply rf state err w,
    answers_in_order env w (replies ++ [reply]) ->
    List.length replies = List.length pre ->
    Forall not_in_error replies ->
    success reply rf ->
    rag_file_state rf = inr (state, err) ->
    is_str state "ERROR" = true ->
    NoDup (pre ++ name :: post) ->
    exists w',
      main_sweep env args (pre ++ name :: post) (pre ++ name :: post) w
        = SysExit 1 w' /\
      trace w'
      = (trace w ++ fetches (location args) (pre ++ [name])
           ++ error_report name rf err)%list /\
      requests (trace w')
      = (requests (trace w) ++ map (fetch (location args)) (pre ++ [name]))%list /\
      forall fuel rf_deadline,
        clock w < rf_deadline ->
        main_activation_loop env (S fuel) args rf_deadline
          (pre ++ name :: post) w = SysExit 1 w'.
Proof.
  intros args pre name post replies reply rf state err w
         Hans Hlen Hpre Hrep Hst Herr Hnd.
  destruct (main_sweep_error args pre name post replies reply rf state err
              (pre ++ name :: post) w Hans Hlen Hpre Hrep Hst Herr Hnd
              (incl_refl _)) as (w' & Hrun & Htr).
  exists w'. split; [exact Hrun|]. split; [exact Htr|]. split.
  - rewrite Htr, !requests_app, requests_fetches.
    unfold error_report. simpl. now rewrite app_nil_r.
  - intros fuel rf_deadline Hdl.
    destruct (pre ++ name :: post)%list as [|p ps] eqn:E.
    + destruct pre; discriminate.
    + rewrite main_activation_loop_step.
      apply Z.ltb_lt in Hdl. rewrite Hdl, Hrun. reflexivity.
Qed.

End Sweeps.

(** ** Polling the operation *)

Section Poller.

Import ImportAndWait.
Context (env : Env).

Lemma verdict_completed_iff :
  forall s,
    verdict s = COMPLETED <->
    done s = true /\ error s = None /\ failed_count s = 0
    /\ partial_failures s = [].
Proof.
  intros [d e r n pf]. unfold verdict. simpl. split.
  - destruct d; simpl; [|discriminate].
    destruct e; [discriminate|]. destruct pf; [|discriminate].
    destruct (n =? 0) eqn:E; [|discriminate].
    apply Z.eqb_eq in E. auto.
  - intros (-> & -> & -> & ->). reflexivity.
Qed.

(** How the code reads a payload that stands for the snapshot [s]. *)
Lemma decode_reads :
  forall op s,
    decode op = Some s ->
    exists d e r c,
      get_default op "done" (JBool false) = inr d /\ truthy d = done s /\
      get op "error" = inr e /\
      match error s with
      | Some e' => e = e' /\ truthy e = true
      | None => truthy e = false
      end /\
      get op "response" = inr r /\ por r (JObj []) = response s /\
      get_default (response s) "failedRagFilesCount" (JStr "0") = inr c /\
      py_int c = inr (failed_count s) /\ 0 <= failed_count s /\
      extract_partial_failures op = inr (JArr (partial_failures s)).
Proof.
  intros op s H. destruct op as [| | | | | |m]; try discriminate.
  simpl in H.
  destruct (decode_error (field "error" m)) as [e|] eqn:Ee; [|discriminate].
  destruct (decode_response (field "response" m)) as [[resp n]|] eqn:Er;
    [|discriminate].
  destruct (decode_partial (field "metadata" m)) as [pf|] eqn:Ep;
    [|discriminate].
  injection H as <-. simpl.
  exists (match lookup "done" m with Some v => v | None => JBool false end),
         (field "error" m), (field "response" m).
  assert (Hc : exists c,
             get_default resp "failedRagFilesCount" (JStr "0") = inr c /\
             py_int c = inr n /\ 0 <= n /\
             por (field "response" m) (JObj []) = resp).
  { unfold decode_response in Er.
    destruct (field "response" m) as [| | | | | |rm]; try discriminate.
    - injection Er as <- <-. exists (JStr "0"). repeat split. lia.
    - simpl. destruct (lookup "failedRagFilesCount" rm) as [c|] eqn:El.
      + destruct (py_int c) as [|k] eqn:Ek; [discriminate|].
        destruct (0 <=? k) eqn:E0; [|discriminate].
        injection Er as <- <-. exists c. simpl. rewrite El.
        apply Z.leb_le in E0. repeat split; auto.
        unfold por. simpl. destruct rm; reflexivity.
      + injection Er as <- <-. exists (JStr "0"). simpl. rewrite El.
        repeat split; [lia|]. unfold por. simpl. destruct rm; reflexivity. }
  destruct Hc as (c & Hc1 & Hc2 & Hc3 & Hc4).
  exists c.
  split; [unfold get_default; reflexivity|].
  split; [destruct (lookup "done" m); reflexivity|].
  split; [reflexivity|].
  split.
  { unfold decode_error in Ee.
    destruct (field "error" m) eqn:Ef; simpl in Ee |- *;
      try (injection Ee as <-; reflexivity);
      match type of Ee with
      | (if ?b then _ else _) = _ =>
          destruct b eqn:Eb; [injection Ee as <-; auto|discriminate]
      end. }
  split; [reflexivity|].
  split; [exact Hc4|].
  split; [exact Hc1|].
  split; [exact Hc2|].
  split; [exact Hc3|].
  unfold extract_partial_failures, and_then, get, get_default.
  fold (field "metadata" m).
  unfold decode_partial in Ep.
  destruct (field "metadata" m) as [| | | | | |mm]; try discriminate.
  - injection Ep as <-. reflexivity.
  - assert (Hmm : por (JObj mm) (JObj []) = JObj mm)
      by (unfold por; simpl; destruct mm; reflexivity).
    rewrite Hmm. fold (field "genericMetadata" mm).
    destruct (field "genericMetadata" mm) as [| | | | | |g]; try discriminate.
    + injection Ep as <-. reflexivity.
    + assert (Hg : por (JObj g) (JObj []) = JObj g)
        by (unfold por; simpl; destruct g; reflexivity).
      rewrite Hg. fold (field "partialFailures" g).
      destruct (field "partialFailures" g) as [| | | | |l|]; try discriminate.
      * injection Ep as <-. reflexivity.
      * injection Ep as <-. unfold por. simpl. destruct l; reflexivity.
Qed.

Lemma main_poll_loop_expired :
  forall fuel args op_name deadline w,
    deadline <= clock w ->
    main_poll_loop env (S fuel) args op_name deadline w
    = SysExit 1 (printed w (timeout_report args)).
Proof.
  intros fuel args op_name deadline w H.
  cbn [main_poll_loop]. unfold bind at 1. unfold time_time.
  apply Z.ltb_ge in H. rewrite H.
  unfold bind, print, log, sys_exit, emit, printed, timeout_report. simpl.
  rewrite <- app_assoc. reflexivity.
Qed.

Lemma main_poll_loop_snapshot :
  forall fuel args op_name deadline w op s,
    clock w < deadline ->
    success (serve env w (operation_request args op_name)) op ->
    decode op = Some s ->
    let w1 := sent env w (operation_request args op_name) in
    main_poll_loop env (S fuel) args op_name deadline w
    = match verdict s with
      | POLLING =>
          if poll_seconds args <? 0
          then Raised ValueError (printed w1 [EvOut "Not Complete"])
          else main_poll_loop env fuel args op_name deadline
                 (slept (printed w1 [EvOut "Not Complete"])
                    (poll_seconds args))
      | COMPLETED => Ok tt (printed w1 [EvOut "Complete"; success_line])
      | FAILED =>
          SysExit 1 (printed w1 (EvOut "Complete" :: failure_report s))
      end.
Proof.
  intros fuel args op_name deadline w op s Hdl Hok Hdec w1.
  destruct (decode_reads op s Hdec)
    as (d & e & r & c & Hd & Htd & He & Hte & Hr & Hpor & Hc & Hint & Hn & Hpf).
  cbn [main_poll_loop]. unfold bind at 1. unfold time_time.
  apply Z.ltb_lt in Hdl. rewrite Hdl.
  unfold bind at 1. unfold get_operation.
  rewrite (http_json_GET_success env _ _ _ _ Hok).
  fold (operation_request args op_name). fold w1.
  unfold bind at 1. rewrite Hd. cbn [eval ret]. rewrite Htd.
  unfold verdict.
  destruct (done s); cbn [negb].
  2:{ unfold bind, print, log, time_sleep, emit, printed, slept. simpl.
      destruct (poll_seconds args <? 0); reflexivity. }
  unfold bind at 1. unfold print at 1, log at 1.
  unfold bind at 1. rewrite He. cbn [eval ret].
  destruct (error s) as [e'|] eqn:Ees.
  - destruct Hte as [-> Hte]. rewrite Hte.
    unfold bind, print, print_json, log, sys_exit, emit, printed,
      failure_report. rewrite Ees. simpl. rewrite <- !app_assoc. reflexivity.
  - rewrite Hte.
    unfold bind at 1. rewrite Hr. cbn [eval ret]. rewrite Hpor.
    unfold bind at 1. rewrite Hc. cbn [eval ret].
    unfold bind at 1. rewrite Hint. cbn [eval ret].
    unfold bind at 1. rewrite Hpf. cbn [eval ret].
    unfold failure_report. rewrite Ees.
    destruct (partial_failures s) as [|p ps] eqn:Epf.
    + cbn [truthy]. rewrite orb_false_r.
      destruct (failed_count s =? 0) eqn:E0.
      * apply Z.eqb_eq in E0. rewrite E0. cbn [Z.gtb Z.compare].
        unfold print, log, emit, printed, success_line. simpl.
        rewrite <- !app_assoc. reflexivity.
      * apply Z.eqb_neq in E0.
        replace (failed_count s >? 0) with true
          by (symmetry; apply Z.gtb_lt; lia).
        unfold bind, print, print_json, log, sys_exit, emit, printed, ret.
        simpl. rewrite <- !app_assoc. reflexivity.
    + cbn [truthy]. rewrite orb_true_r.
      unfold bind, print, print_json, log, sys_exit, emit, printed, ret.
      simpl. rewrite <- !app_assoc. reflexivity.
Qed.

Lemma main_poll_loop_never_done :
  forall args op_name deadline fuel w,
    0 < poll_seconds args ->
    never_done env args op_name deadline ->
    (Z.to_nat (deadline - clock w) < fuel)%nat ->
    exists w' n,
      main_poll_loop env fuel args op_name deadline w = SysExit 1 w' /\
      deadline <= clock w' /\
      trace w'
      = (trace w ++ rounds n (waiting_round args op_name)
           ++ timeout_report args)%list.
Proof.
  intros args op_name deadline fuel.
  induction fuel as [|fuel IH]; intros w Hpoll Hnd Hfuel; [lia|].
  destruct (Z_lt_le_dec (clock w) deadline) as [Hlt|Hge].
  - destruct (Hnd w Hlt) as (op & s & Hok & Hdec & Hdone).
    rewrite (main_poll_loop_snapshot fuel args op_name deadline w op s
               Hlt Hok Hdec).
    unfold verdict. rewrite Hdone. cbn [negb].
    replace (poll_seconds args <? 0) with false
      by (symmetry; apply Z.ltb_ge; lia).
    set (w2 := slept _ _).
    assert (Hc2 : clock w + 1 <= clock w2) by (subst w2; simpl; lia).
    destruct (IH w2 Hpoll Hnd) as (w' & n & Hrun & Hcl & Htr); [lia|].
    exists w', (S n). split; [exact Hrun|]. split; [exact Hcl|].
    rewrite Htr. subst w2. unfold waiting_round. simpl.
    rewrite <- !app_assoc. reflexivity.
  - rewrite (main_poll_loop_expired fuel args op_name deadline w Hge).
    exists (printed w (timeout_report args)), 0%nat.
    split; [reflexivity|]. split; [simpl; lia|]. reflexivity.
Qed.

(** C3.  One turn of the poller, in the world [w].
    - Past the deadline it ends the process with status 1 and the
      timeout report, without a further fetch.
    - Before the deadline it fetches the operation.  A snapshot that is
      done completes the poller (the loop is left, and the discovery of
      the resources follows) exactly when the error is absent, the
      failed-item count is zero and there is no partial failure; any
      other done snapshot ends the process at once with status 1 and the
      report of what was found (the error, or else the response and the
      partial failures); a snapshot that is not done makes the poller
      print a line, sleep one poll interval and poll again.
    - If the operation is never done, the poller fetches and sleeps
      until the deadline has passed and then ends the process with
      status 1 and the timeout report. *)
Theorem poller_follows_snapshots :
  forall args op_name deadline fuel w,
    (deadline <= clock w ->
     main_poll_loop env (S fuel) args op_name deadline w
     = SysExit 1 (printed w (timeout_report args))) /\
    (forall op s,
        clock w < deadline ->
        success (serve env w (operation_request args op_name)) op ->
        decode op = Some s ->
        let w1 := sent env w (operation_request args op_name) in
        (verdict s = COMPLETED <->
         done s = true /\ error s = None /\ failed_count s = 0
         /\ partial_failures s = []) /\
        (verdict s = POLLING <-> done s = false) /\
        match verdict s with
        | COMPLETED =>
            main_poll_loop env (S fuel) args op_name deadline w
            = Ok tt (printed w1 [EvOut "Complete"; success_line])
        | FAILED =>
            main_poll_loop env (S fuel) args op_name deadline w
            = SysExit 1 (printed w1 (EvOut "Complete" :: failure_report s))
        | POLLING =>
            0 <= poll_seconds args ->
            main_poll_loop env (S fuel) args op_name deadline w
            = main_poll_loop env fuel args op_name deadline
                (slept (printed w1 [EvOut "Not Complete"])
                   (poll_seconds args))
        end) /\
    (0 < poll_seconds args ->
     never_done env args op_name deadline ->
     (Z.to_nat (deadline - clock w) < fuel)%nat ->
     exists w' n,
       main_poll_loop env fuel args op_name deadline w = SysExit 1 w' /\
       deadline <= clock w' /\
       trace w'
       = (trace w ++ rounds n (waiting_round args op_name)
            ++ timeout_report args)%list).
Proof.
  intros args op_name deadline fuel w. split; [|split].
  - apply main_poll_loop_expired.
  - intros op s Hlt Hok Hdec w1.
    split; [apply verdict_completed_iff|]. split.
    + unfold verdict. destruct (done s); cbn [negb].
      * split; [|discriminate].
        destruct (error s), (partial_failures s);
          try destruct (failed_count s =? 0); discriminate.
      * split; reflexivity.
    + pose proof (main_poll_loop_snapshot fuel args op_name deadline w op s
                    Hlt Hok Hdec) as H.
      cbv zeta in H. fold w1 in H.
      destruct (verdict s); try exact H.
      intros Hp. rewrite H.
      replace (poll_seconds args <? 0) with false
        by (symmetry; apply Z.ltb_ge; lia).
      reflexivity.
  - apply main_poll_loop_never_done.
Qed.

End Poller.

(** ** Discovery of the resources *)

Section Discovery.

Import ImportAndWait.
Context (env : Env) {order : SetOrder}.

(** A listing that returns has only asked for pages of the listing, at
    least once, and the clock has not gone back. *)
Lemma list_rag_files_loop_shape :
  forall fuel url acc tok w l w',
    list_rag_files_loop env fuel url acc tok w = Ok l w' ->
    exists reqs,
      reqs <> [] /\
      trace w' = (trace w ++ map EvHttp reqs)%list /\
      Forall (is_listing url) reqs /\
      clock w <= clock w'.
Proof.
  induction fuel as [|fuel IH]; intros url acc tok w l w' Hrun;
    [discriminate|].
  cbn [list_rag_files_loop] in Hrun. unfold bind at 1 in Hrun.
  rewrite http_json_GET in Hrun.
  set (rq := GET url (if truthy tok then JObj [("pageToken", tok)]
                      else JNull)) in *.
  destruct (http_outcome_cases "GET" url (sent env w rq) (serve env w rq))
    as [(j & E & _)|(errs & E & _)]; rewrite E in Hrun; [|discriminate].
  unfold bind at 1 in Hrun.
  destruct (get_default j "ragFiles" (JArr [])) as [?|files];
    [discriminate|].
  cbn [eval ret] in Hrun. unfold bind at 1 in Hrun.
  destruct (py_iter files) as [?|items]; [discriminate|].
  cbn [eval ret] in Hrun. unfold bind at 1 in Hrun.
  destruct (get j "nextPageToken") as [?|tok']; [discriminate|].
  cbn [eval ret] in Hrun.
  assert (Hrq : is_listing url rq) by (eexists; reflexivity).
  destruct (negb (truthy tok')).
  - injection Hrun as <- <-. exists [rq]. split; [discriminate|].
    split; [reflexivity|]. split; [now constructor|]. simpl. lia.
  - apply IH in Hrun as (reqs & _ & Htr & Hall & Hcl).
    exists (rq :: reqs). split; [discriminate|]. split.
    + rewrite Htr. simpl. rewrite <- app_assoc. reflexivity.
    + split; [now constructor|]. simpl in Hcl. lia.
Qed.

Lemma main_discovery_loop_empty :
  forall args rf_deadline pages fuel w,
    0 < poll_seconds args ->
    always_empty env args rf_deadline pages ->
    (pages + Z.to_nat (rf_deadline - clock w) < fuel)%nat ->
    exists w' listings,
      main_discovery_loop env fuel args rf_deadline w = Ok [] w' /\
      rf_deadline <= clock w' /\
      trace w' = (trace w ++ listing_rounds args listings)%list /\
      Forall (fun reqs =>
                reqs <> [] /\
                Forall (is_listing (list_url (location args) (corpus args)))
                       reqs) listings.
Proof.
  intros args rf_deadline pages fuel.
  induction fuel as [|fuel IH]; intros w Hpoll Hemp Hfuel; [lia|].
  cbn [main_discovery_loop]. unfold bind at 1. unfold time_time.
  destruct (Z.ltb_spec (clock w) rf_deadline) as [Hlt|Hge].
  - destruct (Hemp w (S fuel) Hlt) as (l & w1 & Hlist & Hnames); [lia|].
    unfold bind at 1. rewrite Hlist.
    unfold bind at 1. rewrite Hnames. cbn [eval ret].
    unfold list_rag_files in Hlist.
    apply list_rag_files_loop_shape in Hlist as (reqs & Hne & Htr & Hall & Hcl).
    unfold bind, print, log, time_sleep, emit. simpl.
    replace (poll_seconds args <? 0) with false
      by (symmetry; apply Z.ltb_ge; lia).
    set (w2 := mkWorld _ _).
    assert (Hc2 : clock w + 1 <= clock w2) by (subst w2; simpl; lia).
    destruct (IH w2 Hpoll Hemp) as (w' & listings & Hrun & Hdl & Htr' & Hls);
      [lia|].
    exists w', (reqs :: listings). split; [exact Hrun|].
    split; [exact Hdl|]. split.
    + rewrite Htr'. subst w2. simpl. rewrite Htr.
      rewrite <- !app_assoc. reflexivity.
    + constructor; [split; assumption|exact Hls].
  - exists w, []. split; [reflexivity|]. split; [exact Hge|].
    split; [simpl; now rewrite app_nil_r|constructor].
Qed.

(** C5.  Let the tracker start in the world [w], the poll interval being
    positive, and let every listing made before the discovery deadline
    be empty.  Then the tracker lists, writes a line and sleeps one poll
    interval, again and again, until the deadline has passed; it then
    ends the process with status 1, reporting that no resource was found
    in the corpus.  All its calls are calls of the listing: no resource
    is fetched, the activation phase is not entered. *)
Theorem discovery_times_out :
  forall args pages fuel w,
    0 < poll_seconds args ->
    always_empty env args (clock w + timeout_minutes args * 60) pages ->
    (pages + Z.to_nat (timeout_minutes args * 60) < fuel)%nat ->
    exists w' listings,
      main_wait_rag_files env fuel args w = SysExit 1 w' /\
      clock w + timeout_minutes args * 60 <= clock w' /\
      trace w'
      = (trace w ++ [EvOut "Waiting for RagFiles to appear..."]
           ++ listing_rounds args listings
           ++ discovery_failure args)%list /\
      Forall (fun reqs =>
                reqs <> [] /\
                Forall (is_listing (list_url (location args) (corpus args)))
                       reqs) listings.
Proof.
  intros args pages fuel w Hpoll Hemp Hfuel.
  unfold main_wait_rag_files.
  unfold bind at 1. unfold print at 1, log at 1.
  unfold bind at 1. unfold time_time at 1. cbn [clock emit].
  unfold bind at 1.
  set (w0 := emit (EvOut "Waiting for RagFiles to appear...") w).
  destruct (main_discovery_loop_empty args
              (clock w + timeout_minutes args * 60) pages fuel w0
              Hpoll Hemp) as (w1 & listings & Hrun & Hdl & Htr & Hls).
  { subst w0. simpl.
    replace (clock w + timeout_minutes args * 60 - clock w)
      with (timeout_minutes args * 60) by lia.
    exact Hfuel. }
  rewrite Hrun.
  unfold exit_with_error, bind, eprint, eprint_json, log, sys_exit, emit.
  simpl.
  eexists. exists listings. split; [reflexivity|].
  split; [exact Hdl|]. split; [|exact Hls].
  simpl. rewrite Htr. subst w0. simpl. unfold discovery_failure.
  rewrite <- !app_assoc. reflexivity.
Qed.

End Discovery.

(** ** The sink scripts against the workflow *)

Section SinkScripts.

(** In [import_with_sink_chunked.py] the printing of the sink leaves the
    exit status alone: when the subprocesses can be started, the status
    of a run is the same whatever they return. *)
Lemma chunked_sink_report_returns :
  forall env sink w,
    launches env ->
    exists w', ImportWithSinkChunked.main_sink_report env sink w = Ok tt w'.
Proof.
  intros env sink w Hl.
  unfold ImportWithSinkChunked.main_sink_report, bind, print, log, run.
  destruct (spawn env _ _) as [ls|] eqn:E1; [|now apply Hl in E1].
  destruct (spawn env _ _) as [cat|] eqn:E2 in |- *; [|now apply Hl in E2].
  eexists. reflexivity.
Qed.

Lemma chunked_poll_loop_ignores_sink :
  forall env1 env2 fuel args sink op_url deadline w,
    same_service env1 env2 ->
    launches env1 ->
    launches env2 ->
    exit_status (fun code => code)
      (ImportWithSinkChunked.main_poll_loop env1 fuel args sink op_url
         deadline w)
    = exit_status (fun code => code)
        (ImportWithSinkChunked.main_poll_loop env2 fuel args sink op_url
           deadline w).
Proof.
  intros env1 env2 fuel args sink op_url deadline w [Hs Ht] Hl1 Hl2.
  revert w. induction fuel as [|fuel IH]; intros w; [reflexivity|].
  cbn [ImportWithSinkChunked.main_poll_loop].
  unfold bind, time_time, session_request.
  destruct (clock w <? deadline); [|reflexivity].
  cbv beta. rewrite (Hs w), (Ht w).
  destruct (serve env2 w (GET op_url JNull)) as [e|st text [op|]];
    try reflexivity.
  cbn [ret]. cbv beta.
  destruct (eval (get_default op "done" (JBool false)) _)
    as [d w1| | | |] eqn:Ed; try reflexivity.
  destruct (negb (truthy d)).
  - destruct (print "Not Complete" w1) as [u w2| | | |]; try reflexivity.
    destruct (time_sleep _ w2) as [u' w3| | | |]; try reflexivity.
    apply IH.
  - destruct (print "Complete" w1) as [u w2| | | |]; try reflexivity.
    destruct (ImportWithSinkChunked.main_result op w2)
      as [u' w3| | | |]; try reflexivity.
    destruct (chunked_sink_report_returns env1 sink w3 Hl1) as [wa ->].
    destruct (chunked_sink_report_returns env2 sink w3 Hl2) as [wb ->].
    unfold eval.
    destruct (ImportWithSinkChunked.main_final_code op); reflexivity.
Qed.

(** X17.  In [import_with_sink_chunked.py] what the commands that show
    the sink return never changes the exit status: two runs against the
    same service, with subprocesses that can be started, end with the
    same status. *)
Lemma chunked_main_ignores_sink :
  forall env1 env2 fuel args w,
    same_service env1 env2 ->
    launches env1 ->
    launches env2 ->
    exit_status (fun code => code) (ImportWithSinkChunked.main env1 fuel args w)
    = exit_status (fun code => code)
        (ImportWithSinkChunked.main env2 fuel args w).
Proof.
  intros env1 env2 fuel args w Hsame Hl1 Hl2.
  unfold ImportWithSinkChunked.main.
  destruct (negb (startswith _ "gs://")); [reflexivity|].
  destruct Hsame as [Hs Ht].
  unfold bind, time_time, session_request, print, log, eval.
  unfold ret, raise.
  rewrite (Hs w), (Ht w).
  destruct (serve env2 w _) as [e|st text body]; [reflexivity|].
  destruct (st >=? 400); [reflexivity|].
  destruct body as [op|]; [|reflexivity].
  destruct (get op "name") as [e|op_name]; [reflexivity|].
  cbv beta iota.
  destruct (negb (truthy op_name)); [reflexivity|].
  destruct op_name; try reflexivity.
  apply chunked_poll_loop_ignores_sink; [split|..]; assumption.
Qed.

(** In the plain script a read call that does not come back with a
    success status and a JSON payload ends the process with status 1:
    after the call, only lines on the standard error stream follow. *)
Lemma http_json_failure_exits :
  forall env url params w,
    (forall j, ~ success (serve env w (GET url params)) j) ->
    exists errs,
      ImportAndWait.http_json env "GET" url JNull params w
      = SysExit 1 (printed (sent env w (GET url params)) errs) /\
      silent errs.
Proof.
  intros env url params w Hfail. rewrite http_json_GET.
  destruct (http_outcome_cases "GET" url (sent env w (GET url params))
              (serve env w (GET url params)))
    as [(j & _ & Hj)|(errs & E & Hs & _)].
  - now apply Hfail in Hj.
  - exists errs. split; assumption.
Qed.

(** In the plain script a done snapshot without error, with partial
    failures, ends the process with status 1 whatever the count is. *)
Lemma plain_script_fails_on_partial_failures :
  forall env fuel args op_name deadline w op s,
    clock w < deadline ->
    success (serve env w (operation_request args op_name)) op ->
    decode op = Some s ->
    done s = true -> error s = None -> partial_failures s <> [] ->
    ImportAndWait.main_poll_loop env (S fuel) args op_name deadline w
    = SysExit 1
        (printed (sent env w (operation_request args op_name))
           (EvOut "Complete" :: failure_report s)).
Proof.
  intros env fuel args op_name deadline w op s Hlt Hok Hdec Hd He Hpf.
  rewrite (main_poll_loop_snapshot env fuel args op_name deadline w op s
             Hlt Hok Hdec).
  unfold verdict. rewrite Hd, He. cbn [negb].
  destruct (partial_failures s); [contradiction|reflexivity].
Qed.

(** C1, on the code.  The operation is done, without error, with a zero
    failed-item count and one partial failure.  The plain script ends
    with status 1.  The two sink scripts write the line that classifies
    the import as failed and then end with status 0: their final
    [return] looks at the error and at the count only. *)
Theorem sink_scripts_exit_zero_on_partial_failures :
  let env := Script.env [started; Script.ok op_partial] 1 sink_readable in
  let plain := ImportAndWait.main (order := Script.listing_order)
                 env 5 plain_args Script.boot in
  let sink := ImportWithSink.main env 5 sink_args Script.boot in
  let chunked := ImportWithSinkChunked.main env 5 chunked_args Script.boot in
  (prints "Result: FAILED (import reported failures)" plain = true /\
   exit_status (fun _ => 0) plain = Some 1) /\
  (prints "Result: FAILED (import reported failures)" sink = true /\
   exit_status (fun code => code) sink = Some 0) /\
  (prints "Result: FAILED (import reported failures)" chunked = true /\
   exit_status (fun code => code) chunked = Some 0).
Proof. vm_compute. repeat split. Qed.

(** C2, on the code.  The operation is done and clean.  With a sink that
    can be listed, [import_with_sink.py] ends with status 0; when
    [gsutil ls] ends with a non-zero status it ends with status 1, by
    the early [return 1] of the listing step, although the listing is
    meant as best effort.  [import_with_sink_chunked.py] ends with
    status 0 in both cases. *)
Theorem sink_listing_failure_changes_exit_code :
  let readable := Script.env [started; Script.ok op_clean] 1 sink_readable in
  let unreadable :=
    Script.env [started; Script.ok op_clean] 1 sink_unreadable in
  exit_status (fun code => code)
    (ImportWithSink.main readable 5 sink_args Script.boot) = Some 0 /\
  exit_status (fun code => code)
    (ImportWithSink.main unreadable 5 sink_args Script.boot) = Some 1 /\
  prints "Result: SUCCESS (import operation completed with no reported failures)"
    (ImportWithSink.main unreadable 5 sink_args Script.boot) = true /\
  exit_status (fun code => code)
    (ImportWithSinkChunked.main readable 5 chunked_args Script.boot) = Some 0 /\
  exit_status (fun code => code)
    (ImportWithSinkChunked.main unreadable 5 chunked_args Script.boot) = Some 0.
Proof. vm_compute. repeat split. Qed.

(** C9, on the code.  The first fetch of the operation comes back with
    status 503.  The plain script and [import_with_sink.py] end at once
    with status 1, after that one fetch.  [import_with_sink_chunked.py]
    does not look at the status: it reads the body as a snapshot that is
    not done, sleeps, fetches again, and ends with status 0. *)
Theorem chunked_script_polls_on_after_http_error :
  let env := Script.env [started; unavailable; Script.ok op_clean] 1
               sink_readable in
  let op_url := "https://europe-west4-aiplatform.googleapis.com/v1beta1/operations/7" in
  let plain := ImportAndWait.main (order := Script.listing_order)
                 env 5 plain_args Script.boot in
  let sink := ImportWithSink.main env 5 sink_args Script.boot in
  let chunked := ImportWithSinkChunked.main env 5 chunked_args Script.boot in
  (exit_status (fun _ => 0) plain = Some 1 /\
   tl (requests_of plain) = [GET op_url JNull]) /\
  (exit_status (fun code => code) sink = Some 1 /\
   tl (requests_of sink) = [GET op_url JNull]) /\
  (exit_status (fun code => code) chunked = Some 0 /\
   tl (requests_of chunked) = [GET op_url JNull; GET op_url JNull] /\
   prints "Not Complete" chunked = true /\
   prints "Result: SUCCESS (import completed)" chunked = true).
Proof. vm_compute. repeat split. Qed.

End SinkScripts.

(** ** The workflow on concrete runs *)

Section ConcreteRuns.

Import ImportAndWait.

(** C7, on the code.  The listing discovers [f/a] before [f/b]; with a
    pending set that iterates as [f/b], [f/a], the sweep fetches [f/b]
    first.  The run succeeds, and the order of its fetches is not the
    order of discovery. *)
Lemma sweep_order_is_not_discovery_order :
  let run := main_wait_rag_files (order := Script.reversed_order)
               two_resources 5 plain_args Script.boot in
  let listing := GET (list_url "europe-west4" "corpora/1") JNull in
  exit_status (fun _ => 0) run = Some 0 /\
  requests_of run
  = [listing; fetch "europe-west4" "f/b"; fetch "europe-west4" "f/a"] /\
  requests_of run
  <> listing :: map (fetch "europe-west4") ["f/a"; "f/b"].
Proof.
  vm_compute. split; [reflexivity|]. split; [reflexivity|].
  intros H. discriminate H.
Qed.

(** The scenario of the design document: the operation is done and
    clean at the second poll, the listing shows two resources, and both
    are ACTIVE at the second sweep.  The script ends with status 0. *)
Example plain_script_succeeds :
  let env :=
    Script.env
      [started;
       Script.ok (JObj [("done", JBool false)]);
       Script.ok op_clean;
       Script.ok (JObj [("ragFiles", JArr [record "f/a" "PENDING";
                                           record "f/b" "PENDING"])]);
       Script.ok (record "f/a" "ACTIVE");
       Script.ok (record "f/b" "PENDING");
       Script.ok (record "f/b" "ACTIVE")] 1 [] in
  let run := main (order := Script.listing_order) env 5 plain_args
               Script.boot in
  exit_status (fun _ => 0) run = Some 0 /\
  prints "Final Result: SUCCESS (all RagFiles are ACTIVE and indexed)." run
  = true /\
  List.length (requests_of run) = 7%nat.
Proof. vm_compute. repeat split. Qed.

Lemma sweep_fetches_in_set_order_witness :
  exists t k,
    final_trace (main_sweep both_active plain_args
                   (set_iter (SetOrder := Script.reversed_order)
                             ["f/a"; "f/b"])
                   (set_iter (SetOrder := Script.reversed_order)
                             ["f/a"; "f/b"])
                   Script.boot) = Some t /\
    (k <= 2)%nat /\
    requests t = map (fetch "europe-west4") (firstn k ["f/b"; "f/a"]).
Proof.
  destruct (sweep_fetches_in_set_order both_active Script.reversed_order
              plain_args ["f/a"; "f/b"] ["f/b"; "f/a"] Script.boot)
    as (_ & t & k & Ht & Hk & Hreq & _).
  exists t, k. split; [exact Ht|]. split; [exact Hk|exact Hreq].
Defined.


Lemma sweep_aborts_on_error_witness :
  exists w',
    main_sweep second_fails plain_args ["f/a"; "f/b"; "f/c"]
      ["f/a"; "f/b"; "f/c"] Script.boot = SysExit 1 w' /\
    requests (trace w') = map (fetch "europe-west4") ["f/a"; "f/b"].
Proof.
  destruct (sweep_aborts_on_error second_fails plain_args
              ["f/a"] "f/b" ["f/c"]
              [Script.ok (record "f/a" "ACTIVE")]
              (Script.ok (failed_record "f/b" "invalid encoding"))
              (failed_record "f/b" "invalid encoding")
              (JStr "ERROR") (JStr "invalid encoding") Script.boot)
    as (w' & Hrun & _ & Hreq & _).
  - apply script_answers.
  - reflexivity.
  - constructor; [|constructor].
    exists (record "f/a" "ACTIVE"), (JStr "ACTIVE"), (JStr EmptyString).
    split; [|split; reflexivity].
    exists 200, EmptyString. split; [reflexivity|lia].
  - exists 200, EmptyString. split; [reflexivity|lia].
  - reflexivity.
  - reflexivity.
  - constructor; [simpl; intros [H|[H|[]]]; discriminate H|].
    constructor; [simpl; intros [H|[]]; discriminate H|].
    constructor; [simpl; tauto|constructor].
  - exists w'. split; [exact Hrun|exact Hreq].
Defined.

Lemma list_rag_files_all_pages_witness :
  exists w',
    list_rag_files
      (Script.env (map (fun m => Script.ok (JObj m)) two_pages) 1 [])
      2 "europe-west4" "corpora/1" Script.boot
    = Ok [record "f/a" "ACTIVE"; record "f/b" "ACTIVE"; record "f/c" "ACTIVE"]
         w' /\
    requests (trace w')
    = [GET (list_url "europe-west4" "corpora/1") JNull;
       GET (list_url "europe-west4" "corpora/1")
           (JObj [("pageToken", JStr "page-2")])].
Proof.
  destruct (list_rag_files_all_pages
              (Script.env (map (fun m => Script.ok (JObj m)) two_pages) 1 [])
              "europe-west4" "corpora/1"
              (map (fun m => Script.ok (JObj m)) two_pages) two_pages
              [[record "f/a" "ACTIVE"; record "f/b" "ACTIVE"];
               [record "f/c" "ACTIVE"]]
              2 Script.boot) as (w' & Hrun & Htr).
  - apply script_answers.
  - repeat constructor; exists 200, EmptyString; (split; [reflexivity|lia]).
  - simpl. split; reflexivity.
  - repeat constructor.
  - simpl. lia.
  - exists w'. split; [exact Hrun|]. rewrite Htr. reflexivity.
Defined.

Lemma poller_follows_snapshots_witness :
  main_poll_loop (Script.env [Script.ok op_partial] 0 []) 1 short_args
    "operations/7" 120 Script.boot
  = SysExit 1
      (printed
         (sent (Script.env [Script.ok op_partial] 0 []) Script.boot
            (operation_request short_args "operations/7"))
         [EvOut "Complete";
          EvOut "Result: FAILED (import reported failures)";
          EvOut "Operation response:";
          EvOutJson (JObj [("failedRagFilesCount", JStr "0")]);
          EvOut "Partial failures:";
          EvOutJson (JArr [JObj [("code", JInt 3);
                                 ("message", JStr "bad row")]])]) /\
  exists w' n,
    main_poll_loop never_done_service 121 short_args "operations/7" 120
      Script.boot = SysExit 1 w' /\
    120 <= clock w' /\
    trace w'
    = (rounds n (waiting_round short_args "operations/7")
         ++ timeout_report short_args)%list.
Proof.
  split.
  - destruct (poller_follows_snapshots (Script.env [Script.ok op_partial] 0 [])
                short_args "operations/7" 120 0 Script.boot) as (_ & H & _).
    destruct (H op_partial
                (mkOperationStatus true None
                   (JObj [("failedRagFilesCount", JStr "0")]) 0
                   [JObj [("code", JInt 3); ("message", JStr "bad row")]]))
      as (_ & _ & Hrun).
    + simpl. lia.
    + exists 200, EmptyString. split; [reflexivity|lia].
    + reflexivity.
    + exact Hrun.
  - destruct (poller_follows_snapshots never_done_service short_args
                "operations/7" 120 121 Script.boot) as (_ & _ & H).
    apply H.
    + simpl. lia.
    + intros w _. eexists. eexists.
      split; [exists 200, EmptyString; split; [reflexivity|lia]|].
      split; reflexivity.
    + simpl. lia.
Defined.

Lemma discovery_times_out_witness :
  exists w' listings,
    main_wait_rag_files (order := Script.listing_order) empty_corpus 122
      short_args Script.boot = SysExit 1 w' /\
    120 <= clock w' /\
    trace w'
    = ([EvOut "Waiting for RagFiles to appear..."]
         ++ listing_rounds short_args listings
         ++ discovery_failure short_args)%list.
Proof.
  destruct (discovery_times_out empty_corpus (order := Script.listing_order)
              short_args 1 122 Script.boot) as (w' & ls & Hrun & Hcl & Htr & _).
  - simpl. lia.
  - intros w fuel _ Hf. destruct fuel as [|fuel]; [lia|].
    eexists. eexists. split; reflexivity.
  - simpl. lia.
  - exists w', ls. split; [exact Hrun|]. split; [exact Hcl|exact Htr].
Defined.

End ConcreteRuns.

(** ** What a run may do *)

Section Effects.

Lemma within_refl : forall E w, within E w w.
Proof. intros E w. exists []. split; [now rewrite app_nil_r|constructor]. Qed.

Lemma within_trans :
  forall E w1 w2 w3, within E w1 w2 -> within E w2 w3 -> within E w1 w3.
Proof.
  intros E w1 w2 w3 (a & Ha & Fa) (b & Hb & Fb).
  exists (a ++ b)%list. split.
  - rewrite Hb, Ha. now rewrite app_assoc.
  - apply Forall_app. split; assumption.
Qed.

Lemma within_one :
  forall (E : Event -> Prop) w c e,
    E e -> within E w (mkWorld c (trace w ++ [e])).
Proof. intros E w c e He. exists [e]. split; [reflexivity|now constructor]. Qed.

Lemma within_weaken :
  forall (E E' : Event -> Prop) w w',
    (forall e, E e -> E' e) -> within E w w' -> within E' w w'.
Proof.
  intros E E' w w' H (evs & Ht & Hf). exists evs. split; [exact Ht|].
  eapply Forall_impl; eauto.
Qed.

Lemma obeys_ret :
  forall A E C (R : A -> Prop) a, R a -> obeys E C R (ret a).
Proof. intros A E C R a Ha w. simpl. split; [apply within_refl|exact Ha]. Qed.

Lemma obeys_bind :
  forall A B E C (R1 : A -> Prop) (R : B -> Prop) (m : M A) (k : A -> M B),
    obeys E C R1 m ->
    (forall a, R1 a -> obeys E C R (k a)) ->
    obeys E C R (bind m k).
Proof.
  intros A B E C R1 R m k Hm Hk w. unfold bind.
  specialize (Hm w).
  destruct (m w) as [a w1|c w1|e w1| |]; try exact Hm.
  destruct Hm as [Hw Ha]. specialize (Hk a Ha w1).
  destruct (k a w1) as [b w2|c w2|e w2| |]; try exact I.
  - destruct Hk as [Hw2 Hb]. split; [eapply within_trans; eauto|exact Hb].
  - destruct Hk as [Hw2 Hc]. split; [eapply within_trans; eauto|exact Hc].
  - eapply within_trans; eauto.
Qed.

Lemma obeys_then :
  forall A B E C (R : B -> Prop) (m : M A) (k : A -> M B),
    obeys E C anything m ->
    (forall a, obeys E C R (k a)) ->
    obeys E C R (bind m k).
Proof. intros. eapply obeys_bind; eauto. Qed.

Lemma obeys_weaken :
  forall A E C (R R' : A -> Prop) (m : M A),
    (forall a, R a -> R' a) -> obeys E C R m -> obeys E C R' m.
Proof.
  intros A E C R R' m H Hm w. specialize (Hm w).
  destruct (m w); try exact Hm. destruct Hm. split; auto.
Qed.

Lemma obeys_log :
  forall (E : Event -> Prop) C e, E e -> obeys E C anything (log e).
Proof.
  intros E C e He w. simpl. split; [|exact I]. now apply within_one.
Qed.

Lemma obeys_eval :
  forall A E C (x : PyExn + A), obeys E C anything (eval x).
Proof.
  intros A E C [e|a] w; simpl; [|split; [|exact I]]; apply within_refl.
Qed.

Lemma obeys_raise : forall A E C (R : A -> Prop) e, obeys E C R (raise e).
Proof. intros A E C R e w. simpl. apply within_refl. Qed.

Lemma obeys_sys_exit :
  forall A E (C : Z -> Prop) (R : A -> Prop) c, C c -> obeys E C R (sys_exit c).
Proof. intros A E C R c Hc w. simpl. split; [apply within_refl|exact Hc]. Qed.

Lemma obeys_unmodelled : forall A E C (R : A -> Prop), obeys E C R unmodelled.
Proof. intros A E C R w. exact I. Qed.

Lemma obeys_out_of_fuel : forall A E C (R : A -> Prop), obeys E C R out_of_fuel.
Proof. intros A E C R w. exact I. Qed.

Lemma obeys_time_time : forall E C, obeys E C anything time_time.
Proof. intros E C w. simpl. split; [apply within_refl|exact I]. Qed.

Lemma obeys_time_sleep :
  forall (E : Event -> Prop) C s,
    E (EvSleep s) -> obeys E C anything (time_sleep s).
Proof.
  intros E C s He w. unfold time_sleep.
  destruct (s <? 0); [apply within_refl|].
  split; [|exact I]. now apply within_one.
Qed.

Lemma obeys_session_request :
  forall (E : Event -> Prop) C env r,
    E (EvHttp r) -> obeys E C anything (session_request env r).
Proof.
  intros E C env r He w. simpl. split; [|exact I]. now apply within_one.
Qed.

Lemma obeys_run :
  forall (E : Event -> Prop) C env cmd,
    E (EvRun cmd) -> obeys E C anything (run env cmd).
Proof.
  intros E C env cmd He w. unfold run.
  destruct (spawn env w cmd); [split; [|exact I]|]; now apply within_one.
Qed.

End Effects.

(** ** What the plain script may do *)

Section PlainEffects.

Import ImportAndWait.
Context (env : Env) {order : SetOrder}.

Ltac obey :=
  repeat first
    [ apply obeys_ret; exact I
    | apply obeys_log; exact I
    | apply obeys_eval
    | apply obeys_time_time
    | apply obeys_raise
    | apply obeys_unmodelled
    | apply obeys_out_of_fuel
    | apply obeys_sys_exit; reflexivity
    | apply obeys_time_sleep; reflexivity
    | apply obeys_session_request; exact I
    | apply obeys_then; [|intro]
    | match goal with
      | |- obeys _ _ _ (if ?b then _ else _) => destruct b
      | |- obeys _ _ _ (match ?x with _ => _ end) => destruct x
      end ].

Lemma obeys_exit_with_error :
  forall A args (R : A -> Prop) msg details,
    obeys (plain_effect args) (fun c => c = 1) R
      (exit_with_error msg details 1).
Proof.
  intros A args R msg details.
  unfold exit_with_error, eprint, eprint_json. obey.
Qed.

Lemma obeys_http_json_GET :
  forall args url params,
    obeys (plain_effect args) (fun c => c = 1) anything
      (http_json env "GET" url JNull params).
Proof.
  intros args url params. unfold http_json.
  change (String.eqb "GET" "GET") with true. cbv iota.
  apply obeys_then; [obey|intros r].
  destruct r as [e|st text body]; [apply obeys_exit_with_error|].
  destruct (negb _); [apply obeys_exit_with_error|].
  destruct body; [obey|apply obeys_exit_with_error].
Qed.

Lemma obeys_list_rag_files_loop :
  forall args fuel url all_files page_token,
    obeys (plain_effect args) (fun c => c = 1) anything
      (list_rag_files_loop env fuel url all_files page_token).
Proof.
  intros args fuel.
  induction fuel as [|fuel IH]; intros url all_files page_token;
    cbn [list_rag_files_loop]; [obey|].
  apply obeys_then; [apply obeys_http_json_GET|intros resp].
  apply obeys_then; [obey|intros files].
  apply obeys_then; [obey|intros items].
  apply obeys_then; [obey|intros tok].
  destruct (negb (truthy tok)); [obey|apply IH].
Qed.

Lemma obeys_main_poll_loop :
  forall args fuel op_name deadline,
    obeys (plain_effect args) (fun c => c = 1) anything
      (main_poll_loop env fuel args op_name deadline).
Proof.
  intros args fuel op_name deadline.
  induction fuel as [|fuel IH]; cbn [main_poll_loop]; [obey|].
  apply obeys_then; [obey|intros t].
  destruct (t <? deadline).
  - apply obeys_then; [apply obeys_http_json_GET|intros op].
    apply obeys_then; [obey|intros d].
    destruct (negb (truthy d)).
    + unfold print. apply obeys_then; [obey|intros _].
      apply obeys_then; [obey|intros _]. apply IH.
    + unfold print, print_json. obey.
  - unfold print. obey.
Qed.

Lemma obeys_main_discovery_loop :
  forall args fuel rf_deadline,
    obeys (plain_effect args) (fun c => c = 1) anything
      (main_discovery_loop env fuel args rf_deadline).
Proof.
  intros args fuel rf_deadline.
  induction fuel as [|fuel IH]; cbn [main_discovery_loop]; [obey|].
  apply obeys_then; [obey|intros t].
  destruct (t <? rf_deadline); [|obey].
  apply obeys_then; [apply obeys_list_rag_files_loop|intros rag_files].
  apply obeys_then; [obey|intros names].
  destruct names; [|obey].
  unfold print. apply obeys_then; [obey|intros _].
  apply obeys_then; [obey|intros _]. apply IH.
Qed.

Lemma obeys_main_sweep :
  forall args todo pending,
    obeys (plain_effect args) (fun c => c = 1) anything
      (main_sweep env args todo pending).
Proof.
  intros args todo.
  induction todo as [|name todo IH]; intros pending; cbn [main_sweep];
    [obey|].
  apply obeys_then; [apply obeys_http_json_GET|intros rf].
  apply obeys_then; [obey|intros [state err]].
  destruct (is_str state "ACTIVE").
  - apply obeys_then; [obey|intros pending']. apply IH.
  - destruct (is_str state "ERROR"); [|apply IH].
    unfold print, print_json, print_value. obey.
Qed.

Lemma obeys_main_activation_loop :
  forall args fuel rf_deadline pending,
    obeys (plain_effect args) (fun c => c = 1) anything
      (main_activation_loop env fuel args rf_deadline pending).
Proof.
  intros args fuel rf_deadline.
  induction fuel as [|fuel IH]; intros pending;
    cbn [main_activation_loop]; [obey|].
  destruct pending as [|p ps]; [obey|].
  apply obeys_then; [obey|intros t].
  destruct (t <? rf_deadline); [|obey].
  apply obeys_then; [apply obeys_main_sweep|intros pending'].
  apply obeys_then; [|intros _; apply IH].
  destruct pending'; [obey|]. unfold print. obey.
Qed.

Lemma obeys_print_names :
  forall args names,
    obeys (plain_effect args) (fun c => c = 1) anything (print_names names).
Proof.
  intros args names. induction names as [|n names IH]; cbn [print_names];
    [obey|].
  unfold print. apply obeys_then; [obey|intros _]. apply IH.
Qed.

Lemma obeys_main_wait_rag_files :
  forall args fuel,
    obeys (plain_effect args) (fun c => c = 1) anything
      (main_wait_rag_files env fuel args).
Proof.
  intros args fuel. unfold main_wait_rag_files.
  unfold print at 1. apply obeys_then; [obey|intros _].
  apply obeys_then; [obey|intros t].
  apply obeys_then; [apply obeys_main_discovery_loop|intros names].
  destruct names as [|n names]; [apply obeys_exit_with_error|].
  unfold print at 1. apply obeys_then; [obey|intros _].
  destruct (as_strings (n :: names)) as [strs|]; [|obey].
  apply obeys_then; [apply obeys_main_activation_loop|intros pending].
  destruct pending as [|p ps]; [unfold print; obey|].
  unfold print at 1 2. apply obeys_then; [obey|intros _].
  apply obeys_then; [obey|intros _].
  apply obeys_then; [apply obeys_print_names|intros _]. obey.
Qed.

Lemma http_json_POST :
  forall url payload w,
    http_json env "POST" url payload JNull w
    = http_outcome "POST" url (sent env w (POST url payload))
        (serve env w (POST url payload)).
Proof.
  intros url payload w. unfold http_json, bind. simpl.
  unfold session_request. fold (sent env w (POST url payload)).
  destruct (serve env w (POST url payload)) as [e|st text body]; simpl.
  - reflexivity.
  - destruct ((200 <=? st) && (st <? 300)); simpl.
    + destruct body; [reflexivity|].
      unfold exit_with_error, bind, eprint, eprint_json, log, sys_exit,
        emit, printed.
      simpl. now rewrite <- app_assoc.
    + unfold exit_with_error, bind, eprint, eprint_json, log, sys_exit,
        emit, printed, ret.
      destruct body as [[]|]; simpl; rewrite <- ?app_assoc; reflexivity.
Qed.

Lemma silent_plain_effect :
  forall args evs, silent evs -> Forall (plain_effect args) evs.
Proof.
  intros args evs. apply Forall_impl. intros [] H; simpl in *; tauto.
Qed.

Lemma starts_with_sent :
  forall rq E w w',
    within E (sent env w rq) w' -> starts_with rq E w w'.
Proof.
  intros rq E w w' (evs & Ht & Hf). exists evs. split; [|exact Hf].
  rewrite Ht. simpl. now rewrite <- app_assoc.
Qed.

Lemma starts_with_trans :
  forall rq E w1 w2 w3,
    starts_with rq E w1 w2 -> within E w2 w3 -> starts_with rq E w1 w3.
Proof.
  intros rq E w1 w2 w3 (a & Ha & Fa) (b & Hb & Fb).
  exists (a ++ b)%list. split.
  - rewrite Hb, Ha. rewrite <- app_assoc. reflexivity.
  - apply Forall_app. split; assumption.
Qed.

(** [import_rag_files] submits the import, once, before anything else. *)
Lemma import_rag_files_effects :
  forall args location corpus_name gcs_uris w,
    let rq := import_request location corpus_name gcs_uris in
    match import_rag_files env location corpus_name gcs_uris w with
    | Ok _ w' | Raised _ w' => starts_with rq (plain_effect args) w w'
    | SysExit c w' => starts_with rq (plain_effect args) w w' /\ c = 1
    | Unmodelled | OutOfFuel => True
    end.
Proof.
  intros args location corpus_name gcs_uris w rq.
  unfold import_rag_files. unfold bind at 1. rewrite http_json_POST.
  fold (import_request location corpus_name gcs_uris). fold rq.
  match goal with
  | |- context [http_outcome ?m ?u ?w1 ?r] =>
      destruct (http_outcome_cases m u w1 r)
        as [(op & -> & _)|(errs & -> & Hs & _)]
  end.
  2:{ split; [|reflexivity]. apply starts_with_sent.
      exists errs. split; [reflexivity|now apply silent_plain_effect]. }
  assert (H : obeys (plain_effect args) (fun c => c = 1) anything
                (op_name <- eval (get op "name") ;;
                 if negb (truthy op_name)
                 then exit_with_error
                        "Import returned success but missing Operation 'name'."
                        op 1
                 else match op_name with
                      | JStr s => ret s
                      | _ => unmodelled
                      end)).
  { apply obeys_then; [obey|intros op_name].
    destruct (negb (truthy op_name)); [apply obeys_exit_with_error|].
    destruct op_name; obey. }
  specialize (H (sent env w rq)).
  destruct (bind _ _ (sent env w rq)) as [a w'|c w'|e w'| |];
    try exact I.
  - apply starts_with_sent. apply H.
  - split; [apply starts_with_sent|]; apply H.
  - apply starts_with_sent. exact H.
Qed.

(** X1.  Whatever the service answers, a run of the plain script first
    submits the import, once; after that it only makes read calls,
    sleeps exactly one poll interval at a time and writes to the
    standard streams: it never submits again and never starts a
    subprocess.  It ends with status 0 (by returning) or with status 1. *)
Theorem plain_script_effects :
  forall fuel args w,
    let rq := import_request (location args) (corpus args) (gcs_uri args) in
    match main env fuel args w with
    | Ok _ w' | Raised _ w' => starts_with rq (plain_effect args) w w'
    | SysExit c w' => starts_with rq (plain_effect args) w w' /\ c = 1
    | Unmodelled | OutOfFuel => True
    end.
Proof.
  intros fuel args w rq. unfold main. unfold bind at 1.
  pose proof (import_rag_files_effects args (location args) (corpus args)
                (gcs_uri args) w) as Hi.
  cbv zeta in Hi. fold rq in Hi.
  destruct (import_rag_files env (location args) (corpus args) (gcs_uri args) w)
    as [op_name w1|c w1|e w1| |]; try exact Hi.
  assert (H : obeys (plain_effect args) (fun c => c = 1) anything
                (print ("Import started. Operation: " ++ op_name) ;;
                 t <- time_time ;;
                 main_poll_loop env fuel args op_name
                   (t + timeout_minutes args * 60) ;;
                 main_wait_rag_files env fuel args)).
  { unfold print. apply obeys_then; [obey|intros _].
    apply obeys_then; [obey|intros t].
    apply obeys_then; [apply obeys_main_poll_loop|intros _].
    apply obeys_main_wait_rag_files. }
  specialize (H w1).
  destruct (bind _ _ w1) as [a w'|c w'|e w'| |]; try exact I.
  - eapply starts_with_trans; [exact Hi|apply H].
  - split; [eapply starts_with_trans; [exact Hi|]|]; apply H.
  - eapply starts_with_trans; [exact Hi|exact H].
Qed.

End PlainEffects.

(** ** The activation of the resources *)

Section Activation.

Import ImportAndWait.
Context (env : Env) {order : SetOrder}.

Lemma filter_none :
  forall l : list string,
    filter (fun x => negb (existsb (String.eqb x) l)) l = [].
Proof.
  intros l.
  assert (H : forall l0, incl l0 l ->
            filter (fun x => negb (existsb (String.eqb x) l)) l0 = []).
  { induction l0 as [|a l0 IH]; intros Hi; [reflexivity|]. simpl.
    assert (Ha : existsb (String.eqb a) l = true)
      by (apply existsb_eqb_In, Hi; now left).
    rewrite Ha. simpl. apply IH. intros x Hx. apply Hi. now right. }
  apply H, incl_refl.
Qed.

(** A sweep in which every record comes back ACTIVE takes every name of
    [todo] out of the pending set. *)
Lemma main_sweep_all_active :
  forall args todo replies pending w,
    answers_in_order env w replies ->
    Forall2 (fun r (_ : string) => comes_active r) replies todo ->
    NoDup todo -> incl todo pending ->
    exists w',
      main_sweep env args todo pending w
      = Ok (filter (fun x => negb (existsb (String.eqb x) todo)) pending) w' /\
      trace w' = (trace w ++ fetches (location args) todo)%list /\
      clock w <= clock w'.
Proof.
  intros args todo.
  induction todo as [|n todo IH]; intros replies pending w Hans Hrep Hnd Hincl.
  - exists w. cbn [main_sweep fetches map]. rewrite app_nil_r.
    split; [|split; [reflexivity|lia]].
    replace (filter (fun x => negb (existsb (String.eqb x) [])) pending)
      with pending; [reflexivity|].
    clear. induction pending as [|a l IH]; simpl in *; [reflexivity|].
    now rewrite <- IH.
  - destruct replies as [|r replies]; [inversion Hrep|].
    apply Forall2_cons_iff in Hrep as [(rf & err & Hs & Hst) Hrep].
    apply NoDup_cons_iff in Hnd as [Hn Hnd].
    rewrite main_sweep_cons.
    rewrite (answers_head env w r _ _ Hans).
    rewrite (http_outcome_success _ _ _ _ _ Hs), Hst.
    change (is_str (JStr "ACTIVE") "ACTIVE") with true. cbv iota.
    rewrite set_remove_member by (apply Hincl; now left).
    destruct (IH replies
                (filter (fun x => negb (String.eqb n x)) pending)
                (sent env w (fetch (location args) n)))
      as (w' & Hrun & Htr & Hcl).
    + eapply answers_after_sent; eauto.
    + exact Hrep.
    + exact Hnd.
    + intros x Hx. apply In_removed. split; [apply Hincl; now right|].
      intros ->. contradiction.
    + exists w'. split; [|split].
      * rewrite Hrun. f_equal. rewrite filter_filter.
        apply filter_ext. intros x. simpl.
        rewrite (String.eqb_sym n x). now rewrite negb_orb.
      * rewrite Htr. simpl. rewrite <- app_assoc. reflexivity.
      * simpl in Hcl. lia.
Qed.

(** A sweep in which no record is ACTIVE or in ERROR leaves the pending
    set as it was. *)
Lemma main_sweep_idle :
  forall args todo pending w,
    never_settles env (location args) todo ->
    exists w',
      main_sweep env args todo pending w = Ok pending w' /\
      trace w' = (trace w ++ fetches (location args) todo)%list /\
      clock w <= clock w'.
Proof.
  intros args todo.
  induction todo as [|n todo IH]; intros pending w Hst.
  - exists w. simpl. rewrite app_nil_r. split; [reflexivity|]. split; [reflexivity|lia].
  - rewrite main_sweep_cons.
    destruct (Hst w n (or_introl eq_refl))
      as (rf & state & err & Hs & Hrf & Ha & He).
    rewrite (http_outcome_success _ _ _ _ _ Hs), Hrf, Ha, He.
    destruct (IH pending (sent env w (fetch (location args) n)))
      as (w' & Hrun & Htr & Hcl).
    + intros w0 x Hx. apply Hst. now right.
    + exists w'. split; [exact Hrun|]. split.
      * rewrite Htr. simpl. rewrite <- app_assoc. reflexivity.
      * simpl in Hcl. lia.
Qed.

Lemma main_activation_loop_idle :
  forall args rf_deadline pending fuel w,
    0 < poll_seconds args ->
    never_settles env (location args) pending ->
    (Z.to_nat (rf_deadline - clock w) < fuel)%nat ->
    exists w' n,
      main_activation_loop env fuel args rf_deadline pending w
      = Ok pending w' /\
      (pending <> [] -> rf_deadline <= clock w') /\
      trace w' = (trace w ++ rounds n (idle_sweep args pending))%list.
Proof.
  intros args rf_deadline pending fuel.
  induction fuel as [|fuel IH]; intros w Hpoll Hst Hfuel; [lia|].
  destruct pending as [|p ps].
  - exists w, 0%nat. simpl. rewrite app_nil_r.
    split; [reflexivity|]. split; [congruence|reflexivity].
  - rewrite main_activation_loop_step.
    destruct (Z.ltb_spec (clock w) rf_deadline) as [Hlt|Hge].
    + destruct (main_sweep_idle args (p :: ps) (p :: ps) w Hst)
        as (w1 & Hrun & Htr & Hcl).
      rewrite Hrun.
      replace (poll_seconds args <? 0) with false
        by (symmetry; apply Z.ltb_ge; lia).
      set (w2 := slept _ _).
      assert (Hc2 : clock w + 1 <= clock w2) by (subst w2; simpl; lia).
      destruct (IH w2 Hpoll Hst) as (w' & n & Hrun' & Hdl & Htr'); [lia|].
      exists w', (S n). split; [exact Hrun'|]. split; [exact Hdl|].
      rewrite Htr'. subst w2. unfold idle_sweep. simpl. rewrite Htr.
      rewrite <- !app_assoc. reflexivity.
    + exists w, 0%nat. simpl. rewrite app_nil_r.
      split; [reflexivity|]. split; [intros _; exact Hge|reflexivity].
Qed.

Lemma insert_sorted_perm :
  forall x l, Permutation (insert_sorted x l) (x :: l).
Proof.
  intros x l. induction l as [|y l IH]; simpl; [reflexivity|].
  destruct (String.leb x y); [reflexivity|].
  rewrite IH. apply perm_swap.
Qed.

Lemma sorted_perm : forall l, Permutation (sorted l) l.
Proof.
  induction l as [|x l IH]; simpl; [reflexivity|].
  rewrite insert_sorted_perm. now constructor.
Qed.

Lemma insert_sorted_Sorted :
  forall x l, Sorted name_le l -> Sorted name_le (insert_sorted x l).
Proof.
  intros x l Hs. induction Hs as [|y l Hs IH Hhd]; simpl.
  - repeat constructor.
  - destruct (String.leb x y) eqn:E.
    + constructor; [now constructor|]. constructor. exact E.
    + assert (Hyx : name_le y x).
      { destruct (String.leb_total x y) as [H|H]; [congruence|exact H]. }
      constructor; [exact IH|].
      destruct l as [|z l]; simpl.
      * constructor. exact Hyx.
      * destruct (String.leb x z); constructor; [exact Hyx|].
        now inversion Hhd.
Qed.

Lemma sorted_Sorted : forall l, Sorted name_le (sorted l).
Proof.
  induction l as [|x l IH]; simpl; [constructor|].
  now apply insert_sorted_Sorted.
Qed.

Lemma print_names_trace :
  forall names w,
    print_names names w
    = Ok tt (printed w (map (fun n => EvOut ("- " ++ n)) names)).
Proof.
  induction names as [|n names IH]; intros w.
  - unfold printed. simpl. rewrite app_nil_r. now destruct w.
  - cbn [print_names]. unfold bind, print, log. rewrite IH.
    unfold printed, emit. simpl. now rewrite <- app_assoc.
Qed.

(** Once the first listing has shown names, the tracker goes on to the
    activation of the set of these names. *)
Lemma main_wait_rag_files_found :
  forall fuel args w l w1 names strs,
    0 < timeout_minutes args ->
    list_rag_files env fuel (location args) (corpus args)
      (printed w [EvOut "Waiting for RagFiles to appear..."]) = Ok l w1 ->
    names_of l = inr names ->
    names <> [] ->
    as_strings names = Some strs ->
    main_wait_rag_files env fuel args w
    = (pending <- main_activation_loop env fuel args
                    (clock w + timeout_minutes args * 60) (set_iter strs) ;;
       match pending with
       | _ :: _ =>
           print "Complete" ;;
           print ("Result: FAILED (timed out waiting for RagFiles to become ACTIVE). Pending: "
                    ++ str_of_Z (Z.of_nat (List.length pending))) ;;
           print_names (sorted pending) ;;
           sys_exit 1
       | [] =>
           print "Complete" ;;
           print "Final Result: SUCCESS (all RagFiles are ACTIVE and indexed)."
       end) (printed w1 [found_line names]).
Proof.
  intros fuel args w l w1 names strs Ht Hlist Hnames Hne Hstrs.
  unfold main_wait_rag_files.
  unfold bind at 1. unfold print at 1, log at 1.
  unfold bind at 1. unfold time_time at 1. cbn [clock emit].
  unfold bind at 1.
  destruct fuel as [|fuel]; [discriminate|].
  cbn [main_discovery_loop]. unfold bind at 1. unfold time_time at 1.
  unfold printed in Hlist. unfold emit. cbn [clock].
  replace (clock w <? clock w + timeout_minutes args * 60) with true
    by (symmetry; apply Z.ltb_lt; lia).
  unfold bind at 1.
  rewrite Hlist. unfold bind at 1. rewrite Hnames. cbn [eval ret].
  destruct names as [|n names]; [contradiction|].
  unfold ret at 1. cbv beta iota in Hstrs |- *.
  unfold bind at 1. unfold print at 1, log at 1.
  rewrite Hstrs. reflexivity.
Qed.

Lemma script_answers_from :
  forall replies rtt procs w,
    answers_in_order (Script.env replies rtt procs) w
      (skipn (List.length (requests (trace w))) replies).
Proof.
  intros replies rtt procs w k reply w' r Hk Hlen. simpl.
  rewrite Hlen. apply nth_error_nth.
  rewrite nth_error_skipn in Hk. exact Hk.
Qed.

Lemma as_strings_nonempty :
  forall names strs,
    as_strings names = Some strs -> names <> [] -> strs <> [].
Proof.
  intros [|n names] strs H Hne; [contradiction|].
  simpl in H. destruct n; try discriminate.
  destruct (as_strings names); [|discriminate].
  injection H as <-. discriminate.
Qed.

Lemma set_iter_nonempty : forall strs, strs <> [] -> set_iter strs <> [].
Proof.
  intros [|x strs] H E; [contradiction|].
  assert (Hx : In x (set_iter (x :: strs))) by (apply set_iter_In; now left).
  rewrite E in Hx. contradiction.
Qed.

(** X2.  Let the first listing show at least one named resource, before
    the deadline, and let every resource of the pending set come back
    ACTIVE when it is fetched.  Then the tracker fetches each pending
    resource once, in the order of the set, without any sleep, writes
    the two lines of success and returns. *)
Theorem tracker_succeeds_when_all_active :
  forall fuel args w l w1 names strs replies,
    0 < timeout_minutes args ->
    list_rag_files env (S (S fuel)) (location args) (corpus args)
      (printed w [EvOut "Waiting for RagFiles to appear..."]) = Ok l w1 ->
    names_of l = inr names ->
    names <> [] ->
    as_strings names = Some strs ->
    clock w1 < clock w + timeout_minutes args * 60 ->
    answers_in_order env w1 replies ->
    Forall2 (fun r (_ : string) => comes_active r) replies (set_iter strs) ->
    exists w',
      main_wait_rag_files env (S (S fuel)) args w = Ok tt w' /\
      trace w'
      = (trace w1 ++ [found_line names]
           ++ fetches (location args) (set_iter strs)
           ++ activation_success)%list.
Proof.
  intros fuel args w l w1 names strs replies
         Ht Hlist Hnames Hne Hstrs Hdl Hans Hact.
  rewrite (main_wait_rag_files_found (S (S fuel)) args w l w1 names strs
             Ht Hlist Hnames Hne Hstrs).
  unfold bind at 1.
  set (w2 := printed w1 [found_line names]).
  assert (Hans2 : answers_in_order env w2 replies).
  { eapply answers_same_requests; [exact Hans|].
    subst w2. simpl. rewrite requests_app. simpl. now rewrite app_nil_r. }
  destruct (set_iter strs) as [|p ps] eqn:Eset.
  { exfalso. eapply set_iter_nonempty; [|exact Eset].
    eapply as_strings_nonempty; eauto. }
  rewrite main_activation_loop_step.
  replace (clock w2 <? clock w + timeout_minutes args * 60) with true
    by (symmetry; apply Z.ltb_lt; subst w2; simpl; lia).
  destruct (main_sweep_all_active args (p :: ps) replies (p :: ps) w2
              Hans2 Hact) as (w3 & Hrun & Htr & _).
  { rewrite <- Eset. apply set_iter_NoDup. }
  { apply incl_refl. }
  rewrite Hrun, filter_none. cbn [main_activation_loop].
  unfold ret, bind, print, log, emit. simpl.
  eexists. split; [reflexivity|].
  simpl. rewrite Htr. subst w2. unfold activation_success. simpl.
  rewrite <- !app_assoc. reflexivity.
Qed.

(** X3.  Let the first listing show at least one named resource, and let
    the resources of the pending set never come back ACTIVE nor in
    ERROR, the poll interval being positive.  Then the tracker sweeps
    and sleeps until the deadline has passed, and ends the process with
    status 1; its report gives the number of pending resources and then
    their names, each once, in ascending order. *)
Theorem tracker_times_out_when_never_active :
  forall fuel args w l w1 names strs,
    0 < timeout_minutes args ->
    0 < poll_seconds args ->
    list_rag_files env fuel (location args) (corpus args)
      (printed w [EvOut "Waiting for RagFiles to appear..."]) = Ok l w1 ->
    names_of l = inr names ->
    names <> [] ->
    as_strings names = Some strs ->
    never_settles env (location args) (set_iter strs) ->
    (Z.to_nat (clock w + timeout_minutes args * 60 - clock w1) < fuel)%nat ->
    exists w' n,
      main_wait_rag_files env fuel args w = SysExit 1 w' /\
      clock w + timeout_minutes args * 60 <= clock w' /\
      trace w'
      = (trace w1 ++ [found_line names]
           ++ rounds n (idle_sweep args (set_iter strs))
           ++ activation_failure (set_iter strs))%list /\
      Permutation (sorted (set_iter strs)) (set_iter strs) /\
      Sorted name_le (sorted (set_iter strs)).
Proof.
  intros fuel args w l w1 names strs
         Ht Hpoll Hlist Hnames Hne Hstrs Hnever Hfuel.
  rewrite (main_wait_rag_files_found fuel args w l w1 names strs
             Ht Hlist Hnames Hne Hstrs).
  unfold bind at 1.
  set (w2 := printed w1 [found_line names]).
  destruct (main_activation_loop_idle args
              (clock w + timeout_minutes args * 60) (set_iter strs) fuel w2
              Hpoll Hnever) as (w3 & n & Hrun & Hdl & Htr).
  { subst w2. simpl. exact Hfuel. }
  rewrite Hrun.
  assert (Hset : set_iter strs <> []).
  { apply set_iter_nonempty. eapply as_strings_nonempty; eauto. }
  destruct (set_iter strs) as [|p ps] eqn:Eset; [contradiction|].
  unfold bind, print, log, sys_exit. rewrite print_names_trace.
  eexists. exists n. split; [reflexivity|].
  split; [simpl; apply Hdl; discriminate|].
  split; [|split; [apply sorted_perm|apply sorted_Sorted]].
  simpl. rewrite Htr. subst w2. unfold activation_failure. simpl.
  rewrite <- !app_assoc. reflexivity.
Qed.

End Activation.

(** ** The read and write calls of the plain script *)

Section PlainCalls.

Import ImportAndWait.
Context (env : Env) {order : SetOrder}.

(** X4.  [http_json] makes one call and never a second one.  It returns
    only the payload of a response with a status from 200 to 299 and a
    JSON body; in every other case (the transport fails, another
    status, a body that is not JSON) it ends the process with status 1
    after lines on the standard error stream.  With a method that is
    neither GET nor POST it ends the process in the same way without
    any call. *)
Theorem http_json_calls_once :
  forall method url payload params w,
    let rq := if String.eqb method "GET" then GET url params
              else POST url payload in
    match http_json env method url payload params w with
    | Ok j w' =>
        (method = "GET" \/ method = "POST") /\
        w' = sent env w rq /\ success (serve env w rq) j
    | SysExit c w' =>
        c = 1 /\
        exists errs,
          silent errs /\
          ((method = "GET" \/ method = "POST") /\
           w' = printed (sent env w rq) errs /\
           (forall j, ~ success (serve env w rq) j)
           \/
           method <> "GET" /\ method <> "POST" /\ w' = printed w errs)
    | Raised _ _ | Unmodelled | OutOfFuel => False
    end.
Proof.
  intros method url payload params w rq.
  destruct (String.eqb_spec method "GET") as [->|Hg].
  - change (http_json env "GET" url payload params w)
      with (http_json env "GET" url JNull params w).
    rewrite http_json_GET. subst rq. cbv iota.
    destruct (http_outcome_cases "GET" url (sent env w (GET url params))
                (serve env w (GET url params)))
      as [(j & -> & Hj)|(errs & -> & Hs & Hno)].
    + split; [now left|]. split; [reflexivity|exact Hj].
    + split; [reflexivity|]. exists errs. split; [exact Hs|].
      left. split; [now left|]. split; [reflexivity|exact Hno].
  - destruct (String.eqb_spec method "POST") as [->|Hp].
    + change (http_json env "POST" url payload params w)
        with (http_json env "POST" url payload JNull w).
      rewrite http_json_POST. subst rq. cbv iota.
      destruct (http_outcome_cases "POST" url (sent env w (POST url payload))
                  (serve env w (POST url payload)))
        as [(j & -> & Hj)|(errs & -> & Hs & Hno)].
      * split; [now right|]. split; [reflexivity|exact Hj].
      * split; [reflexivity|]. exists errs. split; [exact Hs|].
        left. split; [now right|]. split; [reflexivity|exact Hno].
    + unfold http_json, bind.
      destruct (String.eqb_spec method "GET") as [E|_]; [contradiction|].
      destruct (String.eqb_spec method "POST") as [E|_]; [contradiction|].
      unfold ret, exit_with_error, bind, eprint, log, sys_exit, emit. simpl.
      split; [reflexivity|]. eexists. split; [|right; repeat split; auto].
      repeat constructor.
Qed.

(** X5.  If the reply to the submission does not start an operation, the
    script ends with status 1 right after the submission: no operation
    is polled, no resource is listed or fetched. *)
Theorem submission_failure_halts :
  forall fuel args w,
    let rq := import_request (location args) (corpus args) (gcs_uri args) in
    no_operation (serve env w rq) ->
    exists w',
      main env fuel args w = SysExit 1 w' /\
      requests (trace w') = (requests (trace w) ++ [rq])%list.
Proof.
  intros fuel args w rq Hno.
  unfold main. unfold bind at 1. unfold import_rag_files.
  unfold bind at 1. rewrite http_json_POST.
  fold (import_request (location args) (corpus args) (gcs_uri args)).
  fold rq.
  match goal with
  | |- context [http_outcome ?m ?u ?w1 ?r] =>
      destruct (http_outcome_cases m u w1 r)
        as [(op & -> & Hop)|(errs & -> & Hs & _)]
  end.
  - destruct (Hno op Hop) as (m & -> & Hname).
    unfold bind at 1. unfold get, get_default. fold (field "name" m).
    cbn [eval ret]. rewrite Hname. cbn [negb].
    unfold exit_with_error, bind, eprint, eprint_json, log, sys_exit, emit.
    simpl. eexists. split; [reflexivity|].
    simpl. rewrite !requests_app. simpl. now rewrite !app_nil_r.
  - eexists. split; [reflexivity|].
    simpl. rewrite !requests_app, (requests_silent _ Hs). simpl.
    now rewrite app_nil_r.
Qed.

(** X6.  From a listing of records, discovery keeps the names that are
    present and not empty, in the order of the listing, and drops the
    records without a name; it never fails on records that are objects. *)
Theorem names_of_keeps_named :
  forall ms : list (list (string * json)),
    names_of (map JObj ms)
    = inr (filter truthy (map (field "name") ms)).
Proof.
  induction ms as [|m ms IH]; [reflexivity|].
  cbn [map names_of]. unfold get, get_default. fold (field "name" m).
  unfold and_then at 1. cbn [filter].
  destruct (truthy (field "name" m)).
  - unfold and_then at 1. rewrite IH. reflexivity.
  - exact IH.
Qed.

(** X7.  A record without a status (no [fileStatus], or an empty or null
    one) reads as state STATE_UNSPECIFIED with an empty error: neither
    ACTIVE nor ERROR, so the resource stays pending.  And whenever the
    state of a record can be read, it is not empty. *)
Theorem rag_file_state_defaults :
  (forall m,
      truthy (field "fileStatus" m) = false ->
      rag_file_state (JObj m)
      = inr (JStr "STATE_UNSPECIFIED", JStr EmptyString)) /\
  (forall rf state err,
      rag_file_state rf = inr (state, err) ->
      truthy state = true /\
      (err = JStr EmptyString \/ truthy err = true)).
Proof.
  split.
  - intros m H.
    assert (Hp : por (field "fileStatus" m) (JObj []) = JObj [])
      by (unfold por; now rewrite H).
    unfold rag_file_state, get, get_default.
    fold (field "fileStatus" m). unfold and_then at 1.
    cbv zeta. rewrite Hp. reflexivity.
  - intros rf state err H. unfold rag_file_state, and_then in H.
    destruct (get rf "fileStatus") as [?|fs0]; [discriminate|].
    destruct (get (por fs0 (JObj [])) "state") as [?|st]; [discriminate|].
    destruct (get (por fs0 (JObj [])) "errorStatus") as [?|es];
      [discriminate|].
    injection H as <- <-. split.
    + unfold por. destruct (truthy st) eqn:E; [exact E|reflexivity].
    + unfold por. destruct (truthy es) eqn:E; [now right|now left].
Qed.

Lemma list_rag_files_loop_breaks :
  forall url pages replies bad fuel w acc tok,
    answers_in_order env w (replies ++ [bad]) ->
    Forall2 (fun r m => success r (JObj m)) replies pages ->
    Forall (fun m => truthy (page_token m) = true
                     /\ exists l, page_files m = JArr l) pages ->
    (forall j, ~ success bad j) ->
    (List.length pages < fuel)%nat ->
    exists w',
      list_rag_files_loop env fuel url acc tok w = SysExit 1 w' /\
      List.length (requests (trace w'))
      = (List.length (requests (trace w)) + S (List.length pages))%nat.
Proof.
  intros url pages.
  induction pages as [|m rest IH];
    intros replies bad fuel w acc tok Hans Hrep Hpages Hbad Hfuel.
  - destruct replies; [|inversion Hrep].
    destruct fuel as [|fuel]; [simpl in Hfuel; lia|].
    cbn [list_rag_files_loop]. unfold bind at 1. rewrite http_json_GET.
    cbn [app] in Hans. rewrite (answers_head env w bad [] _ Hans).
    match goal with
    | |- context [http_outcome ?a ?u ?w1 ?r] =>
        destruct (http_outcome_cases a u w1 r)
          as [(j & _ & Hj)|(errs & -> & Hs & _)]
    end; [now apply Hbad in Hj|].
    eexists. split; [reflexivity|].
    simpl. rewrite !requests_app, (requests_silent _ Hs), !length_app.
    simpl. lia.
  - destruct replies as [|r replies]; [inversion Hrep|].
    apply Forall2_cons_iff in Hrep as [Hs Hrep].
    apply Forall_cons_iff in Hpages as [(Htok & l & Hl) Hpages].
    destruct fuel as [|fuel]; [simpl in Hfuel; lia|].
    cbn [list_rag_files_loop app] in *. unfold bind at 1.
    rewrite http_json_GET.
    rewrite (answers_head env w r _ _ Hans).
    rewrite (http_outcome_success _ _ _ _ _ Hs).
    unfold get_default. fold (page_files m). rewrite Hl.
    unfold bind, eval, ret, get, get_default.
    fold (page_token m). rewrite Htok. cbn [py_iter negb].
    match goal with
    | |- context [list_rag_files_loop env fuel url ?a ?t ?w1] =>
        destruct (IH replies bad fuel w1 a t) as (w' & Hrun & Hlen)
    end.
    + eapply answers_after_sent; eauto.
    + exact Hrep.
    + exact Hpages.
    + exact Hbad.
    + simpl in Hfuel. lia.
    + exists w'. split; [exact Hrun|].
      rewrite Hlen. simpl. rewrite requests_app, length_app. simpl. lia.
Qed.

(** X8.  If a page of the listing does not come back with a success
    response, after any number of pages that did, [list_rag_files] ends
    the process with status 1 right after that call: the records of the
    pages already read are not returned. *)
Theorem list_rag_files_returns_no_partial_listing :
  forall location corpus_name pages fuel w,
    breaks_after env w pages ->
    (List.length pages < fuel)%nat ->
    exists w',
      list_rag_files env fuel location corpus_name w = SysExit 1 w' /\
      List.length (requests (trace w'))
      = (List.length (requests (trace w)) + S (List.length pages))%nat.
Proof.
  intros location corpus_name pages fuel w
         (replies & bad & Hans & Hrep & Hpages & Hbad) Hfuel.
  unfold list_rag_files.
  eapply list_rag_files_loop_breaks; eauto.
Qed.

End PlainCalls.

(** ** What the sink scripts may do *)

Section SinkEffects.

Context (env : Env).

Lemma obeys_eval_value :
  forall A E C (R : A -> Prop) (x : PyExn + A),
    (forall a, x = inr a -> R a) -> obeys E C R (eval x).
Proof.
  intros A E C R [e|a] H w; simpl; [apply within_refl|].
  split; [apply within_refl|now apply H].
Qed.

Ltac sink_obey :=
  repeat first
    [ apply obeys_ret; exact I
    | apply obeys_log; exact I
    | apply obeys_eval
    | apply obeys_time_time
    | apply obeys_raise
    | apply obeys_unmodelled
    | apply obeys_out_of_fuel
    | apply obeys_time_sleep; reflexivity
    | apply obeys_session_request; reflexivity
    | apply obeys_run; simpl; tauto
    | apply obeys_ret; first [now left | now right]
    | apply obeys_then; [|intro]
    | match goal with
      | |- obeys _ _ _ (if ?b then _ else _) => destruct b
      | |- obeys _ _ _ (match ?x with _ => _ end) => destruct x
      end ].

Lemma sink_final_code_0_or_1 :
  forall obj code,
    ImportWithSink.main_final_code obj = inr code -> status_0_or_1 code.
Proof.
  intros obj code. unfold ImportWithSink.main_final_code, and_then.
  destruct (get obj "error") as [?|e]; [discriminate|].
  assert (H1 : @inr PyExn Z 1 = inr code -> status_0_or_1 code)
    by (intros H; injection H as <-; now right).
  destruct e; try exact H1.
  destruct (get obj "response") as [?|r]; [discriminate|].
  destruct (get_default _ _ _) as [?|c]; [discriminate|].
  destruct (py_int c) as [?|n]; [discriminate|].
  intros H. injection H as <-.
  destruct (n =? 0); [now left|now right].
Qed.

Lemma obeys_sink_main_result :
  forall poll sink op_url obj,
    obeys (sink_effect poll sink op_url) never_exits anything
      (ImportWithSink.main_result obj).
Proof.
  intros poll sink op_url obj. unfold ImportWithSink.main_result.
  unfold print, print_json. sink_obey.
Qed.

Lemma obeys_sink_main_sink_report :
  forall poll sink op_url,
    obeys (sink_effect poll sink op_url) never_exits
      (fun early => early = None \/ early = Some 1)
      (ImportWithSink.main_sink_report env sink).
Proof.
  intros poll sink op_url. unfold ImportWithSink.main_sink_report.
  unfold print.
  apply obeys_then; [sink_obey|intros _].
  apply obeys_then; [sink_obey|intros ls].
  destruct (negb (returncode ls =? 0)).
  - apply obeys_then; [sink_obey|intros _]. apply obeys_ret. now right.
  - apply obeys_then; [sink_obey|intros _].
    apply obeys_then; [sink_obey|intros _].
    apply obeys_then; [sink_obey|intros cat].
    apply obeys_then; [sink_obey|intros _]. apply obeys_ret. now left.
Qed.

Lemma obeys_sink_main_poll_loop :
  forall fuel args sink op_url deadline,
    obeys (sink_effect (ImportWithSink.poll_seconds args) sink op_url)
      never_exits status_0_or_1
      (ImportWithSink.main_poll_loop env fuel args sink op_url deadline).
Proof.
  intros fuel args sink op_url deadline.
  induction fuel as [|fuel IH]; cbn [ImportWithSink.main_poll_loop];
    [apply obeys_out_of_fuel|].
  apply obeys_then; [sink_obey|intros t].
  destruct (t <? deadline).
  2:{ unfold print. apply obeys_then; [sink_obey|intros _].
      apply obeys_then; [sink_obey|intros _]. apply obeys_ret. now right. }
  apply obeys_then; [sink_obey|intros r].
  destruct r as [e|st text body]; [apply obeys_raise|].
  destruct (st >=? 400).
  { unfold print. apply obeys_then; [sink_obey|intros _].
    apply obeys_then; [sink_obey|intros _].
    apply obeys_then; [sink_obey|intros _]. apply obeys_ret. now right. }
  apply obeys_then; [destruct body; sink_obey|intros obj].
  apply obeys_then; [sink_obey|intros d].
  destruct (negb (truthy d)).
  - unfold print. apply obeys_then; [sink_obey|intros _].
    apply obeys_then; [sink_obey|intros _]. apply IH.
  - unfold print at 1. apply obeys_then; [sink_obey|intros _].
    apply obeys_then; [apply obeys_sink_main_result|intros _].
    eapply obeys_bind; [apply obeys_sink_main_sink_report|].
    intros early [->| ->].
    + apply obeys_eval_value. apply sink_final_code_0_or_1.
    + apply obeys_ret. now right.
Qed.

Lemma length_append :
  forall a b : string,
    String.length (a ++ b) = (String.length a + String.length b)%nat.
Proof. induction a as [|c a IH]; intros b; simpl; [reflexivity|now rewrite IH]. Qed.

Lemma endswith_slash : forall a, endswith (a ++ "/") "/" = true.
Proof.
  intros a. unfold endswith. rewrite length_append. simpl String.length.
  replace (1 <=? String.length a + 1)%nat with true
    by (symmetry; apply Nat.leb_le; lia).
  replace (String.length a + 1 - 1)%nat with (String.length a) by lia.
  simpl andb. apply String.eqb_eq.
  induction a as [|c a IH]; simpl; [reflexivity|exact IH].
Qed.

Lemma startswith_gs : forall x, startswith ("gs://" ++ x) "gs://" = true.
Proof. intros x. unfold startswith. simpl. now destruct x. Qed.

Lemma startswith_append :
  forall p s x, startswith s p = true -> startswith (s ++ x) p = true.
Proof.
  unfold startswith.
  induction p as [|a p IH]; intros s x H.
  - now destruct (s ++ x).
  - destruct s as [|b s]; simpl in *; [discriminate|].
    destruct (ascii_dec a b); [now apply IH|discriminate].
Qed.

Lemma endswith_slash_assoc :
  forall a b, endswith (a ++ b ++ "/") "/" = true.
Proof.
  intros a b.
  replace (a ++ b ++ "/") with ((a ++ b) ++ "/"); [apply endswith_slash|].
  induction a as [|c a IH]; simpl; [reflexivity|now rewrite IH].
Qed.

Lemma sink_submitted_intro :
  forall args sink op_url w rq w',
    valid_sink sink ->
    rq = POST (import_url (ImportWithSink.location args)
                 (ImportWithSink.corpus args))
              (sink_payload (ImportWithSink.gcs_uri args) sink) ->
    within (sink_effect (ImportWithSink.poll_seconds args) sink op_url)
      (sent env w rq) w' ->
    sink_submitted args w w'.
Proof.
  intros args sink op_url w rq w' Hv -> Hw.
  exists sink, op_url. split; [exact Hv|]. now apply (starts_with_sent env).
Qed.

Lemma chunked_final_code_0_or_1 :
  forall op code,
    ImportWithSinkChunked.main_final_code op = inr code ->
    status_0_or_1 code.
Proof.
  intros op code. unfold ImportWithSinkChunked.main_final_code, and_then.
  destruct (get op "error") as [?|e]; [discriminate|].
  assert (H1 : @inr PyExn Z 1 = inr code -> status_0_or_1 code)
    by (intros H; injection H as <-; now right).
  destruct e; try exact H1.
  destruct (get op "response") as [?|r]; [discriminate|].
  destruct (get_default _ _ _) as [?|c]; [discriminate|].
  destruct (py_int c) as [?|n]; [discriminate|].
  intros H. injection H as <-.
  destruct (n =? 0); [now left|now right].
Qed.

Lemma obeys_chunked_main_result :
  forall poll sink op_url op,
    obeys (sink_effect poll sink op_url) never_exits anything
      (ImportWithSinkChunked.main_result op).
Proof.
  intros poll sink op_url op. unfold ImportWithSinkChunked.main_result.
  unfold print, print_json. sink_obey.
Qed.

Lemma obeys_chunked_main_sink_report :
  forall poll sink op_url,
    obeys (sink_effect poll sink op_url) never_exits anything
      (ImportWithSinkChunked.main_sink_report env sink).
Proof.
  intros poll sink op_url. unfold ImportWithSinkChunked.main_sink_report.
  unfold print. sink_obey.
Qed.

Lemma obeys_chunked_main_poll_loop :
  forall fuel args sink op_url deadline,
    obeys (sink_effect (ImportWithSinkChunked.poll_seconds args) sink op_url)
      never_exits status_0_or_1
      (ImportWithSinkChunked.main_poll_loop env fuel args sink op_url
         deadline).
Proof.
  intros fuel args sink op_url deadline.
  induction fuel as [|fuel IH]; cbn [ImportWithSinkChunked.main_poll_loop];
    [apply obeys_out_of_fuel|].
  apply obeys_then; [sink_obey|intros t].
  destruct (t <? deadline); [|unfold print; sink_obey].
  apply obeys_then; [sink_obey|intros r].
  apply obeys_then; [destruct r as [e|st text [j|]]; sink_obey|intros op].
  apply obeys_then; [sink_obey|intros d].
  destruct (negb (truthy d)).
  - unfold print. apply obeys_then; [sink_obey|intros _].
    apply obeys_then; [sink_obey|intros _]. apply IH.
  - unfold print at 1. apply obeys_then; [sink_obey|intros _].
    apply obeys_then; [apply obeys_chunked_main_result|intros _].
    apply obeys_then; [apply obeys_chunked_main_sink_report|intros _].
    apply obeys_eval_value. apply chunked_final_code_0_or_1.
Qed.

Ltac finish Hsub poll sink op_url :=
  match goal with
  | |- match ?m ?w1 with _ => _ end =>
      let Hm := fresh "Hm" in
      assert (Hm : obeys
                     (sink_effect poll sink op_url) never_exits status_0_or_1 m)
        by (unfold print, print_json; sink_obey;
            first [apply obeys_sink_main_poll_loop
                  |apply obeys_chunked_main_poll_loop]);
      specialize (Hm w1);
      destruct (m w1) as [? ?|? ?|? ?| |];
      [ destruct Hm as [Hm ?]; split; [assumption|eapply Hsub, Hm]
      | destruct Hm as [_ []]
      | eapply Hsub, Hm
      | exact I
      | exact I ]
  end.

(** X9.  [import_with_sink.py] returns 2 exactly when its arguments
    are refused (a source or a sink prefix that does not start with
    [gs://]), and then it has only written one line to the standard
    error stream: nothing is sent.  Otherwise its first call submits the
    import, once, with a sink prefix that starts with [gs://] and ends
    with a slash; after that it only fetches the operation, sleeps
    exactly one poll interval at a time, runs the two commands that show
    that sink, and writes.  It then returns 0 or 1; it never calls
    [sys.exit]. *)
Theorem sink_script_effects :
  forall fuel args w,
    match ImportWithSink.main env fuel args w with
    | Ok code w' =>
        (code = 2 /\ sink_bad_arguments args
         /\ exists line, w' = printed w [EvErr line])
        \/ (status_0_or_1 code /\ ~ sink_bad_arguments args
            /\ sink_submitted args w w')
    | Raised _ w' => ~ sink_bad_arguments args /\ sink_submitted args w w'
    | SysExit _ _ => False
    | Unmodelled | OutOfFuel => True
    end.
Proof.
  intros fuel args w. unfold ImportWithSink.main.
  destruct (startswith (ImportWithSink.gcs_uri args) "gs://") eqn:Eg;
    cbn [negb].
  2:{ left. split; [reflexivity|]. split; [now left|].
      eexists. reflexivity. }
  match goal with
  | |- match bind _ ?k _ with _ => _ end => set (K := k)
  end.
  assert (HK : forall sink,
             valid_sink sink ->
             match K (inr sink) w with
             | Ok code w' => status_0_or_1 code /\ sink_submitted args w w'
             | Raised _ w' => sink_submitted args w w'
             | SysExit _ _ => False
             | Unmodelled | OutOfFuel => True
             end).
  { intros sink Hv. subst K. cbv beta iota.
    unfold bind at 1. unfold session_request at 1.
    match goal with
    | |- context [serve env w ?rq] =>
        assert (Hsub : forall op_url w',
                  within (sink_effect (ImportWithSink.poll_seconds args)
                            sink op_url) (sent env w rq) w' ->
                  sink_submitted args w w')
          by (intros op_url w' Hw;
              eapply sink_submitted_intro; [exact Hv|reflexivity|exact Hw]);
        fold (sent env w rq);
        generalize dependent (sent env w rq);
        destruct (serve env w rq) as [e|st text body]
    end; intros w1 Hsub.
    - apply (Hsub EmptyString). apply within_refl.
    - destruct (st >=? 400); [finish Hsub (ImportWithSink.poll_seconds args) sink EmptyString|].
      destruct body as [op|]; unfold bind at 1; cbn [ret raise];
        [|apply (Hsub EmptyString); apply within_refl].
      unfold bind at 1.
      destruct (get op "name") as [e|op_name]; cbn [eval ret raise];
        [apply (Hsub EmptyString); apply within_refl|].
      destruct (negb (truthy op_name)); [finish Hsub (ImportWithSink.poll_seconds args) sink EmptyString|].
      destruct op_name as [| | | |op_name| |]; try exact I.
      match goal with
      | |- context [ImportWithSink.main_poll_loop env fuel args sink ?u _] =>
          finish Hsub (ImportWithSink.poll_seconds args) sink u
      end. }
  assert (Hgood : forall sink,
             valid_sink sink -> ~ sink_bad_arguments args ->
             match K (inr sink) w with
             | Ok code w' =>
                 code = 2 /\ sink_bad_arguments args /\
                 (exists line, w' = printed w [EvErr line]) \/
                 status_0_or_1 code /\ ~ sink_bad_arguments args /\
                 sink_submitted args w w'
             | SysExit _ _ => False
             | Raised _ w' =>
                 ~ sink_bad_arguments args /\ sink_submitted args w w'
             | Unmodelled | OutOfFuel => True
             end).
  { intros sink Hv Hok. specialize (HK sink Hv).
    destruct (K (inr sink) w) as [code w'|c w'|e w'| |]; try exact HK.
    - right. destruct HK. repeat split; assumption.
    - split; assumption. }
  assert (Hbad : forall code w0, K (inl code) w0 = Ok code w0)
    by reflexivity.
  clearbody K.
  assert (Hdefault : forall ts,
             valid_sink
               ("gs://"
                  ++ before_slash (slice_from 5 (ImportWithSink.gcs_uri args))
                  ++ "/import_results/vertex_" ++ str_of_Z ts ++ "/")).
  { intros ts. split; [apply startswith_gs|].
    replace ("gs://"
               ++ before_slash (slice_from 5 (ImportWithSink.gcs_uri args))
               ++ "/import_results/vertex_" ++ str_of_Z ts ++ "/")
      with (("gs://"
               ++ before_slash (slice_from 5 (ImportWithSink.gcs_uri args))
               ++ "/import_results/vertex_") ++ str_of_Z ts ++ "/").
    - apply endswith_slash_assoc.
    - simpl. do 5 f_equal.
      induction (before_slash _) as [|c b IH]; simpl; [reflexivity|].
      now rewrite IH. }
  unfold bind at 1.
  destruct (ImportWithSink.sink_prefix args) as [[|c p]|] eqn:Ep.
  - unfold bind, time_time, ret. apply Hgood; [apply Hdefault|].
    intros [H|(c & p & H & _)]; congruence.
  - destruct (startswith (String c p) "gs://") eqn:Es; cbn [negb].
    + assert (Hok : ~ sink_bad_arguments args).
      { intros [H|(c' & p' & H & H')]; [congruence|].
        rewrite Ep in H. injection H as <- <-. congruence. }
      destruct (endswith (String c p) "/") eqn:Ee; cbn [negb ret].
      * apply Hgood; [split; assumption|exact Hok].
      * apply Hgood; [|exact Hok]. split; [|apply endswith_slash].
        apply startswith_append. exact Es.
    + unfold bind, eprint, log, ret. rewrite Hbad.
      left. split; [reflexivity|]. split.
      * right. exists c, p. split; [exact Ep|exact Es].
      * eexists. reflexivity.
  - unfold bind, time_time, ret. apply Hgood; [apply Hdefault|].
    intros [H|(c & p & H & _)]; congruence.
Qed.

(** X10.  [import_with_sink_chunked.py] returns 2 exactly when the
    source does not start with [gs://], and then it has only written
    one line to the standard error stream.  Otherwise its first call
    submits the import, once, with the chunking parameters and a sink
    prefix that starts with [gs://] and ends with a slash; after that
    it only fetches the operation, sleeps exactly one poll interval at
    a time, runs the two commands that show that sink, and writes.  It
    then returns 0 or 1; it never calls [sys.exit]. *)
Theorem chunked_script_effects :
  forall fuel args w,
    match ImportWithSinkChunked.main env fuel args w with
    | Ok code w' =>
        (code = 2
         /\ startswith (ImportWithSinkChunked.gcs_uri args) "gs://" = false
         /\ exists line, w' = printed w [EvErr line])
        \/ (status_0_or_1 code
            /\ startswith (ImportWithSinkChunked.gcs_uri args) "gs://" = true
            /\ chunked_submitted args w w')
    | Raised _ w' =>
        startswith (ImportWithSinkChunked.gcs_uri args) "gs://" = true /\
        chunked_submitted args w w'
    | SysExit _ _ => False
    | Unmodelled | OutOfFuel => True
    end.
Proof.
  intros fuel args w. unfold ImportWithSinkChunked.main.
  destruct (startswith (ImportWithSinkChunked.gcs_uri args) "gs://") eqn:Eg;
    cbn [negb].
  2:{ left. split; [reflexivity|]. split; [reflexivity|].
      eexists. reflexivity. }
  unfold bind at 1. unfold time_time at 1.
  set (sink := "gs://"
                 ++ before_slash
                      (slice_from 5 (ImportWithSinkChunked.gcs_uri args))
                 ++ "/import_results/chunked_" ++ str_of_Z (clock w) ++ "/").
  assert (Hv : valid_sink sink).
  { split; [apply startswith_gs|]. subst sink.
    replace ("gs://"
               ++ before_slash
                    (slice_from 5 (ImportWithSinkChunked.gcs_uri args))
               ++ "/import_results/chunked_" ++ str_of_Z (clock w) ++ "/")
      with (("gs://"
               ++ before_slash
                    (slice_from 5 (ImportWithSinkChunked.gcs_uri args))
               ++ "/import_results/chunked_") ++ str_of_Z (clock w) ++ "/").
    - apply endswith_slash_assoc.
    - simpl. do 5 f_equal.
      induction (before_slash _) as [|c b IH]; simpl; [reflexivity|].
      now rewrite IH. }
  cbv beta iota zeta. fold sink.
  assert (Hgoal :
    forall m : M Z,
      match m w with
      | Ok code w' => status_0_or_1 code /\ chunked_submitted args w w'
      | Raised _ w' => chunked_submitted args w w'
      | SysExit _ _ => False
      | Unmodelled | OutOfFuel => True
      end ->
      match m w with
      | Ok code w' =>
          code = 2 /\ true = false /\
          (exists line : string, w' = printed w [EvErr line]) \/
          status_0_or_1 code /\ true = true /\ chunked_submitted args w w'
      | SysExit _ _ => False
      | Raised _ w' => true = true /\ chunked_submitted args w w'
      | Unmodelled | OutOfFuel => True
      end).
  { intros m H. destruct (m w); try exact H.
    - right. destruct H. repeat split; assumption.
    - split; [reflexivity|exact H]. }
  apply Hgoal. clear Hgoal.
  unfold bind at 1. unfold session_request at 1.
  match goal with
  | |- context [serve env w ?rq] =>
      assert (Hsub : forall op_url w',
                within (sink_effect (ImportWithSinkChunked.poll_seconds args)
                          sink op_url) (sent env w rq) w' ->
                chunked_submitted args w w')
        by (intros op_url w' Hw; exists sink, op_url;
            split; [exact Hv|]; apply (starts_with_sent env); exact Hw);
      fold (sent env w rq);
      generalize dependent (sent env w rq);
      destruct (serve env w rq) as [e|st text body]
  end; intros w1 Hsub.
  - apply (Hsub EmptyString). apply within_refl.
  - destruct (st >=? 400);
      [finish Hsub (ImportWithSinkChunked.poll_seconds args) sink EmptyString|].
    destruct body as [op|]; unfold bind at 1; cbn [ret raise];
      [|apply (Hsub EmptyString); apply within_refl].
    unfold bind at 1.
    destruct (get op "name") as [e|op_name]; cbn [eval ret raise];
      [apply (Hsub EmptyString); apply within_refl|].
    destruct (negb (truthy op_name));
      [finish Hsub (ImportWithSinkChunked.poll_seconds args) sink EmptyString|].
    destruct op_name as [| | | |op_name| |]; try exact I.
    match goal with
    | |- context [ImportWithSinkChunked.main_poll_loop env fuel args sink ?u _] =>
        finish Hsub (ImportWithSinkChunked.poll_seconds args) sink u
    end.
Qed.

End SinkEffects.

(** ** The sink scripts give up at the deadline *)

Section SinkTimeouts.

Context (env : Env).

Lemma done_default :
  forall m,
    truthy (match lookup "done" m with Some v => v | None => JBool false end)
    = truthy (field "done" m).
Proof. intros m. unfold field. now destruct (lookup "done" m). Qed.

(** X11.  If the operation is never done, [import_with_sink.py] fetches
    it and sleeps one poll interval, again and again, until the deadline
    has passed; it then writes the timeout report and returns 1.  It
    never looks at the sink. *)
Theorem sink_poller_times_out :
  forall args sink op_url deadline fuel w,
    0 < ImportWithSink.poll_seconds args ->
    sink_never_done env op_url deadline ->
    (Z.to_nat (deadline - clock w) < fuel)%nat ->
    exists w' n,
      ImportWithSink.main_poll_loop env fuel args sink op_url deadline w
      = Ok 1 w' /\
      deadline <= clock w' /\
      trace w'
      = (trace w
           ++ rounds n (sink_round (ImportWithSink.poll_seconds args) op_url)
           ++ [EvOut "Complete";
               EvOut ("Result: FAILED (timed out after "
                        ++ str_of_Z (ImportWithSink.timeout_minutes args)
                        ++ " minutes)")])%list.
Proof.
  intros args sink op_url deadline fuel.
  induction fuel as [|fuel IH]; intros w Hpoll Hnd Hfuel; [lia|].
  cbn [ImportWithSink.main_poll_loop]. unfold bind at 1. unfold time_time at 1.
  destruct (Z_lt_le_dec (clock w) deadline) as [Hlt|Hge].
  - replace (clock w <? deadline) with true by (symmetry; apply Z.ltb_lt; lia).
    destruct (Hnd w Hlt) as (st & text & m & Hs & Hst & Hd).
    unfold bind at 1. unfold session_request at 1. rewrite Hs.
    replace (st >=? 400) with false
      by (rewrite Z.geb_leb; symmetry; apply Z.leb_gt; lia).
    unfold bind at 1. unfold ret at 1. unfold bind at 1.
    unfold get_default. cbn [eval]. unfold ret at 1.
    rewrite done_default, Hd. cbn [negb].
    unfold bind at 1. unfold print at 1. unfold log at 1.
    unfold bind at 1. unfold time_sleep at 1.
    replace (ImportWithSink.poll_seconds args <? 0) with false
      by (symmetry; apply Z.ltb_ge; lia).
    match goal with
    | |- context [ImportWithSink.main_poll_loop env fuel args sink op_url
                    deadline ?w1] => set (w2 := w1)
    end.
    assert (Hc2 : clock w + 1 <= clock w2) by (subst w2; simpl; lia).
    destruct (IH w2 Hpoll Hnd) as (w' & n & Hrun & Hcl & Htr); [lia|].
    exists w', (S n). split; [exact Hrun|]. split; [exact Hcl|].
    rewrite Htr. subst w2. unfold sink_round. simpl.
    rewrite <- !app_assoc. reflexivity.
  - replace (clock w <? deadline) with false
      by (symmetry; apply Z.ltb_ge; lia).
    eexists. exists 0%nat. split; [reflexivity|].
    split; [simpl; lia|]. simpl. rewrite <- app_assoc. reflexivity.
Qed.

(** X12.  The same for [import_with_sink_chunked.py], which takes every
    reply with a JSON body as a snapshot, whatever its status. *)
Theorem chunked_poller_times_out :
  forall args sink op_url deadline fuel w,
    0 < ImportWithSinkChunked.poll_seconds args ->
    chunked_never_done env op_url deadline ->
    (Z.to_nat (deadline - clock w) < fuel)%nat ->
    exists w' n,
      ImportWithSinkChunked.main_poll_loop env fuel args sink op_url deadline w
      = Ok 1 w' /\
      deadline <= clock w' /\
      trace w'
      = (trace w
           ++ rounds n (sink_round (ImportWithSinkChunked.poll_seconds args)
                          op_url)
           ++ [EvOut "Complete"; EvOut "Result: FAILED (timed out)"])%list.
Proof.
  intros args sink op_url deadline fuel.
  induction fuel as [|fuel IH]; intros w Hpoll Hnd Hfuel; [lia|].
  cbn [ImportWithSinkChunked.main_poll_loop].
  unfold bind at 1. unfold time_time at 1.
  destruct (Z_lt_le_dec (clock w) deadline) as [Hlt|Hge].
  - replace (clock w <? deadline) with true by (symmetry; apply Z.ltb_lt; lia).
    destruct (Hnd w Hlt) as (st & text & m & Hs & Hd).
    unfold bind at 1. unfold session_request at 1. rewrite Hs.
    unfold bind at 1. unfold ret at 1. unfold bind at 1.
    unfold get_default. cbn [eval]. unfold ret at 1.
    rewrite done_default, Hd. cbn [negb].
    unfold bind at 1. unfold print at 1. unfold log at 1.
    unfold bind at 1. unfold time_sleep at 1.
    replace (ImportWithSinkChunked.poll_seconds args <? 0) with false
      by (symmetry; apply Z.ltb_ge; lia).
    match goal with
    | |- context [ImportWithSinkChunked.main_poll_loop env fuel args sink
                    op_url deadline ?w1] => set (w2 := w1)
    end.
    assert (Hc2 : clock w + 1 <= clock w2) by (subst w2; simpl; lia).
    destruct (IH w2 Hpoll Hnd) as (w' & n & Hrun & Hcl & Htr); [lia|].
    exists w', (S n). split; [exact Hrun|]. split; [exact Hcl|].
    rewrite Htr. subst w2. unfold sink_round. simpl.
    rewrite <- !app_assoc. reflexivity.
  - replace (clock w <? deadline) with false
      by (symmetry; apply Z.ltb_ge; lia).
    eexists. exists 0%nat. split; [reflexivity|].
    split; [simpl; lia|]. simpl. rewrite <- app_assoc. reflexivity.
Qed.

End SinkTimeouts.

(** ** The answer endpoint: errors and citations *)

Section AnswerEndpointErrors.

Import DemoApp.
Context (env : Env) (cfg : Config)
        (py_str : json -> string) (exn_text : PyExn -> string).

(** [retrieve_contexts] makes its call and then returns or raises. *)
Lemma retrieve_contexts_cases :
  forall question w,
    let w1 := sent env w (retrieval_request cfg question) in
    (exists contexts,
        retrieve_contexts env cfg question (TOP_K cfg) w = Ok contexts w1)
    \/ (exists e,
          retrieve_contexts env cfg question (TOP_K cfg) w = Raised e w1).
Proof.
  intros question w w1.
  assert (H : match retrieve_contexts env cfg question (TOP_K cfg) w with
              | Ok _ w' | Raised _ w' => w' = w1
              | _ => False
              end).
  { unfold retrieve_contexts, bind, session_request, eval, ret, raise.
    destruct (serve env w _) as [e|st text body]; [reflexivity|].
    destruct (st >=? 400); [reflexivity|].
    destruct body as [data|]; [|reflexivity].
    destruct (get data "contexts") as [e|c]; [reflexivity|].
    destruct (get (por c (JObj [])) "contexts"); reflexivity. }
  destruct (retrieve_contexts env cfg question (TOP_K cfg) w)
    as [contexts w'|? ?|e w'| |]; try contradiction; subst w'.
  - left. now exists contexts.
  - right. now exists e.
Qed.

(** [generate_answer] raises before any call, or makes its call, with
    some context block, and then returns or raises. *)
Lemma generate_answer_cases :
  forall question contexts w,
    (exists e,
        generate_answer env cfg py_str question contexts w = Raised e w)
    \/ exists block,
         let w1 := sent env w (generation_request cfg question block) in
         (exists answer,
             generate_answer env cfg py_str question contexts w
             = Ok answer w1)
         \/ (exists e,
               generate_answer env cfg py_str question contexts w
               = Raised e w1).
Proof.
  intros question contexts w.
  assert (H : match generate_answer env cfg py_str question contexts w with
              | Ok _ w' =>
                  exists block,
                    w' = sent env w (generation_request cfg question block)
              | Raised _ w' =>
                  w' = w \/
                  exists block,
                    w' = sent env w (generation_request cfg question block)
              | _ => False
              end).
  { unfold generate_answer, bind, session_request, eval, ret, raise.
    destruct (let? cs := py_iter contexts in ctx_lines_of py_str 1 cs)
      as [e|cl]; [now left|].
    destruct (serve env w _) as [e|st text body];
      [right; eexists; reflexivity|].
    destruct (st >=? 400); [right; eexists; reflexivity|].
    destruct body as [data|]; [|right; eexists; reflexivity].
    destruct (candidate_text data) as [e|[|c a]]; eexists; reflexivity. }
  destruct (generate_answer env cfg py_str question contexts w)
    as [answer w'|? ?|e w'| |]; try contradiction.
  - destruct H as [block ->]. right. exists block. left. now exists answer.
  - destruct H as [->|[block ->]].
    + left. now exists e.
    + right. exists block. right. now exists e.
Qed.

(** X13.  [ask] always answers: no exception leaves it and it never ends
    the process.  It calls the retrieval service once and then, at most
    once, the model; it does nothing else.  Its response is either an
    object with the answer and the contexts, with status 200, after both
    calls, or an object with the text of the error, with status 500. *)
Theorem ask_always_answers :
  forall question w,
    exists r w',
      ask env cfg py_str exn_text question w = Ok r w' /\
      ((trace w' = (trace w ++ [EvHttp (retrieval_request cfg question)])%list
        /\ exists msg, r = error_response msg)
       \/
       exists block,
         trace w'
         = (trace w ++ [EvHttp (retrieval_request cfg question);
                        EvHttp (generation_request cfg question block)])%list
         /\ ((exists msg, r = error_response msg)
             \/ exists answer shown, r = answer_response answer shown)).
Proof.
  intros question w. unfold ask, ask_try. unfold bind at 1.
  destruct (retrieve_contexts_cases question w) as [[contexts ->]|[e ->]].
  2:{ eexists. eexists. split; [reflexivity|].
      left. split; [reflexivity|]. eexists. reflexivity. }
  unfold bind at 1.
  destruct (generate_answer_cases question contexts
              (sent env w (retrieval_request cfg question)))
    as [[e ->]|[block [[answer ->]|[e ->]]]].
  - eexists. eexists. split; [reflexivity|].
    left. split; [reflexivity|]. eexists. reflexivity.
  - unfold bind at 1.
    destruct (let? cs := py_iter contexts in shown_contexts cs) as [e|shown];
      cbn [eval]; unfold ret, raise;
      (eexists; eexists; split; [reflexivity|]);
      right; exists block;
      (split; [simpl; rewrite <- app_assoc; reflexivity|]).
    + left. eexists. reflexivity.
    + right. eexists. eexists. reflexivity.
  - eexists. eexists. split; [reflexivity|].
    right. exists block.
    split; [simpl; rewrite <- app_assoc; reflexivity|].
    left. eexists. reflexivity.
Qed.

(** X14.  When the retrieval service answers with a status of 400 or
    more, [ask] answers with status 500 and the message that gives that
    status and the text of the reply; the model is not called. *)
Theorem ask_reports_retrieval_failure :
  forall question w status text body,
    serve env w (retrieval_request cfg question)
    = HttpResponse status text body ->
    400 <= status ->
    ask env cfg py_str exn_text question w
    = Ok (error_response ("retrieveContexts failed " ++ str_of_Z status
                            ++ ": " ++ text))
         (sent env w (retrieval_request cfg question)).
Proof.
  intros question w status text body Hs Hst.
  unfold ask, ask_try. unfold bind at 1.
  unfold retrieve_contexts. unfold bind at 1. unfold session_request at 1.
  unfold retrieval_request in Hs. cbv zeta in Hs. rewrite Hs.
  replace (status >=? 400) with true
    by (rewrite Z.geb_leb; symmetry; apply Z.leb_le; lia).
  reflexivity.
Qed.

(** X15.  When the retrieval service answers, with a status below 400,
    an object without contexts, the model is still asked, with the
    placeholder in the place of the context block, and a response with
    the answer has an empty list of contexts. *)
Theorem ask_with_nothing_retrieved :
  forall question w status text m,
    serve env w (retrieval_request cfg question)
    = HttpResponse status text (Some (JObj m)) ->
    status < 400 ->
    truthy (field "contexts" m) = false ->
    exists r w',
      ask env cfg py_str exn_text question w = Ok r w' /\
      trace w'
      = (trace w ++ [EvHttp (retrieval_request cfg question);
                     EvHttp (generation_request cfg question
                               "(No relevant context found.)")])%list /\
      ((exists msg, r = error_response msg)
       \/ exists answer, r = answer_response answer []).
Proof.
  intros question w status text m Hs Hst Hc.
  assert (Hr : retrieve_contexts env cfg question (TOP_K cfg) w
               = Ok (JArr []) (sent env w (retrieval_request cfg question))).
  { unfold retrieve_contexts. unfold bind at 1. unfold session_request at 1.
    unfold retrieval_request in Hs. cbv zeta in Hs. rewrite Hs.
    replace (status >=? 400) with false
      by (rewrite Z.geb_leb; symmetry; apply Z.leb_gt; lia).
    unfold bind at 1. unfold ret at 1. unfold bind at 1.
    unfold get, get_default. fold (field "contexts" m). cbn [eval].
    unfold ret at 1. unfold por at 1. rewrite Hc. reflexivity. }
  unfold ask, ask_try. unfold bind at 1. rewrite Hr.
  set (w1 := sent env w (retrieval_request cfg question)).
  unfold bind at 1. unfold generate_answer. unfold bind at 1.
  cbn [py_iter and_then ctx_lines_of eval]. unfold ret at 1.
  unfold bind at 1. unfold session_request at 1.
  fold (generation_request cfg question "(No relevant context found.)").
  destruct (serve env w1 _) as [e|st text' body].
  { eexists. eexists. split; [reflexivity|].
    split; [subst w1; simpl; rewrite <- app_assoc; reflexivity|].
    left. eexists. reflexivity. }
  destruct (st >=? 400).
  { eexists. eexists. split; [reflexivity|].
    split; [subst w1; simpl; rewrite <- app_assoc; reflexivity|].
    left. eexists. reflexivity. }
  destruct body as [data|].
  2:{ eexists. eexists. split; [reflexivity|].
      split; [subst w1; simpl; rewrite <- app_assoc; reflexivity|].
      left. eexists. reflexivity. }
  unfold bind at 1. unfold ret at 1.
  destruct (candidate_text data) as [e|[|c a]];
    (eexists; eexists; split; [reflexivity|];
     split; [subst w1; simpl; rewrite <- app_assoc; reflexivity|];
     right; eexists; reflexivity).
Qed.

Lemma cited_at_shift :
  forall c s cs shown first k line,
    cited_at cs shown (first + 1) k line ->
    cited_at (c :: cs) (s :: shown) first (S k) line.
Proof.
  intros c s cs shown first k line (c0 & src & t & u & sc & H1 & H2 & H3 & H4 & H5).
  exists c0, src, t, u, sc. repeat split; try assumption.
  rewrite H4. replace (first + Z.of_nat (S k)) with (first + 1 + Z.of_nat k)
    by lia. reflexivity.
Qed.

Lemma Forall2_map_S :
  forall (P Q : nat -> string -> Prop) ks lines,
    (forall k line, P k line -> Q (S k) line) ->
    Forall2 P ks lines -> Forall2 Q (map S ks) lines.
Proof.
  intros P Q ks lines H H2. induction H2; simpl; constructor; auto.
Qed.

Lemma StronglySorted_map_S :
  forall ks, StronglySorted lt ks -> StronglySorted lt (map S ks).
Proof.
  intros ks H. induction H as [|k ks Hs IH Hall]; simpl; constructor; auto.
  rewrite Forall_forall in *. intros x Hx.
  apply in_map_iff in Hx as (y & <- & Hy). specialize (Hall y Hy). lia.
Qed.

Lemma Forall_lt_map_S : forall ks, Forall (lt 0) (map S ks).
Proof. intros ks. apply Forall_forall. intros x Hx.
  apply in_map_iff in Hx as (y & <- & _). lia.
Qed.

(** X16.  The numbers of the context block are the positions of the
    contexts in the retrieved list, counted from 1, which are their
    positions in the [contexts] list of the response: a line with the
    number [k] carries the text of the [k]-th retrieved context, which
    is not blank, and the [k]-th shown context holds the first 800
    characters of that text.  The lines come in the order of the list,
    one at most for each context; a context with a blank text gives no
    line and still counts. *)
Theorem citations_point_at_shown_contexts :
  forall cs first lines shown,
    ctx_lines_of py_str first cs = inr lines ->
    shown_contexts cs = inr shown ->
    exists ks,
      StronglySorted lt ks /\
      Forall2 (cited_at cs shown first) ks lines.
Proof.
  induction cs as [|c cs IH]; intros first lines shown Hl Hs.
  - simpl in Hl. injection Hl as <-. exists []. split; constructor.
  - cbn [ctx_lines_of shown_contexts] in Hl, Hs. unfold and_then in Hl, Hs.
    destruct (get c "sourceUri") as [?|u] eqn:Eu; [discriminate|].
    destruct (get c "score") as [?|sc] eqn:Esc; [discriminate|].
    destruct (if truthy u then _ else _) as [?|src]; [discriminate|].
    destruct (get c "text") as [?|t0] eqn:Et; [discriminate|].
    destruct (por t0 (JStr EmptyString)) as [| | | |t| |] eqn:Ep;
      simpl in Hl; try discriminate.
    simpl in Hs.
    destruct (shown_contexts cs) as [?|tl] eqn:Etl; [discriminate|].
    injection Hs as <-.
    destruct (String.eqb_spec (strip t) EmptyString) as [Eb|Hb].
    + destruct (IH (first + 1) lines tl Hl eq_refl) as (ks & Hsorted & Hall).
      exists (map S ks). split; [now apply StronglySorted_map_S|].
      eapply Forall2_map_S; [|exact Hall].
      intros k line. apply cited_at_shift.
    + destruct (ctx_lines_of py_str (first + 1) cs) as [?|lines'] eqn:El;
        [discriminate|].
      injection Hl as <-.
      destruct (IH (first + 1) lines' tl El eq_refl)
        as (ks & Hsorted & Hall).
      exists (0%nat :: map S ks). split.
      * constructor; [now apply StronglySorted_map_S|apply Forall_lt_map_S].
      * constructor.
        -- assert (Ht0 : t0 = JStr t).
           { unfold por in Ep. destruct (truthy t0); [exact Ep|].
             injection Ep as <-. now contradiction Hb. }
           subst t0.
           exists c, (fmt py_str src), t, u, sc.
           repeat split; try assumption; try reflexivity.
           simpl. now rewrite Z.add_0_r.
        -- eapply Forall2_map_S; [|exact Hall].
           intros k line. apply cited_at_shift.
Qed.

End AnswerEndpointErrors.

(** ** Runs that meet the conditions of the properties above *)

Section MoreRuns.

Import ImportAndWait.

Lemma tracker_succeeds_when_all_active_witness :
  exists w',
    main_wait_rag_files (order := Script.listing_order) listed_and_active 2
      plain_args Script.boot = Ok tt w' /\
    trace w'
    = [EvOut "Waiting for RagFiles to appear...";
       EvHttp (GET (list_url "europe-west4" "corpora/1") JNull);
       EvOut "Found 2 RagFile(s). Waiting for ACTIVE.";
       EvHttp (fetch "europe-west4" "f/a");
       EvHttp (fetch "europe-west4" "f/b");
       EvOut "Complete";
       EvOut "Final Result: SUCCESS (all RagFiles are ACTIVE and indexed)."].
Proof.
  destruct (tracker_succeeds_when_all_active listed_and_active
              (order := Script.listing_order) 0 plain_args Script.boot
              [record "f/a" "PENDING"; record "f/b" "PENDING"]
              (mkWorld 1 [EvOut "Waiting for RagFiles to appear...";
                          EvHttp (GET (list_url "europe-west4" "corpora/1")
                                      JNull)])
              [JStr "f/a"; JStr "f/b"] ["f/a"; "f/b"]
              [Script.ok (record "f/a" "ACTIVE");
               Script.ok (record "f/b" "ACTIVE")])
    as (w' & Hrun & Htr).
  - simpl. lia.
  - reflexivity.
  - reflexivity.
  - discriminate.
  - reflexivity.
  - simpl. lia.
  - apply (script_answers_from
             [Script.ok (JObj [("ragFiles", JArr [record "f/a" "PENDING";
                                                  record "f/b" "PENDING"])]);
              Script.ok (record "f/a" "ACTIVE");
              Script.ok (record "f/b" "ACTIVE")] 1 []
             (mkWorld 1 [EvOut "Waiting for RagFiles to appear...";
                         EvHttp (GET (list_url "europe-west4" "corpora/1")
                                     JNull)])).
  - constructor; [|constructor; [|constructor]].
    + exists (record "f/a" "ACTIVE"), (JStr EmptyString).
      split; [exists 200, EmptyString; split; [reflexivity|lia]|reflexivity].
    + exists (record "f/b" "ACTIVE"), (JStr EmptyString).
      split; [exists 200, EmptyString; split; [reflexivity|lia]|reflexivity].
  - exists w'. split; [exact Hrun|]. rewrite Htr. reflexivity.
Defined.

Lemma tracker_times_out_when_never_active_witness :
  exists w' n,
    main_wait_rag_files (order := Script.listing_order) pending_forever 121
      short_args Script.boot = SysExit 1 w' /\
    120 <= clock w' /\
    trace w'
    = ([EvOut "Waiting for RagFiles to appear...";
        EvHttp (GET (list_url "europe-west4" "corpora/1") JNull);
        EvOut "Found 1 RagFile(s). Waiting for ACTIVE."]
         ++ rounds n (idle_sweep short_args ["f/a"])
         ++ activation_failure ["f/a"])%list.
Proof.
  destruct (tracker_times_out_when_never_active pending_forever
              (order := Script.listing_order) 121 short_args Script.boot
              [record "f/a" "PENDING"]
              (mkWorld 0 [EvOut "Waiting for RagFiles to appear...";
                          EvHttp (GET (list_url "europe-west4" "corpora/1")
                                      JNull)])
              [JStr "f/a"] ["f/a"])
    as (w' & n & Hrun & Hcl & Htr & _).
  - simpl. lia.
  - simpl. lia.
  - reflexivity.
  - reflexivity.
  - discriminate.
  - reflexivity.
  - intros w n [<-|[]].
    exists (record "f/a" "PENDING"), (JStr "PENDING"), (JStr EmptyString).
    split; [exists 200, EmptyString; split; [reflexivity|lia]|].
    repeat split; reflexivity.
  - simpl. lia.
  - exists w', n. split; [exact Hrun|]. split; [exact Hcl|].
    rewrite Htr. reflexivity.
Defined.

Lemma submission_failure_halts_witness :
  exists w',
    main (order := Script.listing_order)
      (Script.env [Script.ok (JObj [])] 1 []) 5 plain_args Script.boot
    = SysExit 1 w' /\
    requests (trace w')
    = [import_request "europe-west4" "corpora/1" ["gs://b/a.ndjson"]].
Proof.
  destruct (submission_failure_halts (Script.env [Script.ok (JObj [])] 1 [])
              (order := Script.listing_order) 5 plain_args Script.boot)
    as (w' & Hrun & Hreq).
  - intros op (st & text & E & _). simpl in E. injection E as _ _ <-.
    exists []. split; reflexivity.
  - exists w'. split; [exact Hrun|exact Hreq].
Defined.

Lemma list_rag_files_returns_no_partial_listing_witness :
  exists w',
    list_rag_files broken_listing 5 "europe-west4" "corpora/1" Script.boot
    = SysExit 1 w' /\
    List.length (requests (trace w')) = 2%nat.
Proof.
  destruct (list_rag_files_returns_no_partial_listing broken_listing
              "europe-west4" "corpora/1"
              [[("ragFiles", JArr [record "f/a" "ACTIVE"]);
                ("nextPageToken", JStr "page-2")]]
              5 Script.boot) as (w' & Hrun & Hlen).
  - exists [Script.ok (JObj [("ragFiles", JArr [record "f/a" "ACTIVE"]);
                             ("nextPageToken", JStr "page-2")])], unavailable.
    split; [apply script_answers|].
    split; [repeat constructor; exists 200, EmptyString;
            (split; [reflexivity|lia])|].
    split; [repeat constructor; eexists; reflexivity|].
    intros j (st & text & E & H). injection E as <- _ _. lia.
  - simpl. lia.
  - exists w'. split; [exact Hrun|exact Hlen].
Defined.

Lemma sink_poller_times_out_witness :
  exists w' n,
    ImportWithSink.main_poll_loop stalled_service 121 short_sink_args
      "gs://b/out/" "https://host/operations/7" 120 Script.boot = Ok 1 w' /\
    120 <= clock w' /\
    trace w'
    = (rounds n (sink_round 60 "https://host/operations/7")
         ++ [EvOut "Complete";
             EvOut "Result: FAILED (timed out after 2 minutes)"])%list.
Proof.
  destruct (sink_poller_times_out stalled_service short_sink_args
              "gs://b/out/" "https://host/operations/7" 120 121 Script.boot)
    as (w' & n & Hrun & Hcl & Htr).
  - simpl. lia.
  - intros w _. exists 200, EmptyString, [("done", JBool false)].
    split; [reflexivity|]. split; [lia|reflexivity].
  - simpl. lia.
  - exists w', n. split; [exact Hrun|]. split; [exact Hcl|exact Htr].
Defined.

Lemma chunked_poller_times_out_witness :
  exists w' n,
    ImportWithSinkChunked.main_poll_loop stalled_service 121
      short_chunked_args "gs://b/out/" "https://host/operations/7" 120
      Script.boot = Ok 1 w' /\
    120 <= clock w' /\
    trace w'
    = (rounds n (sink_round 60 "https://host/operations/7")
         ++ [EvOut "Complete"; EvOut "Result: FAILED (timed out)"])%list.
Proof.
  destruct (chunked_poller_times_out stalled_service short_chunked_args
              "gs://b/out/" "https://host/operations/7" 120 121 Script.boot)
    as (w' & n & Hrun & Hcl & Htr).
  - simpl. lia.
  - intros w _. exists 200, EmptyString, [("done", JBool false)].
    split; reflexivity.
  - simpl. lia.
  - exists w', n. split; [exact Hrun|]. split; [exact Hcl|exact Htr].
Defined.

Lemma ask_reports_retrieval_failure_witness :
  DemoApp.ask (Script.env [unavailable] 1 []) demo_cfg no_text no_text
    "why?" Script.boot
  = Ok (error_response "retrieveContexts failed 503: Service Unavailable")
       (sent (Script.env [unavailable] 1 []) Script.boot
          (retrieval_request demo_cfg "why?")).
Proof.
  apply (ask_reports_retrieval_failure (Script.env [unavailable] 1 [])
           demo_cfg no_text no_text "why?" Script.boot 503
           "Service Unavailable"
           (Some (JObj [("error", JObj [("code", JInt 503);
                                        ("status", JStr "UNAVAILABLE")])]))).
  - reflexivity.
  - lia.
Defined.

Lemma ask_with_nothing_retrieved_witness :
  exists r w',
    DemoApp.ask (Script.env [Script.ok (JObj [])] 1 []) demo_cfg
      no_text no_text "why?" Script.boot = Ok r w' /\
    trace w'
    = [EvHttp (retrieval_request demo_cfg "why?");
       EvHttp (generation_request demo_cfg "why?"
                 "(No relevant context found.)")].
Proof.
  destruct (ask_with_nothing_retrieved (Script.env [Script.ok (JObj [])] 1 [])
              demo_cfg no_text no_text "why?" Script.boot 200 EmptyString [])
    as (r & w' & Hrun & Htr & _).
  - reflexivity.
  - lia.
  - reflexivity.
  - exists r, w'. split; [exact Hrun|exact Htr].
Defined.

Lemma citations_point_at_shown_contexts_witness :
  exists ks,
    StronglySorted lt ks /\
    Forall2
      (cited_at blank_then_text
         [JObj [("sourceUri", JStr "gs://b/empty.txt"); ("score", JNull);
                ("text", JStr "  ")];
          JObj [("sourceUri", JStr "gs://b/tickets.ndjson");
                ("score", JFloat 1 2); ("text", JStr "disk full")]]
         1)
      ks
      ["[2] Source: gs://b/tickets.ndjson" ++ nl ++ "disk full"].
Proof.
  apply (citations_point_at_shown_contexts no_text blank_then_text 1);
    reflexivity.
Defined.

Lemma chunked_main_ignores_sink_witness :
  exit_status (fun code => code)
    (ImportWithSinkChunked.main
       (with_commands done_at_once
          (mkCompleted 0 "gs://b/import_results/out.ndjson" EmptyString))
       5 chunked_args Script.boot)
  = exit_status (fun code => code)
      (ImportWithSinkChunked.main
         (with_commands done_at_once
            (mkCompleted 1 EmptyString
               "CommandException: One or more URLs matched no objects."))
         5 chunked_args Script.boot).
Proof.
  apply chunked_main_ignores_sink.
  - split; reflexivity.
  - intros w cmd. discriminate.
  - intros w cmd. discriminate.
Defined.

End MoreRuns.
